(** * The Three.js documentation scraper: a shallow embedding and its properties

    The development follows [src/scraper.js]: the cache store, link
    discovery with its retry loop, per-page content extraction, the in-page
    normalisation of code blocks, the assembly of the single HTML document
    and the orchestration of a run.

    Conventions.
    - A JavaScript string is a [string] holding the UTF-8 bytes of
      well-formed text (lone surrogates, on which [encodeURIComponent]
      raises, have no representation).
    - A JavaScript value that the program stores or reads back is a
      [JsValue]; a number is carried by the text [ToString] gives for it.
    - An exception is a value [Throw e] of [Result]; asynchronous code is
      written in the state-and-exception monad [M] over a [World] holding
      the file system and the chronological trace of every call the program
      made to its environment (browser, file system, timer, console).
    - [JSON.parse] and [JSON.stringify] are the runtime's: the development
      is parametric in them (class [Json]). *)

From Stdlib Require Import String Ascii List ZArith NArith Lia Bool Arith Permutation.
From stdpp Require Import base option list gmap strings pretty.
From Equations Require Import Equations.
Import ListNotations.

Local Open Scope string_scope.
Local Open Scope list_scope.

(** ** Characters and strings *)

Definition dq : string := String "034"%char EmptyString.
Definition nl : string := String "010"%char EmptyString.

(** Concatenation of the pieces of a template literal. *)
Definition cat (pieces : list string) : string :=
  fold_right String.append EmptyString pieces.

(** [s.startsWith(p)] *)
Fixpoint startsWith (s p : string) {struct p} : bool :=
  match p with
  | EmptyString => true
  | String a p' =>
      match s with
      | EmptyString => false
      | String b s' => if Ascii.eqb a b then startsWith s' p' else false
      end
  end.

(** [s.includes(p)] *)
Fixpoint includes (s p : string) : bool :=
  startsWith s p ||
  match s with
  | EmptyString => false
  | String _ s' => includes s' p
  end.

(** [p] occurs in [s]. *)
Definition occurs_in (p s : string) : Prop :=
  exists pre post, s = pre +:+ p +:+ post.

Definition is_digit (c : ascii) : bool :=
  (48 <=? nat_of_ascii c)%nat && (nat_of_ascii c <=? 57)%nat.

Definition is_upper (c : ascii) : bool :=
  (65 <=? nat_of_ascii c)%nat && (nat_of_ascii c <=? 90)%nat.

Definition is_lower (c : ascii) : bool :=
  (97 <=? nat_of_ascii c)%nat && (nat_of_ascii c <=? 122)%nat.

(** The class [\w] of a regular expression: [A-Za-z0-9_]. *)
Definition is_word (c : ascii) : bool :=
  is_upper c || is_lower c || is_digit c || Ascii.eqb c "_"%char.

Definition hex_digit (n : nat) : ascii :=
  ascii_of_nat (if (n <? 10)%nat then 48 + n else 55 + n).

(** ** [encodeURIComponent]

    Every byte of the UTF-8 form is kept when it is one of
    [A-Z a-z 0-9 - _ . ! ~ * ' ( )] and written [%XX] (upper-case
    hexadecimal) otherwise. *)

Definition uri_unreserved (c : ascii) : bool :=
  is_upper c || is_lower c || is_digit c ||
  existsb (Ascii.eqb c)
    ["-"; "_"; "."; "!"; "~"; "*"; "'"; "("; ")"]%char.

Definition percent_encode (c : ascii) : string :=
  String "%"%char
    (String (hex_digit (nat_of_ascii c / 16))
       (String (hex_digit (nat_of_ascii c mod 16)) EmptyString)).

Fixpoint encodeURIComponent (s : string) : string :=
  match s with
  | EmptyString => EmptyString
  | String c s' =>
      (if uri_unreserved c then String c EmptyString else percent_encode c)
      +:+ encodeURIComponent s'
  end.

(** ** Exceptions *)

Record JsError := mkError { errName : string; message : string }.

Inductive Result (A : Type) : Type :=
| Ok (a : A)
| Throw (e : JsError).
Arguments Ok {A} a.
Arguments Throw {A} e.

Definition Error (msg : string) : JsError := mkError "Error" msg.
Definition TypeError (msg : string) : JsError := mkError "TypeError" msg.

Definition is_ok {A} (r : Result A) : bool :=
  match r with Ok _ => true | Throw _ => false end.

Definition rbind {A B} (r : Result A) (k : A -> Result B) : Result B :=
  match r with
  | Ok a => k a
  | Throw e => Throw e
  end.

(** ** JavaScript values *)

#[warnings="-register-all"] Inductive JsValue : Type :=
| JsUndefined
| JsNull
| JsBool (b : bool)
| JsNumber (repr : string)
| JsString (s : string)
| JsArray (elems : list JsValue)
| JsObject (props : list (string * JsValue)).

(** Own property of a plain data object, by key. *)
Fixpoint assoc {V} (k : string) (o : list (string * V)) : option V :=
  match o with
  | [] => None
  | (k', v) :: o' => if String.eqb k k' then Some v else assoc k o'
  end.

(** [v.key] on a value that is neither [undefined] nor [null]: the own
    property when [v] is a data object that has it, [undefined] otherwise
    (none of the keys the program reads is defined on a built-in
    prototype). *)
Definition get_prop (v : JsValue) (key : string) : JsValue :=
  match v with
  | JsObject props => default JsUndefined (assoc key props)
  | _ => JsUndefined
  end.

(** Truthiness, as tested by [if (v)], [!v] and [v || d]. *)
Definition truthy (v : JsValue) : bool :=
  match v with
  | JsUndefined | JsNull => false
  | JsBool b => b
  | JsNumber repr => negb (String.eqb repr "0") && negb (String.eqb repr "NaN")
  | JsString s => negb (String.eqb s EmptyString)
  | JsArray _ | JsObject _ => true
  end.

(** [ToString], as applied by a template literal.  A data object prints as
    [[object Object]] through the inherited [toString]; when it has an own
    property of that name (a datum, hence not callable) the conversion
    raises.  An array prints its elements joined by commas, [undefined] and
    [null] elements as the empty string. *)
Fixpoint toStr (v : JsValue) : Result string :=
  match v with
  | JsUndefined => Ok "undefined"
  | JsNull => Ok "null"
  | JsBool b => Ok (if b then "true" else "false")
  | JsNumber repr => Ok repr
  | JsString s => Ok s
  | JsArray elems =>
      (fix join (first : bool) (l : list JsValue) : Result string :=
         match l with
         | [] => Ok EmptyString
         | x :: l' =>
             rbind (match x with
                    | JsUndefined | JsNull => Ok EmptyString
                    | _ => toStr x
                    end)
               (fun sx =>
                  rbind (join false l')
                    (fun rest =>
                       Ok ((if first then EmptyString else ",") +:+ sx +:+ rest)))
         end) true elems
  | JsObject props =>
      match assoc "toString" props with
      | Some _ => Throw (TypeError "Cannot convert object to primitive value")
      | None => Ok "[object Object]"
      end
  end.

(** ** Configuration *)

Record Selectors := {
  sel_panel : string;
  sel_docLinks : string;
  sel_iframe : string;
  sel_content_manual : string;
  sel_content_fallback : string;
}.

Record Config := {
  DEV_MODE : bool;
  DEV_PAGE_LIMIT : nat;
  BASE_URL : string;
  DOCS_URL : string;
  TIMEOUT : Z;
  OUTPUT_DIR : string;
  CACHE_DIR : string;
  USE_CACHE : bool;
  CACHE_VERSION : string;
  SELECTORS : Selectors;
}.

(** The [config] object; [dev_mode] is [process.env.DEV_MODE === 'true'] and
    [use_cache] is [process.env.NO_CACHE !== 'true']. *)
Definition config (dev_mode use_cache : bool) : Config := {|
  DEV_MODE := dev_mode;
  DEV_PAGE_LIMIT := 10;
  BASE_URL := "https://threejs.org";
  DOCS_URL := "https://threejs.org/docs/index.html#manual/en/introduction/Creating-a-scene";
  TIMEOUT := 30000;
  OUTPUT_DIR := "docs";
  CACHE_DIR := ".cache";
  USE_CACHE := use_cache;
  CACHE_VERSION := "1";
  SELECTORS := {|
    sel_panel := "#panel";
    sel_docLinks := cat ["#panel a[href*="; dq; "/en/"; dq; "]"];
    sel_iframe := "iframe";
    sel_content_manual := ".manual-content";
    sel_content_fallback := "body > *:not(script):not(link):not(style):not(#button)";
  |};
|}.

(** ** Plain objects used as maps

    [generateTableOfContents] accumulates its groups in an object literal
    [{}].  An object's own properties are kept in creation order; reading
    [acc[key]] falls back on [Object.prototype] when [acc] has no own
    property [key]; and [Object.entries] lists the own properties whose key
    is an array index first, in ascending numeric order, then the others in
    creation order. *)

(** The property names of [Object.prototype]; each holds a function, except
    [__proto__] whose getter yields [Object.prototype] itself: all are truthy
    and none has a [push] method. *)
Definition objectPrototypeKeys : list string :=
  [ "constructor"; "__defineGetter__"; "__defineSetter__"; "hasOwnProperty";
    "__lookupGetter__"; "__lookupSetter__"; "isPrototypeOf";
    "propertyIsEnumerable"; "toString"; "valueOf"; "__proto__";
    "toLocaleString" ].

Definition inherited (key : string) : bool :=
  existsb (String.eqb key) objectPrototypeKeys.

Fixpoint decimal_value (s : string) (acc : N) : option N :=
  match s with
  | EmptyString => Some acc
  | String c s' =>
      if is_digit c
      then decimal_value s' (10 * acc + N.of_nat (nat_of_ascii c - 48))%N
      else None
  end.

(** A key is an array index when it is the canonical decimal form of an
    integer between 0 and 2^32 - 2. *)
Definition array_index (key : string) : option N :=
  match key with
  | EmptyString => None
  | String c rest =>
      if Ascii.eqb c "0"%char && negb (String.eqb rest EmptyString) then None
      else match decimal_value key 0 with
           | Some n => if (n <=? 4294967294)%N then Some n else None
           | None => None
           end
  end.

Fixpoint insert_by_index {V} (n : N) (kv : string * V)
    (l : list (N * (string * V))) : list (N * (string * V)) :=
  match l with
  | [] => [(n, kv)]
  | (m, kv') :: l' =>
      if (n <=? m)%N then (n, kv) :: l
      else (m, kv') :: insert_by_index n kv l'
  end.

Fixpoint index_entries {V} (o : list (string * V)) : list (N * (string * V)) :=
  match o with
  | [] => []
  | kv :: o' =>
      match array_index (fst kv) with
      | Some n => insert_by_index n kv (index_entries o')
      | None => index_entries o'
      end
  end.

Definition is_named {V} (kv : string * V) : bool :=
  match array_index (fst kv) with Some _ => false | None => true end.

(** [Object.entries(o)] for an object whose own properties, in creation
    order, are [o]. *)
Definition Object_entries {V} (o : list (string * V)) : list (string * V) :=
  map snd (index_entries o) ++ List.filter is_named o.

(** Replace the value of the own property [key]. *)
Fixpoint assoc_set {V} (key : string) (v : V) (o : list (string * V))
    : list (string * V) :=
  match o with
  | [] => []
  | (k', v') :: o' =>
      if String.eqb key k' then (k', v) :: o' else (k', v') :: assoc_set key v o'
  end.

(** [Array.prototype.reduce] with a callback that may raise. *)
Fixpoint reduce {A B} (f : A -> B -> Result A) (l : list B) (acc : A) : Result A :=
  match l with
  | [] => Ok acc
  | x :: l' => rbind (f acc x) (reduce f l')
  end.

(** ** The document assembler *)

Record DocRecord := {
  title : string;
  content : JsValue;
  section : string;
}.

(** [doc.section || 'Reference'] *)
Definition section_or_default (s : string) : string :=
  if String.eqb s EmptyString then "Reference" else s.

(** The callback of the [reduce] in [generateTableOfContents]:
    [if (!acc[section]) acc[section] = []; acc[section].push(doc)]. *)
Definition group_step (acc : list (string * list DocRecord)) (doc : DocRecord)
    : Result (list (string * list DocRecord)) :=
  let section := section_or_default (section doc) in
  match assoc section acc with
  | Some docs => Ok (assoc_set section (docs ++ [doc]) acc)
  | None =>
      if inherited section
      then Throw (TypeError "acc[section].push is not a function")
      else Ok (acc ++ [(section, [doc])])
  end.

Definition group_by_section (documentation : list DocRecord)
    : Result (list (string * list DocRecord)) :=
  reduce group_step documentation [].

(** One entry of a section's list: an anchor and its label. *)
Record TocItem := { href : string; label : string }.

Definition toc_item (doc : DocRecord) : TocItem :=
  {| href := encodeURIComponent (title doc); label := title doc |}.

(** The sections of the table of contents, in rendering order, each with its
    items in rendering order. *)
Definition toc_sections (documentation : list DocRecord)
    : Result (list (string * list TocItem)) :=
  rbind (group_by_section documentation)
    (fun sections =>
       Ok (map (fun e => (fst e, map toc_item (snd e))) (Object_entries sections))).

Definition render_toc_item (it : TocItem) : string :=
  cat [ nl;
        "            <li>"; nl;
        "              <a href="; dq; "#"; href it; dq; ">"; label it; "</a>"; nl;
        "            </li>"; nl;
        "          " ].

Definition render_toc_section (e : string * list TocItem) : string :=
  cat [ nl;
        "      <h2>"; fst e; "</h2>"; nl;
        "      <div class="; dq; "subsection"; dq; ">"; nl;
        "        <ul>"; nl;
        "          "; cat (map render_toc_item (snd e)); nl;
        "        </ul>"; nl;
        "      </div>"; nl;
        "    " ].

Definition generateTableOfContents (documentation : list DocRecord) : Result string :=
  rbind (toc_sections documentation)
    (fun sections => Ok (cat (map render_toc_section sections))).

(** The anchor targets of a table of contents: the [href] values after [#],
    in rendering order. *)
Definition toc_anchors (sections : list (string * list TocItem)) : list string :=
  flat_map (fun e => map href (snd e)) sections.

(** The section headings of a table of contents, in rendering order. *)
Definition toc_headings (sections : list (string * list TocItem)) : list string :=
  map fst sections.


(** The label under which a record is grouped. *)
Definition label_of (doc : DocRecord) : string := section_or_default (section doc).

(** Following the words of the specification, not the code: the labels in
    first-seen order ... *)
Fixpoint first_seen (labels : list string) : list string :=
  match labels with
  | [] => []
  | s :: rest => s :: List.filter (fun s' => negb (String.eqb s' s)) (first_seen rest)
  end.

(** ... and the grouping by section that preserves first-seen section order
    and the input order of the records within each section. *)
Definition grouped_first_seen (documentation : list DocRecord)
    : list (string * list DocRecord) :=
  map (fun s => (s, List.filter (fun doc => String.eqb (label_of doc) s) documentation))
    (first_seen (map label_of documentation)).

(** One wrapper of the viewer: its id and the record's content. *)
Record Wrapper := { wrapper_id : string; wrapper_content : JsValue }.

Definition wrapper_of (doc : DocRecord) : Wrapper :=
  {| wrapper_id := encodeURIComponent (title doc); wrapper_content := content doc |}.

Definition viewer_wrappers (documentation : list DocRecord) : list Wrapper :=
  map wrapper_of documentation.

Definition render_wrapper (w : Wrapper) : Result string :=
  rbind (toStr (wrapper_content w))
    (fun body =>
       Ok (cat [ nl;
                 "      <div class="; dq; "manual"; dq; " id="; dq; wrapper_id w; dq; ">"; nl;
                 "        "; body; nl;
                 "      </div>"; nl;
                 "    " ])).

(** [l.map(f).join('')] for a callback that may raise. *)
Fixpoint map_join {A} (f : A -> Result string) (l : list A) : Result string :=
  match l with
  | [] => Ok EmptyString
  | x :: l' =>
      rbind (f x) (fun s => rbind (map_join f l') (fun rest => Ok (s +:+ rest)))
  end.

Definition generateContent (documentation : list DocRecord) : Result string :=
  map_join render_wrapper (viewer_wrappers documentation).

(** The ids of the viewer's wrappers, in rendering order. *)
Definition viewer_ids (documentation : list DocRecord) : list string :=
  map wrapper_id (viewer_wrappers documentation).

Definition generateHeader (cfg : Config) : string :=
  cat [ nl;
        "    <div id="; dq; "header"; dq; ">"; nl;
        "      <h1><a href="; dq; BASE_URL cfg; dq; ">three.js</a></h1>"; nl;
        "      <div id="; dq; "sections"; dq; ">"; nl;
        "        <span class="; dq; "selected"; dq; ">docs</span>"; nl;
        "      </div>"; nl;
        "      <div id="; dq; "expandButton"; dq; "></div>"; nl;
        "    </div>"; nl;
        "  " ].

Definition generateSearch : string :=
  cat [ nl;
        "    <div id="; dq; "inputWrapper"; dq; ">"; nl;
        "      <input type="; dq; "text"; dq; " id="; dq; "filterInput"; dq; " placeholder="; dq; "Search"; dq; " autocorrect="; dq; "off"; dq; " autocapitalize="; dq; "off"; dq; " spellcheck="; dq; "false"; dq; " />"; nl;
        "      <div id="; dq; "clearSearchButton"; dq; "></div>"; nl;
        "    </div>"; nl;
        "  " ].

Definition generateScript : string :=
  cat [ nl;
        "    <script>"; nl;
        "      // Panel functionality"; nl;
        "      const panel = document.getElementById('panel');"; nl;
        "      const expandButton = document.getElementById('expandButton');"; nl;
        "      const panelScrim = document.getElementById('panelScrim');"; nl;
        "      const filterInput = document.getElementById('filterInput');"; nl;
        "      const clearSearchButton = document.getElementById('clearSearchButton');"; nl;
        nl;
        "      expandButton.onclick = function(event) {"; nl;
        "        event.preventDefault();"; nl;
        "        panel.classList.toggle('open');"; nl;
        "      };"; nl;
        nl;
        "      panelScrim.onclick = function(event) {"; nl;
        "        event.preventDefault();"; nl;
        "        panel.classList.toggle('open');"; nl;
        "      };"; nl;
        nl;
        "      filterInput.onfocus = function() {"; nl;
        "        panel.classList.add('searchFocused');"; nl;
        "      };"; nl;
        nl;
        "      filterInput.onblur = function() {"; nl;
        "        if (filterInput.value === '') {"; nl;
        "          panel.classList.remove('searchFocused');"; nl;
        "        }"; nl;
        "      };"; nl;
        nl;
        "      clearSearchButton.onclick = function() {"; nl;
        "        filterInput.value = '';"; nl;
        "        filterInput.focus();"; nl;
        "      };"; nl;
        "    </script>"; nl;
        "  " ].

Definition generateHead (cfg : Config) : string :=
  cat [ nl;
        "    <meta charset="; dq; "UTF-8"; dq; ">"; nl;
        "    <meta name="; dq; "viewport"; dq; " content="; dq; "width=device-width, user-scalable=no, minimum-scale=1.0, maximum-scale=1.0"; dq; ">"; nl;
        "    <title>Three.js Documentation</title>"; nl;
        "    <link rel="; dq; "shortcut icon"; dq; " href="; dq; BASE_URL cfg; "/files/favicon_white.ico"; dq; " media="; dq; "(prefers-color-scheme: dark)"; dq; "/>"; nl;
        "    <link rel="; dq; "shortcut icon"; dq; " href="; dq; BASE_URL cfg; "/files/favicon.ico"; dq; " media="; dq; "(prefers-color-scheme: light)"; dq; " />"; nl;
        "    <link rel="; dq; "stylesheet"; dq; " type="; dq; "text/css"; dq; " href="; dq; BASE_URL cfg; "/docs/page.css"; dq; ">"; nl;
        "    <script src="; dq; "https://cdn.jsdelivr.net/gh/google/code-prettify@master/loader/run_prettify.js"; dq; "></script>"; nl;
        "  " ].

(** The placeholders of the template are evaluated from left to right: the
    table of contents before the viewer. *)
Definition generateBody (cfg : Config) (documentation : list DocRecord) : Result string :=
  rbind (generateTableOfContents documentation) (fun toc =>
  rbind (generateContent documentation) (fun viewer =>
  Ok (cat [ nl;
        "    <div id="; dq; "panel"; dq; ">"; nl;
        "      "; generateHeader cfg; nl;
        "      <div id="; dq; "panelScrim"; dq; "></div>"; nl;
        "      <div id="; dq; "contentWrapper"; dq; ">"; nl;
        "        "; generateSearch; nl;
        "        <div id="; dq; "content"; dq; ">"; nl;
        "          "; toc; nl;
        "        </div>"; nl;
        "      </div>"; nl;
        "    </div>"; nl;
        "    <div id="; dq; "viewer"; dq; ">"; nl;
        "      "; viewer; nl;
        "    </div>"; nl;
        "    "; generateScript; nl;
        "  " ]))).

Definition generateHTML (cfg : Config) (documentation : list DocRecord) : Result string :=
  rbind (generateBody cfg documentation) (fun body =>
  Ok (cat [ nl;
        "    <!DOCTYPE html>"; nl;
        "    <html lang="; dq; "en"; dq; ">"; nl;
        "      <head>"; nl;
        "        "; generateHead cfg; nl;
        "      </head>"; nl;
        "      <body>"; nl;
        "        "; body; nl;
        "      </body>"; nl;
        "    </html>"; nl;
        "  " ])).

(** ** The in-page normalisation of code blocks

    The function passed to [frame.evaluate] works on the document of the
    frame.  An [Element] is an HTML element with its upper-case [tagName],
    its [className], the [white-space] of its inline style (empty when
    unset) and its element children; text nodes play no part in the
    selectors used.  An element is named by its path from the content
    region: the indices of the children to go through. *)

#[warnings="-register-all"] Inductive Element : Type :=
| Elem (tagName : string) (className : string) (whiteSpace : string)
       (children : list Element).

Definition tagName (e : Element) : string :=
  match e with Elem t _ _ _ => t end.
Definition className (e : Element) : string :=
  match e with Elem _ c _ _ => c end.
Definition whiteSpace (e : Element) : string :=
  match e with Elem _ _ w _ => w end.
Definition children (e : Element) : list Element :=
  match e with Elem _ _ _ cs => cs end.

Definition path := list nat.

Fixpoint element_at (p : path) (e : Element) : option Element :=
  match p with
  | [] => Some e
  | i :: p' =>
      match children e !! i with
      | Some c => element_at p' c
      | None => None
      end
  end.

(** The proper descendants of an element, in document order. *)
Fixpoint descendants (e : Element) : list path :=
  match e with
  | Elem _ _ _ cs =>
      (fix from (i : nat) (l : list Element) : list path :=
         match l with
         | [] => []
         | c :: l' => ([i] :: map (cons i) (descendants c)) ++ from (S i) l'
         end) 0%nat cs
  end.

(** The descendants of the elements [l], taken as the children numbered from
    [i] of one element. *)
Fixpoint descendants_from (i : nat) (l : list Element) : list path :=
  match l with
  | [] => []
  | c :: l' => ([i] :: map (cons i) (descendants c)) ++ descendants_from (S i) l'
  end.

(** An element without its class and style: what no rewriting changes. *)
Fixpoint skeleton (e : Element) : Element :=
  match e with
  | Elem t _ _ cs => Elem t EmptyString EmptyString (map skeleton cs)
  end.

(** Apply [f] to the element at path [p]. *)
Fixpoint update_at (p : path) (f : Element -> Element) (e : Element) : Element :=
  match p with
  | [] => f e
  | i :: p' =>
      match e with
      | Elem t c w cs => Elem t c w (alter (update_at p' f) i cs)
      end
  end.

Definition has_tag (t : string) (e : Element) : bool := String.eqb (tagName e) t.

Definition tag_at_is (t : string) (root : Element) (p : path) : bool :=
  match element_at p root with
  | Some e => has_tag t e
  | None => false
  end.

(** [root.querySelectorAll('pre, code')] *)
Definition querySelectorAll_pre_code (root : Element) : list path :=
  List.filter (fun p => tag_at_is "PRE" root p || tag_at_is "CODE" root p)
    (descendants root).

(** [el.querySelector('code')]: the first descendant that is a [code]. *)
Definition querySelector_code (el : Element) : option path :=
  head (List.filter (tag_at_is "CODE" el) (descendants el)).

(** [el.parentElement.matches('pre')] for the element at [p]. *)
Definition parent_matches_pre (root : Element) (p : path) : bool :=
  tag_at_is "PRE" root (removelast p).

Fixpoint take_word (s : string) : string :=
  match s with
  | EmptyString => EmptyString
  | String c s' => if is_word c then String c (take_word s') else EmptyString
  end.

Fixpoint all_word (s : string) : bool :=
  match s with
  | EmptyString => true
  | String c s' => is_word c && all_word s'
  end.

Fixpoint drop_chars (n : nat) (s : string) : string :=
  match n, s with
  | O, _ => s
  | S n', String _ s' => drop_chars n' s'
  | S _, EmptyString => EmptyString
  end.

(** The match of [/language-(\w+)/] that starts at the beginning of [s]:
    its group 1. *)
Definition language_here (s : string) : option string :=
  if startsWith s "language-"
  then match take_word (drop_chars 9 s) with
       | EmptyString => None
       | w => Some w
       end
  else None.

(** [s.match(/language-(\w+)/)?.[1]]: group 1 of the leftmost match. *)
Fixpoint match_language (s : string) : option string :=
  match language_here s with
  | Some w => Some w
  | None =>
      match s with
      | EmptyString => None
      | String _ s' => match_language s'
      end
  end.

(** [code.className = `prettyprint lang-${language}`;
     code.style.whiteSpace = 'pre'] *)
Definition rewrite_block (code : Element) : Element :=
  match code with
  | Elem t c _ cs =>
      let language := default "javascript" (match_language c) in
      Elem t ("prettyprint lang-" +:+ language) "pre" cs
  end.

(** [el.className = 'inline'; el.style.whiteSpace = 'pre'] *)
Definition rewrite_inline (el : Element) : Element :=
  match el with
  | Elem t _ _ cs => Elem t "inline" "pre" cs
  end.

(** The callback of the [forEach] in [processCodeBlocks], for the element at
    path [p] of the content region in its current state. *)
Definition process_element (content : Element) (p : path) : Element :=
  match element_at p content with
  | None => content
  | Some el =>
      if has_tag "PRE" el then
        let code := match querySelector_code el with
                    | Some q => p ++ q
                    | None => p
                    end in
        update_at code rewrite_block content
      else if has_tag "CODE" el && negb (parent_matches_pre content p) then
        update_at p rewrite_inline content
      else content
  end.

(** The element whose class the callback rewrites for the [pre] at [p]: its
    first descendant [code], or itself. *)
Definition inner_code (content : Element) (p : path) : path :=
  match element_at p content with
  | Some el =>
      match querySelector_code el with
      | Some q => p ++ q
      | None => p
      end
  | None => p
  end.

(** What the callback writes for the element at [p], read off the unchanged
    shape of the content: the path it rewrites, and whether as a block. *)
Definition write_of (content : Element) (p : path) : option (path * bool) :=
  match element_at p content with
  | None => None
  | Some el =>
      if has_tag "PRE" el then Some (inner_code content p, true)
      else if has_tag "CODE" el && negb (parent_matches_pre content p)
           then Some (p, false)
           else None
  end.

Definition attrs_at (p : path) (e : Element) : option (string * string) :=
  match element_at p e with
  | Some x => Some (className x, whiteSpace x)
  | None => None
  end.

(** The class and [white-space] a rewriting leaves, from the class before
    it. *)
Definition rewritten (block : bool) (cls : string) : string * string :=
  (if block then "prettyprint lang-" +:+ default "javascript" (match_language cls)
   else "inline",
   "pre").

Definition apply_write (write : option (path * bool)) (content : Element) : Element :=
  match write with
  | Some (target, true) => update_at target rewrite_block content
  | Some (target, false) => update_at target rewrite_inline content
  | None => content
  end.

(** The list of elements is computed once, before any is rewritten. *)
Definition processCodeBlocks (content : Element) : Element :=
  fold_left process_element (querySelectorAll_pre_code content) content.

(** ** Detection of malformed HTML *)

Definition malformedPatterns : list string :=
  [ "</div></p>"; "<p></div>"; "<div></p>" ].

(** [malformedPatterns.some((pattern) => content.innerHTML.includes(pattern))] *)
Definition hasMalformedHTML (innerHTML : string) : bool :=
  existsb (fun pattern => includes innerHTML pattern) malformedPatterns.

(** ** MD5, for the cache key

    [crypto.createHash('md5').update(url).digest('hex')], on 32-bit words
    held in [Z] with the wrap-around written out. *)

Definition mask32 (x : Z) : Z := Z.land x 4294967295.
Definition not32 (x : Z) : Z := Z.lxor x 4294967295.
Definition rotl32 (x n : Z) : Z :=
  mask32 (Z.lor (Z.shiftl x n) (Z.shiftr x (32 - n))).

Definition md5_K : list Z :=
  [ 3614090360; 3905402710; 606105819; 3250441966; 4118548399; 1200080426;
    2821735955; 4249261313; 1770035416; 2336552879; 4294925233; 2304563134;
    1804603682; 4254626195; 2792965006; 1236535329; 4129170786; 3225465664;
    643717713; 3921069994; 3593408605; 38016083; 3634488961; 3889429448;
    568446438; 3275163606; 4107603335; 1163531501; 2850285829; 4243563512;
    1735328473; 2368359562; 4294588738; 2272392833; 1839030562; 4259657740;
    2763975236; 1272893353; 4139469664; 3200236656; 681279174; 3936430074;
    3572445317; 76029189; 3654602809; 3873151461; 530742520; 3299628645;
    4096336452; 1126891415; 2878612391; 4237533241; 1700485571; 2399980690;
    4293915773; 2240044497; 1873313359; 4264355552; 2734768916; 1309151649;
    4149444226; 3174756917; 718787259; 3951481745 ]%Z.

Definition md5_S : list Z :=
  [ 7; 12; 17; 22; 7; 12; 17; 22; 7; 12; 17; 22; 7; 12; 17; 22;
    5; 9; 14; 20; 5; 9; 14; 20; 5; 9; 14; 20; 5; 9; 14; 20;
    4; 11; 16; 23; 4; 11; 16; 23; 4; 11; 16; 23; 4; 11; 16; 23;
    6; 10; 15; 21; 6; 10; 15; 21; 6; 10; 15; 21; 6; 10; 15; 21 ]%Z.

Fixpoint bytes_of_string (s : string) : list Z :=
  match s with
  | EmptyString => []
  | String c s' => Z.of_nat (nat_of_ascii c) :: bytes_of_string s'
  end.

(** The [n] low bytes of [x], least significant first. *)
Fixpoint le_bytes (n : nat) (x : Z) : list Z :=
  match n with
  | O => []
  | S n' => Z.land x 255 :: le_bytes n' (Z.shiftr x 8)
  end.

Definition md5_pad (m : list Z) : list Z :=
  let len := length m in
  m ++ [128%Z] ++ repeat 0%Z ((119 - len mod 64) mod 64)
    ++ le_bytes 8 (Z.of_nat len * 8).

(** Little-endian 32-bit words of a block of bytes. *)
Fixpoint le_words (bytes : list Z) : list Z :=
  match bytes with
  | b0 :: b1 :: b2 :: b3 :: rest =>
      (b0 + Z.shiftl b1 8 + Z.shiftl b2 16 + Z.shiftl b3 24)%Z :: le_words rest
  | _ => []
  end.

Definition md5_state : Type := Z * Z * Z * Z.

Definition md5_step (M : list Z) (st : md5_state) (i : nat) : md5_state :=
  let '(a, b, c, d) := st in
  let '(f, g) :=
    if (i <? 16)%nat then (Z.lor (Z.land b c) (Z.land (not32 b) d), i)
    else if (i <? 32)%nat then
      (Z.lor (Z.land d b) (Z.land (not32 d) c), ((5 * i + 1) mod 16)%nat)
    else if (i <? 48)%nat then (Z.lxor (Z.lxor b c) d, ((3 * i + 5) mod 16)%nat)
    else (Z.lxor c (Z.lor b (not32 d)), ((7 * i) mod 16)%nat) in
  let f' := mask32 (f + a + nth i md5_K 0 + nth g M 0)%Z in
  (d, mask32 (b + rotl32 f' (nth i md5_S 0))%Z, b, c).

Definition md5_block (st : md5_state) (block : list Z) : md5_state :=
  let '(a0, b0, c0, d0) := st in
  let '(a, b, c, d) := fold_left (md5_step (le_words block)) (seq 0 64) st in
  (mask32 (a0 + a), mask32 (b0 + b), mask32 (c0 + c), mask32 (d0 + d))%Z.

Fixpoint md5_blocks (fuel : nat) (st : md5_state) (bytes : list Z) : md5_state :=
  match fuel, bytes with
  | S fuel', _ :: _ =>
      md5_blocks fuel' (md5_block st (firstn 64 bytes)) (skipn 64 bytes)
  | _, _ => st
  end.

Definition hex_lower (n : Z) : ascii :=
  ascii_of_nat (Z.to_nat (if (n <? 10)%Z then 48 + n else 87 + n)%Z).

Fixpoint hex_of_bytes (bytes : list Z) : string :=
  match bytes with
  | [] => EmptyString
  | b :: rest =>
      String (hex_lower (Z.shiftr b 4))
        (String (hex_lower (Z.land b 15)) (hex_of_bytes rest))
  end.

Definition md5_hex (s : string) : string :=
  let padded := md5_pad (bytes_of_string s) in
  let '(a, b, c, d) :=
    md5_blocks (length padded)
      (1732584193, 4023233417, 2562383102, 271733878)%Z padded in
  hex_of_bytes (le_bytes 4 a ++ le_bytes 4 b ++ le_bytes 4 c ++ le_bytes 4 d).

(** [path.join(dir, name)] for a directory name in normal form, as those of
    the configuration are. *)
Definition path_join (dir name : string) : string := dir +:+ "/" +:+ name.

Definition getCacheKey (cfg : Config) (url : string) : string :=
  let hash := md5_hex url in
  path_join (CACHE_DIR cfg) (hash +:+ "_v" +:+ CACHE_VERSION cfg +:+ ".json").

(** ** The environment: file system, browser, console *)

Inductive LogArg :=
| ArgString (s : string)
| ArgError (e : JsError).

(** The calls the program makes to its environment. *)
Inductive Event :=
| EvLaunch
| EvNewPage
| EvSetDefaultTimeout (ms : Z)
| EvClose
| EvGoto (url : string)
| EvWaitForSelector (selector : string) (timeout : option Z)
| EvEvaluate
| EvQuery (selector : string)
| EvContentFrame
| EvFrameWaitForSelector (selector : string)
| EvFrameEvaluate
| EvSetTimeout (ms : Z)
| EvReadFile (file : string)
| EvWriteFile (file : string) (data : option string)
| EvMkdir (dir : string)
| EvRm (dir : string)
| EvConsoleLog (text : string) (args : list LogArg)
| EvConsoleError (text : string) (args : list LogArg).

(** An entry of the file system: a file with its text, or a path that
    cannot be opened (a directory, a path without permission, a failing
    device); reading and writing an entry of the second kind fail. *)
Inductive FileEntry :=
| FileData (data : string)
| Unreadable.

Record World := {
  files : gmap string FileEntry;
  write_refused : string -> bool;
  mkdir_refused : string -> bool;
  rm_refused : string -> bool;
  trace : list Event;
}.

Definition record (e : Event) (w : World) : World :=
  {| files := files w; write_refused := write_refused w;
     mkdir_refused := mkdir_refused w; rm_refused := rm_refused w;
     trace := trace w ++ [e] |}.

Definition with_files (fs : gmap string FileEntry) (w : World) : World :=
  {| files := fs; write_refused := write_refused w;
     mkdir_refused := mkdir_refused w; rm_refused := rm_refused w;
     trace := trace w |}.

(** A discovered link, as built by the function that [extractLinks]
    evaluates in the page. *)
Record LinkRecord := {
  url : string;
  text : string;
  link_path : string;
  link_section : string;
}.

(** The browser session.  The answer to a call may depend on every call made
    before it. *)
Record Frame := {
  frame_waitForSelector : list Event -> string -> Result unit;
  frame_evaluate : list Event -> Result JsValue;
}.

Record ElementHandle := {
  contentFrame : list Event -> Result (option Frame);
}.

Record Page := {
  setDefaultTimeout : list Event -> Z -> Result unit;
  goto : list Event -> string -> Result unit;
  waitForSelector : list Event -> string -> Result unit;
  evaluate : list Event -> Result (list LinkRecord);
  query : list Event -> string -> Result (option ElementHandle);
}.

Record Browser := {
  newPage : list Event -> Result Page;
  close : list Event -> Result unit;
}.

Record Puppeteer := {
  launch : list Event -> Result Browser;
}.

(** ** The monad of asynchronous code *)

Definition M (A : Type) : Type := World -> Result A * World.

Definition ret {A} (a : A) : M A := fun w => (Ok a, w).

Definition throw {A} (e : JsError) : M A := fun w => (Throw e, w).

Definition bind {A B} (m : M A) (k : A -> M B) : M B :=
  fun w =>
    match m w with
    | (Ok a, w') => k a w'
    | (Throw e, w') => (Throw e, w')
    end.

Definition lift {A} (r : Result A) : M A := fun w => (r, w).

(** [try { m } catch (error) { h error }] *)
Definition try_catch {A} (m : M A) (h : JsError -> M A) : M A :=
  fun w =>
    match m w with
    | (Ok a, w') => (Ok a, w')
    | (Throw e, w') => h e w'
    end.

(** [try { m } finally { c }] *)
Definition try_finally {A} (m : M A) (c : M unit) : M A :=
  fun w =>
    match m w with
    | (r, w') =>
        match c w' with
        | (Ok _, w'') => (r, w'')
        | (Throw e, w'') => (Throw e, w'')
        end
    end.

(** A call to the environment: it is recorded, and answered from the calls
    made so far. *)
Definition call {A} (e : Event) (answer : list Event -> Result A) : M A :=
  fun w => (answer (trace w), record e w).

Notation "x <~ m ;; k" := (bind m (fun x => k))
  (at level 100, m at next level, right associativity).
Notation "m >>> k" := (bind m (fun _ => k))
  (at level 100, right associativity).

(** The [log] object. *)
Definition log_info (msg : string) (args : list LogArg) : M unit :=
  call (EvConsoleLog ("[INFO] " +:+ msg) args) (fun _ => Ok tt).
Definition log_error (msg : string) (args : list LogArg) : M unit :=
  call (EvConsoleError ("[ERROR] " +:+ msg) args) (fun _ => Ok tt).
Definition log_debug (cfg : Config) (msg : string) : M unit :=
  if DEV_MODE cfg
  then call (EvConsoleLog ("[DEBUG] " +:+ msg) []) (fun _ => Ok tt)
  else ret tt.
Definition log_section (msg : string) : M unit :=
  call (EvConsoleLog (nl +:+ "=== " +:+ msg +:+ " ===") []) (fun _ => Ok tt).

(** [fs.readFile(file, 'utf8')] *)
Definition fs_readFile (file : string) : M string :=
  fun w =>
    (match files w !! file with
     | Some (FileData data) => Ok data
     | Some Unreadable => Throw (Error ("EACCES: permission denied, open '" +:+ file +:+ "'"))
     | None => Throw (Error ("ENOENT: no such file or directory, open '" +:+ file +:+ "'"))
     end,
     record (EvReadFile file) w).

(** [fs.writeFile(file, data)]; [data] is [None] for [undefined], which
    [writeFile] rejects. *)
Definition fs_writeFile (file : string) (data : option string) : M unit :=
  fun w =>
    let w' := record (EvWriteFile file data) w in
    match data with
    | None =>
        (Throw (TypeError "The data argument must be of type string or an instance of Buffer, TypedArray, or DataView. Received undefined"), w')
    | Some text =>
        match files w !! file with
        | Some Unreadable =>
            (Throw (Error ("EACCES: permission denied, open '" +:+ file +:+ "'")), w')
        | _ =>
            if write_refused w file
            then (Throw (Error ("ENOENT: no such file or directory, open '" +:+ file +:+ "'")), w')
            else (Ok tt, with_files (<[file := FileData text]> (files w)) w')
        end
    end.

(** [fs.mkdir(dir, { recursive: true })] *)
Definition fs_mkdir (dir : string) : M unit :=
  fun w =>
    (if mkdir_refused w dir
     then Throw (Error ("EACCES: permission denied, mkdir '" +:+ dir +:+ "'"))
     else Ok tt,
     record (EvMkdir dir) w).

Definition under (dir file : string) : bool :=
  String.eqb file dir || startsWith file (dir +:+ "/").

(** [fs.rm(dir, { recursive: true, force: true })] *)
Definition fs_rm (dir : string) : M unit :=
  fun w =>
    let w' := record (EvRm dir) w in
    if rm_refused w dir
    then (Throw (Error ("EACCES: permission denied, rm '" +:+ dir +:+ "'")), w')
    else (Ok tt, with_files (filter (fun kv => under dir (fst kv) = false) (files w)) w').

(** ** The cache store *)

(** The runtime's [JSON.parse] (which raises on a malformed text) and
    [JSON.stringify(value, null, 2)] (which raises, or yields [undefined],
    here [None]). *)
Class Json := {
  JSON_parse : string -> Result JsValue;
  JSON_stringify : JsValue -> Result (option string);
}.

Section Pipeline.

Context `{Json}.

Definition initializeCache (cfg : Config) (CLEAR_CACHE : bool) : M unit :=
  (if CLEAR_CACHE
   then try_catch
          (fs_rm (CACHE_DIR cfg) >>> log_info "Cache cleared successfully" [])
          (fun error => log_error "Failed to clear cache:" [ArgError error])
   else ret tt) >>>
  fs_mkdir (CACHE_DIR cfg).

Definition getFromCache (cfg : Config) (url : string) : M JsValue :=
  if negb (USE_CACHE cfg) then ret JsNull
  else
    try_catch
      (let cacheFile := getCacheKey cfg url in
       data <~ fs_readFile cacheFile ;;
       log_debug cfg ("Cache hit for " +:+ url) >>>
       lift (JSON_parse data))
      (fun _ => log_debug cfg ("Cache miss for " +:+ url) >>> ret JsNull).

(** What [getFromCache] yields, read off the file system (it is proved to
    yield this, below). *)
Definition cache_value (cfg : Config) (url : string) (fs : gmap string FileEntry) : JsValue :=
  if USE_CACHE cfg then
    match fs !! getCacheKey cfg url with
    | Some (FileData data) =>
        match JSON_parse data with
        | Ok v => v
        | Throw _ => JsNull
        end
    | _ => JsNull
    end
  else JsNull.

Definition saveToCache (cfg : Config) (url : string) (data : JsValue) : M unit :=
  if negb (USE_CACHE cfg) then ret tt
  else
    try_catch
      (let cacheFile := getCacheKey cfg url in
       json <~ lift (JSON_stringify data) ;;
       fs_writeFile cacheFile json >>>
       log_debug cfg ("Cached " +:+ url))
      (fun error => log_error "Failed to write cache:" [ArgError error]).

(** ** The browser *)

Definition createBrowser (cfg : Config) (puppeteer : Puppeteer) : M (Browser * Page) :=
  try_catch
    (browser <~ call EvLaunch (launch puppeteer) ;;
     page <~ call EvNewPage (newPage browser) ;;
     call (EvSetDefaultTimeout (TIMEOUT cfg))
          (fun h => setDefaultTimeout page h (TIMEOUT cfg)) >>>
     log_info "Browser initialized" [] >>>
     ret (browser, page))
    (fun error =>
       log_error "Failed to initialize browser:" [ArgError error] >>> throw error).

(** ** Link discovery *)

Definition maxRetries : nat := 2.

(** The body of the [try] block of [extractLinks]: one attempt. *)
Definition discover (cfg : Config) (page : Page) : M (list LinkRecord) :=
  call (EvGoto (DOCS_URL cfg)) (fun h => goto page h (DOCS_URL cfg)) >>>
  call (EvWaitForSelector (sel_panel (SELECTORS cfg)) None)
       (fun h => waitForSelector page h (sel_panel (SELECTORS cfg))) >>>
  links <~ call EvEvaluate (evaluate page) ;;
  log_info ("Found " +:+ pretty (length links) +:+ " documentation links") [] >>>
  ret links.

(** The [while] loop of [extractLinks], from a given value of [attempts]:
    the outcome, the final value of [attempts] and the final world.  The
    outcome [Ok None] is the loop left with its condition false, after which
    the function returns [undefined]. *)
Equations? extractLinks_loop (cfg : Config) (page : Page) (attempts : nat) (w : World)
    : Result (option (list LinkRecord)) * nat * World
    by wf (maxRetries - attempts) lt :=
  extractLinks_loop cfg page attempts w with lt_dec attempts maxRetries => {
    | right _ => (Ok None, attempts, w);
    | left _ with discover cfg page w => {
        | (Ok links, w1) => (Ok (Some links), attempts, w1);
        | (Throw error, w1) with includes (message error) "429" => {
            | true =>
                let msg := "Rate limit exceeded" in
                (Throw (Error msg), attempts, snd (log_error msg [] w1));
            | false with Nat.eq_dec (S attempts) maxRetries => {
                | left _ =>
                    (Throw error, S attempts,
                     snd (log_error "Failed to extract links:" [ArgError error] w1));
                | right _ =>
                    extractLinks_loop cfg page (S attempts)
                      (snd (call (EvSetTimeout 1000) (fun _ => Ok tt) w1)) } } } }.
Proof. lia. Qed.

Definition extractLinks (cfg : Config) (page : Page) : M (option (list LinkRecord)) :=
  fun w =>
    match extractLinks_loop cfg page 0 w with
    | (r, _, w') => (r, w')
    end.

(** ** Content extraction *)

(** [extractFrameContent(frame)]: the value of the function evaluated in
    the frame, as the browser session hands it back. *)
Definition extractFrameContent (frame : Frame) : M JsValue :=
  call EvFrameEvaluate (frame_evaluate frame).

Definition extractContent (cfg : Config) (page : Page) (url title : string) : M JsValue :=
  log_section ("Extracting Content: " +:+ title) >>>
  cached <~ getFromCache cfg url ;;
  if truthy cached then
    cached_title <~ lift (toStr (get_prop cached "title")) ;;
    log_info ("Using cached content for: " +:+ cached_title) [] >>>
    ret cached
  else
    try_catch
      (call (EvGoto url) (fun h => goto page h url) >>>
       try_catch
         (call (EvWaitForSelector (sel_iframe (SELECTORS cfg)) (Some (TIMEOUT cfg)))
               (fun h => waitForSelector page h (sel_iframe (SELECTORS cfg))))
         (fun error => throw (Error ("Timeout waiting for iframe: " +:+ message error))) >>>
       frameHandle <~ call (EvQuery (sel_iframe (SELECTORS cfg)))
                        (fun h => query page h (sel_iframe (SELECTORS cfg))) ;;
       match frameHandle with
       | None => throw (Error "No iframe found")
       | Some handle =>
           frame <~ call EvContentFrame (contentFrame handle) ;;
           match frame with
           | None => throw (Error "Failed to get iframe content")
           | Some frame =>
               call (EvFrameWaitForSelector "body")
                    (fun h => frame_waitForSelector frame h "body") >>>
               content <~ extractFrameContent frame ;;
               if negb (truthy content) || truthy (get_prop content "error") then
                 msg <~ lift (if truthy (get_prop content "error")
                              then toStr (get_prop content "error")
                              else Ok "No content found") ;;
                 throw (Error msg)
               else
                 let result :=
                   JsObject [ ("title", JsString title);
                              ("content", get_prop content "html");
                              ("hasMalformedHTML", get_prop content "hasMalformedHTML") ] in
                 saveToCache cfg url result >>>
                 ret result
           end
       end)
      (fun error =>
         log_error ("Failed to extract content from " +:+ url +:+ ":") [ArgError error] >>>
         throw error).

(** ** The orchestrator *)

(** The [for] loop of [scrapeDocumentation] over [pagesToProcess], pushing
    onto [documentation]. *)
Fixpoint extract_pages (cfg : Config) (page : Page) (pagesToProcess : list LinkRecord)
    (documentation : list DocRecord) : M (list DocRecord) :=
  match pagesToProcess with
  | [] => ret documentation
  | link :: rest =>
      content <~ extractContent cfg page (url link) (text link) ;;
      extract_pages cfg page rest
        (documentation ++
           [ {| title := text link;
                content := get_prop content "content";
                section := section_or_default (link_section link) |} ])
  end.

Definition outputPath (cfg : Config) : string :=
  path_join (OUTPUT_DIR cfg) "index.html".

(** The body of the [try] block of [scrapeDocumentation] once [page] is
    known. *)
Definition scrape_with (cfg : Config) (page : Page) : M unit :=
  found <~ extractLinks cfg page ;;
  match found with
  | None => throw (TypeError "Cannot read properties of undefined (reading 'slice')")
  | Some links =>
      let pagesToProcess :=
        if DEV_MODE cfg then firstn (DEV_PAGE_LIMIT cfg) links else links in
      log_info ("Will scrape " +:+ pretty (length pagesToProcess) +:+ " pages"
                +:+ (if DEV_MODE cfg then " (DEV_MODE)" else EmptyString)) [] >>>
      documentation <~ extract_pages cfg page pagesToProcess [] ;;
      log_info ("Successfully scraped " +:+ pretty (length documentation) +:+ " pages") [] >>>
      html <~ lift (generateHTML cfg documentation) ;;
      fs_mkdir (OUTPUT_DIR cfg) >>>
      fs_writeFile (outputPath cfg) (Some html) >>>
      log_info ("Output saved to " +:+ outputPath cfg) []
  end.

(** The [catch] block of [scrapeDocumentation]. *)
Definition scraping_failed {A} (error : JsError) : M A :=
  log_error "Scraping failed:" [ArgError error] >>> throw error.

(** The statements of [scrapeDocumentation] up to the set-up of the cache. *)
Definition startup (cfg : Config) (CLEAR_CACHE : bool) : M unit :=
  log_section "Starting Three.js Documentation Scraper" >>>
  log_info "Mode:" [ArgString (if DEV_MODE cfg then "DEVELOPMENT" else "PRODUCTION")] >>>
  (if CLEAR_CACHE then log_info "Clear cache flag detected" [] else ret tt) >>>
  initializeCache cfg CLEAR_CACHE.

(** [if (testPage) { page = testPage } else { ({ browser, page } = await
    createBrowser()) }]: the browser, when the run owns one, and the page. *)
Definition acquire_page (cfg : Config) (puppeteer : Puppeteer) (testPage : option Page)
    : M (option Browser * Page) :=
  match testPage with
  | Some page => ret (None, page)
  | None =>
      created <~ createBrowser cfg puppeteer ;;
      ret (Some (fst created), snd created)
  end.

(** [scrapeDocumentation(testPage)], with [CLEAR_CACHE] the presence of
    [--clear-cache] on the command line. *)
Definition scrapeDocumentation (cfg : Config) (CLEAR_CACHE : bool)
    (puppeteer : Puppeteer) (testPage : option Page) : M unit :=
  startup cfg CLEAR_CACHE >>>
  if CLEAR_CACHE then log_info "Cache cleared. Exiting..." []
  else
    acquired <~ try_catch (acquire_page cfg puppeteer testPage) scraping_failed ;;
    try_finally
      (try_catch (scrape_with cfg (snd acquired)) scraping_failed)
      (match fst acquired with
       | Some browser => call EvClose (close browser)
       | None => ret tt
       end).

End Pipeline.

(** ** A sample runtime

    An instance of [Json] for the places where a run is evaluated:
    [JSON.stringify(value, null, 2)] on every [JsValue], and a [JSON.parse]
    that reads the JSON texts without fractions, exponents and [\u]
    escapes and refuses the others. *)

Definition backslash : ascii := "092"%char.

Definition escape_char (c : ascii) : string :=
  if Ascii.eqb c "034"%char then String backslash dq
  else if Ascii.eqb c backslash then String backslash (String backslash EmptyString)
  else if Ascii.eqb c "008"%char then String backslash "b"
  else if Ascii.eqb c "012"%char then String backslash "f"
  else if Ascii.eqb c "010"%char then String backslash "n"
  else if Ascii.eqb c "013"%char then String backslash "r"
  else if Ascii.eqb c "009"%char then String backslash "t"
  else if (nat_of_ascii c <? 32)%nat then
    String backslash
      (String "u" (String "0" (String "0"
         (String (hex_lower (Z.of_nat (nat_of_ascii c / 16)))
            (String (hex_lower (Z.of_nat (nat_of_ascii c mod 16))) EmptyString)))))
  else String c EmptyString.

Fixpoint escape_chars (s : string) : string :=
  match s with
  | EmptyString => EmptyString
  | String c s' => escape_char c +:+ escape_chars s'
  end.

Definition quote (s : string) : string := dq +:+ escape_chars s +:+ dq.

Definition indentation (depth : nat) : string := cat (repeat "  " depth).

Fixpoint join_lines (sep : string) (l : list string) : string :=
  match l with
  | [] => EmptyString
  | [x] => x
  | x :: l' => x +:+ sep +:+ join_lines sep l'
  end.

(** The text of a value at a nesting depth; [None] where [JSON.stringify]
    gives [undefined]. *)
Fixpoint stringify_at (depth : nat) (v : JsValue) : option string :=
  match v with
  | JsUndefined => None
  | JsNull => Some "null"
  | JsBool b => Some (if b then "true" else "false")
  | JsNumber repr =>
      Some (if String.eqb repr "NaN" || String.eqb repr "Infinity"
               || String.eqb repr "-Infinity" then "null" else repr)
  | JsString s => Some (quote s)
  | JsArray elems =>
      let items :=
        (fix items (l : list JsValue) : list string :=
           match l with
           | [] => []
           | x :: l' =>
               (indentation (S depth) +:+ default "null" (stringify_at (S depth) x))
               :: items l'
           end) elems in
      Some (match items with
            | [] => "[]"
            | _ => "[" +:+ nl +:+ join_lines ("," +:+ nl) items +:+ nl
                   +:+ indentation depth +:+ "]"
            end)
  | JsObject props =>
      let rendered :=
        (fix rendered (l : list (string * JsValue)) : list (string * option string) :=
           match l with
           | [] => []
           | (k, x) :: l' => (k, stringify_at (S depth) x) :: rendered l'
           end) props in
      let members :=
        omap (fun kx =>
                match snd kx with
                | Some sx => Some (indentation (S depth) +:+ quote (fst kx) +:+ ": " +:+ sx)
                | None => None
                end)
          (Object_entries rendered) in
      Some (match members with
            | [] => "{}"
            | _ => "{" +:+ nl +:+ join_lines ("," +:+ nl) members +:+ nl
                   +:+ indentation depth +:+ "}"
            end)
  end.

Definition is_space (c : ascii) : bool :=
  Ascii.eqb c " "%char || Ascii.eqb c "009"%char || Ascii.eqb c "010"%char
  || Ascii.eqb c "013"%char.

Fixpoint skip_ws (s : string) : string :=
  match s with
  | String c s' => if is_space c then skip_ws s' else s
  | EmptyString => EmptyString
  end.

Definition unescape (c : ascii) : option ascii :=
  if Ascii.eqb c "034"%char then Some c
  else if Ascii.eqb c backslash then Some c
  else if Ascii.eqb c "/"%char then Some c
  else if Ascii.eqb c "b"%char then Some "008"%char
  else if Ascii.eqb c "f"%char then Some "012"%char
  else if Ascii.eqb c "n"%char then Some "010"%char
  else if Ascii.eqb c "r"%char then Some "013"%char
  else if Ascii.eqb c "t"%char then Some "009"%char
  else None.

(** The characters of a string literal after its opening quote, and what
    follows its closing quote. *)
Fixpoint parse_chars (s : string) : option (string * string) :=
  match s with
  | EmptyString => None
  | String c s' =>
      if Ascii.eqb c "034"%char then Some (EmptyString, s')
      else if Ascii.eqb c backslash then
        match s' with
        | String e s'' =>
            match unescape e, parse_chars s'' with
            | Some c', Some (body, rest) => Some (String c' body, rest)
            | _, _ => None
            end
        | EmptyString => None
        end
      else if (nat_of_ascii c <? 32)%nat then None
      else match parse_chars s' with
           | Some (body, rest) => Some (String c body, rest)
           | None => None
           end
  end.

Fixpoint take_digits (s : string) : string * string :=
  match s with
  | String c s' =>
      if is_digit c
      then let '(ds, rest) := take_digits s' in (String c ds, rest)
      else (EmptyString, s)
  | EmptyString => (EmptyString, EmptyString)
  end.

(** An integer literal: an optional minus sign, then [0] or digits that do
    not start with [0]; its text is its [ToString] text, but for [-0]. *)
Definition parse_integer (s : string) : option (JsValue * string) :=
  let '(neg, s1) := match s with
                    | String "-"%char s' => (true, s')
                    | _ => (false, s)
                    end in
  let '(ds, rest) := take_digits s1 in
  match ds with
  | EmptyString => None
  | String "0"%char (String _ _) => None
  | _ =>
      match rest with
      | String c _ =>
          if Ascii.eqb c "."%char || Ascii.eqb c "e"%char || Ascii.eqb c "E"%char
          then None
          else Some (JsNumber (if neg && negb (String.eqb ds "0")
                               then String "-"%char ds else ds), rest)
      | EmptyString =>
          Some (JsNumber (if neg && negb (String.eqb ds "0")
                          then String "-"%char ds else ds), rest)
      end
  end.

(** A later member of the same key replaces the earlier one in place. *)
Definition add_member (o : list (string * JsValue)) (k : string) (v : JsValue)
    : list (string * JsValue) :=
  match assoc k o with
  | Some _ => assoc_set k v o
  | None => o ++ [(k, v)]
  end.

Fixpoint parse_value (fuel : nat) (s : string) : option (JsValue * string) :=
  match fuel with
  | O => None
  | S fuel' =>
      let s := skip_ws s in
      if startsWith s "null" then Some (JsNull, drop_chars 4 s)
      else if startsWith s "true" then Some (JsBool true, drop_chars 4 s)
      else if startsWith s "false" then Some (JsBool false, drop_chars 5 s)
      else match s with
           | String c s' =>
               if Ascii.eqb c "034"%char then
                 match parse_chars s' with
                 | Some (body, rest) => Some (JsString body, rest)
                 | None => None
                 end
               else if Ascii.eqb c "["%char then
                 match skip_ws s' with
                 | String "]"%char rest => Some (JsArray [], rest)
                 | _ =>
                     match parse_elements fuel' s' with
                     | Some (elems, rest) => Some (JsArray elems, rest)
                     | None => None
                     end
                 end
               else if Ascii.eqb c "{"%char then
                 match skip_ws s' with
                 | String "}"%char rest => Some (JsObject [], rest)
                 | _ =>
                     match parse_members fuel' [] s' with
                     | Some (props, rest) => Some (JsObject props, rest)
                     | None => None
                     end
                 end
               else parse_integer s
           | EmptyString => None
           end
  end
with parse_elements (fuel : nat) (s : string) : option (list JsValue * string) :=
  match fuel with
  | O => None
  | S fuel' =>
      match parse_value fuel' s with
      | Some (v, rest) =>
          match skip_ws rest with
          | String ","%char rest' =>
              match parse_elements fuel' rest' with
              | Some (vs, rest'') => Some (v :: vs, rest'')
              | None => None
              end
          | String "]"%char rest' => Some ([v], rest')
          | _ => None
          end
      | None => None
      end
  end
with parse_members (fuel : nat) (acc : list (string * JsValue)) (s : string)
    : option (list (string * JsValue) * string) :=
  match fuel with
  | O => None
  | S fuel' =>
      match skip_ws s with
      | String "034"%char s1 =>
          match parse_chars s1 with
          | Some (k, s2) =>
              match skip_ws s2 with
              | String ":"%char s3 =>
                  match parse_value fuel' s3 with
                  | Some (v, rest) =>
                      match skip_ws rest with
                      | String ","%char rest' =>
                          parse_members fuel' (add_member acc k v) rest'
                      | String "}"%char rest' => Some (add_member acc k v, rest')
                      | _ => None
                      end
                  | None => None
                  end
              | _ => None
              end
          | None => None
          end
      | _ => None
      end
  end.

Definition SyntaxError (msg : string) : JsError := mkError "SyntaxError" msg.

Definition sample_parse (text : string) : Result JsValue :=
  match parse_value (2 * String.length text + 2) text with
  | Some (v, rest) =>
      match skip_ws rest with
      | EmptyString => Ok v
      | _ => Throw (SyntaxError "Unexpected non-whitespace character after JSON")
      end
  | None => Throw (SyntaxError "Unexpected token in JSON")
  end.

Definition sample_json : Json := {|
  JSON_parse := sample_parse;
  JSON_stringify := fun v => Ok (stringify_at 0 v);
|}.

(** ** Observations on a trace *)

(** The calls made on the browser session: navigation, waits for a selector,
    evaluations in the page or in a frame, lookups of handles. *)
Definition is_browser_call (e : Event) : bool :=
  match e with
  | EvGoto _ | EvWaitForSelector _ _ | EvEvaluate | EvQuery _ | EvContentFrame
  | EvFrameWaitForSelector _ | EvFrameEvaluate => true
  | _ => false
  end.

(** The lines written by [log.section]. *)
Definition is_section_log (e : Event) : bool :=
  match e with
  | EvConsoleLog text [] => startsWith text (nl +:+ "=== ")
  | _ => false
  end.

(** The line [log.section] writes when the extraction of a page starts. *)
Definition extraction_started (title : string) : Event :=
  EvConsoleLog (nl +:+ "=== " +:+ ("Extracting Content: " +:+ title) +:+ " ===") [].

Definition is_write_to (file : string) (e : Event) : bool :=
  match e with
  | EvWriteFile f _ => String.eqb f file
  | _ => false
  end.

Definition is_goto (e : Event) : bool :=
  match e with EvGoto _ => true | _ => false end.

Definition navigations (w : World) : nat :=
  length (List.filter is_goto (trace w)).

Definition section_logs (w : World) : list Event :=
  List.filter is_section_log (trace w).

(** The line [log.section] writes when a run starts. *)
Definition run_started : Event :=
  EvConsoleLog (nl +:+ "=== " +:+ "Starting Three.js Documentation Scraper" +:+ " ===") [].

(** A write of a file that is not in the cache directory. *)
Definition is_output_write (cfg : Config) (e : Event) : bool :=
  match e with
  | EvWriteFile f _ => negb (under (CACHE_DIR cfg) f)
  | _ => false
  end.

Definition output_writes (cfg : Config) (w : World) : list Event :=
  List.filter (is_output_write cfg) (trace w).

(** Neither a line of [log.section] nor a write outside the cache. *)
Definition quiet (cfg : Config) (e : Event) : Prop :=
  is_section_log e = false /\ is_output_write cfg e = false.

(** Every run of [m] only appends to the trace, and what it appends
    satisfies [P]. *)
Definition adds {A} (P : Event -> Prop) (m : M A) : Prop :=
  forall w, exists added,
    trace (snd (m w)) = trace w ++ added /\ Forall P added.


(** ** Sample environments *)

Definition no_frame_page (navigation : list Event -> string -> Result unit) : Page := {|
  setDefaultTimeout := fun _ _ => Ok tt;
  goto := navigation;
  waitForSelector := fun _ _ => Ok tt;
  evaluate := fun _ => Ok [];
  query := fun _ _ => Ok None;
|}.

(** A session whose first navigation times out and whose later ones are
    answered with HTTP 429. *)
Definition flaky_page : Page :=
  no_frame_page
    (fun history _ =>
       match history with
       | [] => Throw (Error "Navigation timeout of 30000 ms exceeded")
       | _ => Throw (Error "net::ERR_HTTP_RESPONSE_CODE_FAILURE 429")
       end).

(** A session on which every navigation times out. *)
Definition dead_page : Page :=
  no_frame_page (fun _ _ => Throw (Error "Navigation timeout of 30000 ms exceeded")).

Definition world_of (fs : gmap string FileEntry) : World := {|
  files := fs;
  write_refused := fun _ => false;
  mkdir_refused := fun _ => false;
  rm_refused := fun _ => false;
  trace := [];
|}.

Definition empty_world : World := world_of ∅.




Definition sample_url : string := "https://threejs.org/docs/#api/en/Test".

(** A stored record, and its serialised text. *)
Definition cached_page : JsValue :=
  JsObject [ ("title", JsString "Cached Page");
             ("content", JsString "<div>Cached content</div>");
             ("hasMalformedHTML", JsBool false) ].

Definition cached_text : string := default EmptyString (stringify_at 0 cached_page).

(** A world whose cache holds [cached_page] for [sample_url]. *)
Definition world_with_cache : World :=
  world_of {[ getCacheKey (config false true) sample_url := FileData cached_text ]}.

(** A world whose cache file for [sample_url] is cut short. *)
Definition world_with_broken_cache : World :=
  world_of {[ getCacheKey (config false true) sample_url := FileData "{ " ]}.

Definition sample_link (i : nat) : LinkRecord := {|
  url := "https://threejs.org/docs/#manual/en/introduction/Page-" +:+ pretty i;
  text := "Page " +:+ pretty i;
  link_path := "manual/en/introduction/Page-" +:+ pretty i;
  link_section := "Manual";
|}.

Definition sample_frame : Frame := {|
  frame_waitForSelector := fun _ _ => Ok tt;
  frame_evaluate := fun _ =>
    Ok (JsObject [ ("html", JsString "<div>Test content</div>");
                   ("text", JsString "Test content");
                   ("hasMalformedHTML", JsBool false) ]);
|}.

(** A session that discovers twenty links and serves every page. *)
Definition sample_page : Page := {|
  setDefaultTimeout := fun _ _ => Ok tt;
  goto := fun _ _ => Ok tt;
  waitForSelector := fun _ _ => Ok tt;
  evaluate := fun _ => Ok (map sample_link (seq 1 20));
  query := fun _ _ => Ok (Some {| contentFrame := fun _ => Ok (Some sample_frame) |});
|}.

Definition no_browser : Puppeteer :=
  {| launch := fun _ => Throw (Error "Failed to launch the browser process") |}.

(** A run in reduced mode on [sample_page], with the runtime [sample_json]. *)
Definition sample_run : Result unit * World :=
  @scrapeDocumentation sample_json (config true true) false no_browser
    (Some sample_page) empty_world.

(** ** Further observations *)

(** [s] consists of characters satisfying [p]. *)
Fixpoint every_char (p : ascii -> bool) (s : string) : bool :=
  match s with
  | EmptyString => true
  | String c s' => p c && every_char p s'
  end.

(** The characters of a hexadecimal digest: [0-9a-f]. *)
Definition is_hex_lower (c : ascii) : bool :=
  is_digit c || ((97 <=? nat_of_ascii c)%nat && (nat_of_ascii c <=? 102)%nat).

(** An accumulator of the grouping in which every page is under its own
    label. *)
Definition grouped_by_label (acc : list (string * list DocRecord)) : Prop :=
  Forall (fun e => Forall (fun doc => label_of doc = fst e) (snd e)) acc.

(** Calls to the file system. *)
Definition is_fs_call (e : Event) : bool :=
  match e with
  | EvReadFile _ | EvWriteFile _ _ | EvMkdir _ | EvRm _ => true
  | _ => false
  end.

Definition is_write (e : Event) : bool :=
  match e with EvWriteFile _ _ => true | _ => false end.

(** The pauses between attempts. *)
Definition is_delay (e : Event) : bool :=
  match e with EvSetTimeout _ => true | _ => false end.

(** The navigations and the pauses: the schedule of the attempts. *)
Definition is_schedule (e : Event) : bool := is_goto e || is_delay e.

(** The lines written on the console. *)
Definition is_console (e : Event) : bool :=
  match e with
  | EvConsoleLog _ _ | EvConsoleError _ _ => true
  | _ => false
  end.

(** The calls that start and stop a browser. *)
Definition is_lifecycle (e : Event) : bool :=
  match e with
  | EvLaunch | EvNewPage | EvSetDefaultTimeout _ | EvClose => true
  | _ => false
  end.

Definition is_close (e : Event) : bool :=
  match e with EvClose => true | _ => false end.

(** What [m] appends to the trace when run from [w]. *)
Definition added_by {A} (m : M A) (w : World) : list Event :=
  skipn (length (trace w)) (trace (snd (m w))).

(** Every run of [m] leaves alone the files outside [Q], and what the file
    system refuses. *)
Definition touches_only {A} (Q : string -> bool) (m : M A) : Prop :=
  forall w,
    write_refused (snd (m w)) = write_refused w
    /\ mkdir_refused (snd (m w)) = mkdir_refused w
    /\ rm_refused (snd (m w)) = rm_refused w
    /\ forall f, Q f = false -> files (snd (m w)) !! f = files w !! f.

(** The file system [saveToCache] leaves (it is proved to leave this,
    below). *)
Definition cache_after `{Json} (cfg : Config) (url : string) (data : JsValue)
    (w : World) : gmap string FileEntry :=
  if USE_CACHE cfg then
    match JSON_stringify data with
    | Ok (Some text) =>
        match files w !! getCacheKey cfg url with
        | Some Unreadable => files w
        | _ =>
            if write_refused w (getCacheKey cfg url) then files w
            else <[getCacheKey cfg url := FileData text]> (files w)
        end
    | _ => files w
    end
  else files w.

(** The calls [extractContent] makes on the browser session for a page that
    is not cached, in the order of the source. *)
Definition extraction_calls (cfg : Config) (url : string) : list Event :=
  [ EvGoto url;
    EvWaitForSelector (sel_iframe (SELECTORS cfg)) (Some (TIMEOUT cfg));
    EvQuery (sel_iframe (SELECTORS cfg));
    EvContentFrame;
    EvFrameWaitForSelector "body";
    EvFrameEvaluate ].

(** [{ title, content: content.html, hasMalformedHTML:
    content.hasMalformedHTML }]: the record [extractContent] builds from the
    content of the frame. *)
Definition page_record (title : string) (content : JsValue) : JsValue :=
  JsObject [ ("title", JsString title);
             ("content", get_prop content "html");
             ("hasMalformedHTML", get_prop content "hasMalformedHTML") ].

(** The [try] statement of [extractContent], reached when the cache has no
    record for the page ([extractContent] is proved to run it, below). *)
Definition fetch_content `{Json} (cfg : Config) (page : Page) (url title : string)
    : M JsValue :=
  try_catch
    (call (EvGoto url) (fun h => goto page h url) >>>
     try_catch
       (call (EvWaitForSelector (sel_iframe (SELECTORS cfg)) (Some (TIMEOUT cfg)))
             (fun h => waitForSelector page h (sel_iframe (SELECTORS cfg))))
       (fun error => throw (Error ("Timeout waiting for iframe: " +:+ message error))) >>>
     frameHandle <~ call (EvQuery (sel_iframe (SELECTORS cfg)))
                      (fun h => query page h (sel_iframe (SELECTORS cfg))) ;;
     match frameHandle with
     | None => throw (Error "No iframe found")
     | Some handle =>
         frame <~ call EvContentFrame (contentFrame handle) ;;
         match frame with
         | None => throw (Error "Failed to get iframe content")
         | Some frame =>
             call (EvFrameWaitForSelector "body")
                  (fun h => frame_waitForSelector frame h "body") >>>
             content <~ extractFrameContent frame ;;
             if negb (truthy content) || truthy (get_prop content "error") then
               msg <~ lift (if truthy (get_prop content "error")
                            then toStr (get_prop content "error")
                            else Ok "No content found") ;;
               throw (Error msg)
             else
               saveToCache cfg url (page_record title content) >>>
               ret (page_record title content)
         end
     end)
    (fun error =>
       log_error ("Failed to extract content from " +:+ url +:+ ":") [ArgError error] >>>
       throw error).

(** The files a run may change: those of the cache directory and the output
    file. *)
Definition cache_or_output (cfg : Config) (f : string) : bool :=
  under (CACHE_DIR cfg) f || String.eqb f (outputPath cfg).

(** ** Further functions evaluated in the page *)

(** The classes [processCodeBlocks] writes: [inline], and [prettyprint
    lang-] followed by a non-empty word. *)
Definition normal_class (cls : string) : Prop :=
  cls = "inline"
  \/ exists language,
       cls = "prettyprint lang-" +:+ language
       /\ language <> EmptyString /\ all_word language = true.


(** [s.split(sep)] for a separator of one character. *)
Fixpoint split (sep : ascii) (s : string) : list string :=
  match s with
  | EmptyString => [EmptyString]
  | String c s' =>
      if Ascii.eqb c sep then EmptyString :: split sep s'
      else match split sep s' with
           | piece :: rest => String c piece :: rest
           | [] => [String c EmptyString]
           end
  end.

(** [link.getAttribute('href').split('#')[1] || link.getAttribute('href')]:
    the [path] of a link record, from the [href] attribute. *)
Definition link_path_of (href_attribute : string) : string :=
  match split "#" href_attribute !! 1%nat with
  | Some piece => if String.eqb piece EmptyString then href_attribute else piece
  | None => href_attribute
  end.

(** An element matched by [content.querySelectorAll('img, a')], with what
    its properties [src] and [href] yield ([None] for [undefined]). *)
Record UrlElement := {
  el_src : option string;
  el_href : option string;
}.

(** [if (v?.startsWith('/')) v = `${config.BASE_URL}${v}`] *)
Definition prefix_relative (cfg : Config) (v : option string) : option string :=
  match v with
  | Some s => if startsWith s "/" then Some (BASE_URL cfg +:+ s) else Some s
  | None => None
  end.

(** The [forEach] of [fixRelativePaths], over the matched elements. *)
Definition fixRelativePaths (cfg : Config) (matched : list UrlElement) : list UrlElement :=
  map (fun el => {| el_src := prefix_relative cfg (el_src el);
                    el_href := prefix_relative cfg (el_href el) |})
      matched.

(** ** Further sample environments *)

(** The configuration after a bump of the cache version. *)
Definition config_v2 : Config := {|
  DEV_MODE := false;
  DEV_PAGE_LIMIT := 10;
  BASE_URL := BASE_URL (config false true);
  DOCS_URL := DOCS_URL (config false true);
  TIMEOUT := TIMEOUT (config false true);
  OUTPUT_DIR := OUTPUT_DIR (config false true);
  CACHE_DIR := CACHE_DIR (config false true);
  USE_CACHE := true;
  CACHE_VERSION := "2";
  SELECTORS := SELECTORS (config false true);
|}.

(** A session whose first navigation fails and whose later ones succeed. *)
Definition recovering_page : Page := {|
  setDefaultTimeout := fun _ _ => Ok tt;
  goto := fun history _ =>
    match history with
    | [] => Throw (Error "Navigation timeout of 30000 ms exceeded")
    | _ => Ok tt
    end;
  waitForSelector := fun _ _ => Ok tt;
  evaluate := fun _ => Ok [sample_link 1];
  query := fun _ _ => Ok None;
|}.

(** A session on which no [iframe] ever appears. *)
Definition timeout_page : Page := {|
  setDefaultTimeout := fun _ _ => Ok tt;
  goto := fun _ _ => Ok tt;
  waitForSelector := fun _ _ => Throw (Error "timeout");
  evaluate := fun _ => Ok [];
  query := fun _ _ => Throw (Error "Should not be called");
|}.

(** A browser that opens [sample_page], and one that cannot open a page. *)
Definition sample_browser : Browser :=
  {| newPage := fun _ => Ok sample_page; close := fun _ => Ok tt |}.

Definition pageless_browser : Browser :=
  {| newPage := fun _ => Throw (Error "Protocol error (Target.createTarget)");
     close := fun _ => Ok tt |}.

Definition sample_puppeteer : Puppeteer := {| launch := fun _ => Ok sample_browser |}.

Definition pageless_puppeteer : Puppeteer := {| launch := fun _ => Ok pageless_browser |}.

(** A file system that refuses every write. *)
Definition read_only_world : World := {|
  files := ∅;
  write_refused := fun _ => true;
  mkdir_refused := fun _ => false;
  rm_refused := fun _ => false;
  trace := [];
|}.

(** Three pages in two sections. *)
Definition sample_documentation : list DocRecord :=
  [ {| title := "Doc1"; content := JsString "test"; section := "Section1" |};
    {| title := "Doc2"; content := JsString "test"; section := "Section1" |};
    {| title := "Doc3"; content := JsString "test"; section := "Section2" |} ].

(** The record extracted from the first page that [sample_page] serves. *)
Definition sample_record : JsValue :=
  JsObject [ ("title", JsString "Page 1");
             ("content", JsString "<div>Test content</div>");
             ("hasMalformedHTML", JsBool false) ].
(** * Properties *)

(** ** Strings *)

Lemma append_cons (c : ascii) (s r : string) : String c s +:+ r = String c (s +:+ r).
Proof. reflexivity. Qed.

Lemma append_nil_l (r : string) : EmptyString +:+ r = r.
Proof. reflexivity. Qed.

Lemma startsWith_spec (s p : string) :
  startsWith s p = true <-> exists r, s = p +:+ r.
Proof.
  revert s; induction p as [|a p IH]; intros s; simpl.
  - split; [intros _; exists s; reflexivity | reflexivity].
  - destruct s as [|b s].
    + split; [discriminate | intros [r Hr]; discriminate].
    + destruct (Ascii.eqb_spec a b) as [->|Hne].
      * rewrite IH. split; intros [r Hr]; exists r; rewrite append_cons in *; congruence.
      * split; [discriminate | intros [r Hr]; rewrite append_cons in Hr; congruence].
Qed.

Lemma includes_spec (s p : string) :
  includes s p = true <-> occurs_in p s.
Proof.
  unfold occurs_in. induction s as [|c s IH]; simpl.
  - rewrite orb_false_r, startsWith_spec. split.
    + intros [r Hr]. exists EmptyString, r. exact Hr.
    + intros [pre [post Hs]]. destruct pre; [eauto | discriminate].
  - rewrite orb_true_iff, startsWith_spec, IH. split.
    + intros [[r Hr] | [pre [post Hs]]].
      * exists EmptyString, r. exact Hr.
      * exists (String c pre), post. rewrite append_cons. congruence.
    + intros [pre [post Hs]]. destruct pre as [|c' pre].
      * left. eauto.
      * right. exists pre, post. rewrite append_cons in Hs. congruence.
Qed.

Lemma includes_false (s p : string) :
  includes s p = false <-> ~ occurs_in p s.
Proof.
  rewrite <- includes_spec. destruct (includes s p); split; congruence.
Qed.

Lemma append_assoc (a b c : string) : (a +:+ b) +:+ c = a +:+ (b +:+ c).
Proof.
  induction a as [|x a IH]; [reflexivity |].
  rewrite !append_cons, IH. reflexivity.
Qed.

(** ** Lists *)

Lemma filter_none {A} (f : A -> bool) (l : list A) :
  (forall x, In x l -> f x = false) -> List.filter f l = [].
Proof.
  induction l as [|x l IH]; simpl; intros Hf; [reflexivity |].
  rewrite (Hf x (or_introl eq_refl)). apply IH. intros y Hy. apply Hf. right. exact Hy.
Qed.

Lemma filter_Forall_false {A} (f : A -> bool) (l : list A) :
  Forall (fun x => f x = false) l -> List.filter f l = [].
Proof.
  induction 1 as [|x l Hx _ IH]; simpl; [reflexivity |]. rewrite Hx. exact IH.
Qed.

(** ** Malformed-HTML detection *)

(** C6. The flag [hasMalformedHTML] is true exactly when the serialised inner
    HTML contains one of the three fixed substrings; in particular it is
    true when [</div></p>] occurs and false when none of the three does. *)
Theorem malformed_flag_iff_known_substring (innerHTML : string) :
  (hasMalformedHTML innerHTML = true <->
   exists pattern, In pattern ["</div></p>"; "<p></div>"; "<div></p>"]
                   /\ occurs_in pattern innerHTML)
  /\ (occurs_in "</div></p>" innerHTML -> hasMalformedHTML innerHTML = true)
  /\ ((forall pattern, In pattern malformedPatterns -> ~ occurs_in pattern innerHTML) ->
      hasMalformedHTML innerHTML = false).
Proof.
  assert (Hiff : hasMalformedHTML innerHTML = true <->
                 exists pattern, In pattern malformedPatterns
                                 /\ occurs_in pattern innerHTML).
  { unfold hasMalformedHTML. rewrite existsb_exists.
    split; intros [p [Hin Hp]]; exists p; split; auto; apply includes_spec; auto. }
  split; [exact Hiff | split].
  - intros Hocc. apply Hiff. exists "</div></p>". split; [left; reflexivity | exact Hocc].
  - intros Hnone. apply not_true_is_false. intros E.
    apply Hiff in E. destruct E as [p [Hin Hp]]. exact (Hnone p Hin Hp).
Qed.

Lemma malformed_flag_iff_known_substring_witness :
  occurs_in "</div></p>" "<div>Test</div></p>"
  /\ hasMalformedHTML "<div>Test</div></p>" = true.
Proof.
  assert (Hocc : occurs_in "</div></p>" "<div>Test</div></p>").
  { exists "<div>Test", EmptyString. reflexivity. }
  split; [exact Hocc |].
  exact (proj1 (proj2 (malformed_flag_iff_known_substring "<div>Test</div></p>")) Hocc).
Defined.

(** ** The assembled document *)

(** C9. Assembling the empty sequence is not an error: the document holds
    the element with id [panel], closed before its sibling with id [viewer]
    opens, an empty table of contents, an empty viewer and no page
    wrapper. *)
Theorem generateHTML_empty (dev_mode use_cache : bool) :
  exists html,
    generateHTML (config dev_mode use_cache) [] = Ok html
    /\ includes html (cat ["<div id="; dq; "panel"; dq; ">"]) = true
    /\ includes html
         (cat ["    </div>"; nl;
               "    <div id="; dq; "viewer"; dq; ">"; nl;
               "      "; nl;
               "    </div>"]) = true
    /\ includes html
         (cat ["<div id="; dq; "content"; dq; ">"; nl;
               "          "; nl;
               "        </div>"]) = true
    /\ viewer_wrappers [] = []
    /\ generateContent [] = Ok EmptyString
    /\ generateTableOfContents [] = Ok EmptyString
    /\ includes html (cat ["class="; dq; "manual"; dq]) = false.
Proof.
  eexists. split; [reflexivity |].
  destruct dev_mode, use_cache; vm_compute; repeat split.
Qed.

(** ** The table of contents and the viewer *)


Lemma insert_by_index_perm {V} (n : N) (kv : string * V) l :
  Permutation (insert_by_index n kv l) ((n, kv) :: l).
Proof.
  induction l as [|[m kv'] l IH]; simpl; [reflexivity |].
  destruct (n <=? m)%N; [reflexivity |].
  rewrite IH. apply perm_swap.
Qed.

Lemma index_entries_perm {V} (o : list (string * V)) :
  Permutation (map snd (index_entries o)) (List.filter (fun kv => negb (is_named kv)) o).
Proof.
  induction o as [|kv o IH]; simpl; [reflexivity |].
  unfold is_named at 1. destruct (array_index (fst kv)) as [n|]; simpl; [| exact IH].
  rewrite insert_by_index_perm. simpl. constructor. exact IH.
Qed.

Lemma filter_split_perm {A} (f : A -> bool) (l : list A) :
  Permutation (List.filter (fun x => negb (f x)) l ++ List.filter f l) l.
Proof.
  induction l as [|x l IH]; simpl; [reflexivity |].
  destruct (f x); simpl.
  - rewrite <- Permutation_middle. constructor. exact IH.
  - constructor. exact IH.
Qed.

Lemma Object_entries_perm {V} (o : list (string * V)) :
  Permutation (Object_entries o) o.
Proof.
  unfold Object_entries. rewrite index_entries_perm. apply filter_split_perm.
Qed.

Lemma assoc_set_docs (k : string) (docs : list DocRecord) (doc : DocRecord) acc :
  assoc k acc = Some docs ->
  Permutation (flat_map snd (assoc_set k (docs ++ [doc]) acc)) (doc :: flat_map snd acc).
Proof.
  induction acc as [|[k' v'] acc IH]; simpl; [discriminate |].
  destruct (String.eqb k k').
  - intros [= ->]. simpl. rewrite <- app_assoc. simpl.
    symmetry. apply Permutation_middle.
  - intros Hk. simpl. rewrite (IH Hk).
    change (doc :: flat_map snd acc) with ([doc] ++ flat_map snd acc).
    change (doc :: v' ++ flat_map snd acc) with ([doc] ++ v' ++ flat_map snd acc).
    rewrite !app_assoc. apply Permutation_app_tail. apply Permutation_app_comm.
Qed.

Lemma group_step_docs acc doc acc' :
  group_step acc doc = Ok acc' ->
  Permutation (flat_map snd acc') (doc :: flat_map snd acc).
Proof.
  unfold group_step.
  destruct (assoc (section_or_default (section doc)) acc) as [docs|] eqn:Hk.
  - intros [= <-]. apply assoc_set_docs. exact Hk.
  - destruct (inherited _); [discriminate |]. intros [= <-].
    rewrite flat_map_app. simpl. rewrite Permutation_app_comm. reflexivity.
Qed.

Lemma reduce_group_docs docs acc acc' :
  reduce group_step docs acc = Ok acc' ->
  Permutation (flat_map snd acc') (flat_map snd acc ++ docs).
Proof.
  revert acc; induction docs as [|d docs IH]; intros acc; simpl.
  - intros [= <-]. rewrite app_nil_r. reflexivity.
  - destruct (group_step acc d) as [acc1|e] eqn:Hs; simpl; [| discriminate].
    intros Hr. rewrite (IH _ Hr). rewrite (group_step_docs _ _ _ Hs).
    simpl. apply Permutation_middle.
Qed.

Lemma toc_anchors_map entries :
  toc_anchors (map (fun e : string * list DocRecord => (fst e, map toc_item (snd e))) entries)
  = map (fun doc => encodeURIComponent (title doc)) (flat_map snd entries).
Proof.
  unfold toc_anchors. induction entries as [|e entries IH]; simpl; [reflexivity |].
  rewrite IH, map_app, map_map. reflexivity.
Qed.

(** Whenever a table of contents is produced, its anchor targets are those
    of the viewer's wrappers, each as many times. *)
Lemma toc_anchors_match_viewer_ids documentation sections :
  toc_sections documentation = Ok sections ->
  Permutation (toc_anchors sections) (viewer_ids documentation).
Proof.
  unfold toc_sections, group_by_section.
  destruct (reduce group_step documentation []) as [acc|e] eqn:Hr; simpl; [| discriminate].
  intros [= <-]. rewrite toc_anchors_map.
  unfold viewer_ids, viewer_wrappers. rewrite map_map. simpl.
  apply Permutation_map.
  rewrite Object_entries_perm. rewrite (reduce_group_docs _ _ _ Hr). reflexivity.
Qed.

Lemma assoc_Some_In {V} (k : string) (acc : list (string * V)) v :
  assoc k acc = Some v -> In (k, v) acc.
Proof.
  induction acc as [|[k' v'] acc IH]; simpl; [discriminate |].
  destruct (String.eqb_spec k k') as [->|Hne].
  - intros [= ->]. left. reflexivity.
  - intros Hk. right. exact (IH Hk).
Qed.







(** *** First-seen order, for labels that are ordinary property names *)


Lemma first_seen_app_one (l : list string) (x : string) :
  first_seen (l ++ [x])
  = if existsb (String.eqb x) l then first_seen l else first_seen l ++ [x].
Proof.
  induction l as [|s l IH]; simpl; [reflexivity |].
  rewrite IH. destruct (existsb (String.eqb x) l).
  - rewrite orb_true_r. reflexivity.
  - rewrite orb_false_r. rewrite List.filter_app. simpl.
    destruct (String.eqb x s); simpl; [rewrite app_nil_r |]; reflexivity.
Qed.

Lemma first_seen_In (l : list string) (x : string) :
  In x (first_seen l) <-> In x l.
Proof.
  induction l as [|s l IH]; simpl; [tauto |].
  rewrite List.filter_In, IH, negb_true_iff.
  destruct (String.eqb_spec x s) as [->|Hne]; split; intros; tauto.
Qed.

Lemma first_seen_NoDup (l : list string) : List.NoDup (first_seen l).
Proof.
  induction l as [|s l IH]; simpl; constructor.
  - rewrite List.filter_In, String.eqb_refl. intros [_ H]. discriminate.
  - apply List.NoDup_filter. exact IH.
Qed.

Lemma existsb_eqb_In (x : string) (l : list string) :
  existsb (String.eqb x) l = true <-> In x l.
Proof.
  rewrite existsb_exists. split.
  - intros [y [Hy Hxy]]. apply String.eqb_eq in Hxy. congruence.
  - intros Hx. exists x. split; [exact Hx | apply String.eqb_refl].
Qed.

Lemma assoc_map_keys {V} (g : string -> V) (keys : list string) (k : string) :
  assoc k (map (fun s => (s, g s)) keys)
  = if existsb (String.eqb k) keys then Some (g k) else None.
Proof.
  induction keys as [|s keys IH]; simpl; [reflexivity |].
  destruct (String.eqb_spec k s) as [->|Hne]; simpl; [reflexivity | exact IH].
Qed.

Lemma assoc_set_map_keys {V} (g : string -> V) (keys : list string) (k : string) (v : V) :
  List.NoDup keys ->
  assoc_set k v (map (fun s => (s, g s)) keys)
  = map (fun s => (s, if String.eqb k s then v else g s)) keys.
Proof.
  induction keys as [|s keys IH]; simpl; [reflexivity |].
  intros Hnd. inversion Hnd as [|s' keys' Hnotin Hnd']; subst.
  destruct (String.eqb_spec k s) as [->|Hne].
  - f_equal. apply map_ext_in. intros s' Hs'.
    destruct (String.eqb_spec s s') as [->|_]; [contradiction | reflexivity].
  - f_equal. apply IH. exact Hnd'.
Qed.

Lemma grouped_first_seen_snoc (pre : list DocRecord) (doc : DocRecord) :
  grouped_first_seen (pre ++ [doc])
  = if existsb (String.eqb (label_of doc)) (map label_of pre)
    then map (fun s => (s, if String.eqb (label_of doc) s
                           then List.filter (fun d => String.eqb (label_of d) (label_of doc)) pre
                                ++ [doc]
                           else List.filter (fun d => String.eqb (label_of d) s) pre))
           (first_seen (map label_of pre))
    else grouped_first_seen pre ++ [(label_of doc, [doc])].
Proof.
  unfold grouped_first_seen. rewrite map_app. simpl. rewrite first_seen_app_one.
  destruct (existsb (String.eqb (label_of doc)) (map label_of pre)) eqn:Hseen.
  - apply map_ext. intros s. rewrite List.filter_app. simpl.
    destruct (String.eqb_spec (label_of doc) s) as [<-|Hne];
      [reflexivity | rewrite app_nil_r; reflexivity].
  - rewrite map_app. simpl. f_equal.
    + apply map_ext_in. intros s Hs. rewrite List.filter_app. simpl.
      destruct (String.eqb_spec (label_of doc) s) as [<-|Hne];
        [| rewrite app_nil_r; reflexivity].
      apply (proj1 (first_seen_In _ _)) in Hs.
      apply (proj2 (existsb_eqb_In _ _)) in Hs. congruence.
    + rewrite List.filter_app. simpl. rewrite String.eqb_refl.
      replace (List.filter (fun d => String.eqb (label_of d) (label_of doc)) pre)
        with (@nil DocRecord); [reflexivity |].
      symmetry. apply filter_none. intros d Hd.
      apply not_true_is_false. intros Heq. apply String.eqb_eq in Heq.
      assert (Hin : In (label_of doc) (map label_of pre))
        by (rewrite <- Heq; apply in_map; exact Hd).
      apply (proj2 (existsb_eqb_In _ _)) in Hin. congruence.
Qed.

Lemma group_step_first_seen (pre : list DocRecord) (doc : DocRecord) :
  inherited (label_of doc) = false ->
  group_step (grouped_first_seen pre) doc = Ok (grouped_first_seen (pre ++ [doc])).
Proof.
  intros Hinh. rewrite grouped_first_seen_snoc.
  unfold group_step. fold (label_of doc). unfold grouped_first_seen at 1 2.
  rewrite assoc_map_keys.
  replace (existsb (String.eqb (label_of doc)) (first_seen (map label_of pre)))
    with (existsb (String.eqb (label_of doc)) (map label_of pre)).
  2:{ destruct (existsb (String.eqb (label_of doc)) (map label_of pre)) eqn:E1;
      destruct (existsb (String.eqb (label_of doc)) (first_seen (map label_of pre))) eqn:E2;
      try reflexivity.
      - apply (proj1 (existsb_eqb_In _ _)) in E1.
        apply (proj2 (first_seen_In _ _)) in E1.
        apply (proj2 (existsb_eqb_In _ _)) in E1. congruence.
      - apply (proj1 (existsb_eqb_In _ _)) in E2.
        apply (proj1 (first_seen_In _ _)) in E2.
        apply (proj2 (existsb_eqb_In _ _)) in E2. congruence. }
  destruct (existsb (String.eqb (label_of doc)) (map label_of pre)).
  - f_equal. apply assoc_set_map_keys. apply first_seen_NoDup.
  - rewrite Hinh. reflexivity.
Qed.

Lemma reduce_group_first_seen (docs pre : list DocRecord) :
  Forall (fun doc => inherited (label_of doc) = false) docs ->
  reduce group_step docs (grouped_first_seen pre) = Ok (grouped_first_seen (pre ++ docs)).
Proof.
  revert pre; induction docs as [|d docs IH]; intros pre HF; simpl.
  - rewrite app_nil_r. reflexivity.
  - inversion HF as [|d' docs' Hd HF']; subst.
    rewrite (group_step_first_seen _ _ Hd). simpl.
    rewrite (IH _ HF'). rewrite <- app_assoc. reflexivity.
Qed.

Lemma index_entries_named {V} (o : list (string * V)) :
  Forall (fun e => array_index (fst e) = None) o -> index_entries o = [].
Proof.
  induction 1 as [|e o He _ IH]; simpl; [reflexivity |]. rewrite He. exact IH.
Qed.

Lemma Object_entries_named {V} (o : list (string * V)) :
  Forall (fun e => array_index (fst e) = None) o -> Object_entries o = o.
Proof.
  intros HF. unfold Object_entries. rewrite (index_entries_named _ HF). simpl.
  induction HF as [|e o He _ IH]; simpl; [reflexivity |].
  unfold is_named at 1. rewrite He. f_equal. exact IH.
Qed.

(** When no section label is an array index or the name of a property of
    [Object.prototype], the table of contents lists the sections in
    first-seen order, each with its records in input order. *)
Lemma toc_sections_first_seen (documentation : list DocRecord) :
  Forall (fun doc => inherited (label_of doc) = false
                     /\ array_index (label_of doc) = None) documentation ->
  toc_sections documentation
  = Ok (map (fun e => (fst e, map toc_item (snd e))) (grouped_first_seen documentation)).
Proof.
  intros HF. unfold toc_sections, group_by_section.
  change (@nil (string * list DocRecord)) with (grouped_first_seen []).
  rewrite reduce_group_first_seen.
  2:{ eapply List.Forall_impl; [| exact HF]. simpl. tauto. }
  simpl. rewrite Object_entries_named; [reflexivity |].
  unfold grouped_first_seen. rewrite List.Forall_map. simpl.
  rewrite List.Forall_forall. intros s Hs. apply (proj1 (first_seen_In _ _)) in Hs.
  apply in_map_iff in Hs. destruct Hs as [d [<- Hd]].
  rewrite List.Forall_forall in HF. apply HF. exact Hd.
Qed.

(** C1. On the one-record input whose section label is [constructor],
    [generateTableOfContents] raises a [TypeError] and emits no anchor,
    while [generateContent] emits the wrapper with id [Intro]: the two sets
    of targets differ on this input. *)
Theorem toc_raises_on_prototype_label :
  let documentation :=
    [ {| title := "Intro"; content := JsString "<p>x</p>"; section := "constructor" |} ] in
  generateTableOfContents documentation
  = Throw (TypeError "acc[section].push is not a function")
  /\ toc_sections documentation
     = Throw (TypeError "acc[section].push is not a function")
  /\ viewer_ids documentation = ["Intro"]
  /\ is_ok (generateContent documentation) = true.
Proof. vm_compute. repeat split. Qed.

(** C2. On four records whose section labels are, in input order,
    [Guides], [2], [Guides], [1], the table of contents renders the sections
    in the order [1], [2], [Guides], whereas their first-seen order is
    [Guides], [2], [1]. *)
Theorem toc_lists_index_labels_first :
  let doc t s := {| title := t; content := JsString "<p>x</p>"; section := s |} in
  let documentation :=
    [ doc "Getting started" "Guides"; doc "Release 2" "2";
      doc "Tips" "Guides"; doc "Release 1" "1" ] in
  rbind (toc_sections documentation) (fun sections => Ok (toc_headings sections))
  = Ok ["1"; "2"; "Guides"]
  /\ first_seen (map label_of documentation) = ["Guides"; "2"; "1"].
Proof. vm_compute. split; reflexivity. Qed.

(** ** The cache store *)

Section CacheFacts.

Context `{Json}.

Lemma getFromCache_spec (cfg : Config) (url : string) (w : World) :
  exists added,
    getFromCache cfg url w
    = (Ok (cache_value cfg url (files w)),
       {| files := files w; write_refused := write_refused w;
          mkdir_refused := mkdir_refused w; rm_refused := rm_refused w;
          trace := trace w ++ added |})
    /\ Forall (fun e => is_browser_call e = false /\ is_section_log e = false
                        /\ forall f, is_write_to f e = false) added.
Proof.
  unfold getFromCache, cache_value.
  destruct (USE_CACHE cfg); simpl.
  - unfold try_catch, bind, fs_readFile, log_debug, lift, call, ret, record; simpl.
    destruct (files w !! getCacheKey cfg url) as [[data|]|];
      destruct (DEV_MODE cfg); simpl;
      try destruct (JSON_parse data); simpl;
      rewrite <- ?app_assoc; simpl;
      eexists; (split; [reflexivity |]); repeat constructor.
  - exists []. unfold ret. destruct w; simpl. rewrite app_nil_r.
    split; [reflexivity | constructor].
Qed.

(** C8. [getFromCache] yields [null], and does not raise, when the cache
    file is missing, when it cannot be read, and when its text is not
    well-formed JSON; with caching disabled it yields [null] whatever the
    file system holds, without touching it. *)
Theorem getFromCache_absent (cfg : Config) (url : string) (w : World) :
  (USE_CACHE cfg = false -> getFromCache cfg url w = (Ok JsNull, w))
  /\ (files w !! getCacheKey cfg url = None ->
      fst (getFromCache cfg url w) = Ok JsNull)
  /\ (files w !! getCacheKey cfg url = Some Unreadable ->
      fst (getFromCache cfg url w) = Ok JsNull)
  /\ (forall data e,
        files w !! getCacheKey cfg url = Some (FileData data) ->
        JSON_parse data = Throw e ->
        fst (getFromCache cfg url w) = Ok JsNull)
  /\ (exists v, fst (getFromCache cfg url w) = Ok v).
Proof.
  split.
  { intros Hoff. unfold getFromCache. rewrite Hoff. reflexivity. }
  destruct (getFromCache_spec cfg url w) as [added [Hget _]].
  rewrite Hget. simpl. unfold cache_value.
  split; [| split; [| split]].
  - intros ->. destruct (USE_CACHE cfg); reflexivity.
  - intros ->. destruct (USE_CACHE cfg); reflexivity.
  - intros data e -> ->. destruct (USE_CACHE cfg); reflexivity.
  - eauto.
Qed.


(** C10. With caching enabled, when [saveToCache(url, page)] serialises
    [page] to a text and writes it without failure, the next
    [getFromCache(url)] yields the value [JSON.parse] gives for that text
    ([null] if it were to reject it); and whatever value [JSON.parse] gives
    for the text of the cache file is returned as it is, of any shape. *)
Theorem getFromCache_after_saveToCache (cfg : Config) (url : string)
    (page : JsValue) (w : World) (text : string) :
  USE_CACHE cfg = true ->
  JSON_stringify page = Ok (Some text) ->
  fst (fs_writeFile (getCacheKey cfg url) (Some text) w) = Ok tt ->
  fst (getFromCache cfg url (snd (saveToCache cfg url page w)))
  = Ok (match JSON_parse text with Ok v => v | Throw _ => JsNull end)
  /\ (forall (w' : World) (data : string) (v : JsValue),
        files w' !! getCacheKey cfg url = Some (FileData data) ->
        JSON_parse data = Ok v ->
        fst (getFromCache cfg url w') = Ok v).
Proof.
  intros Hon Hjson Hwrite. split.
  - destruct (getFromCache_spec cfg url (snd (saveToCache cfg url page w)))
      as [added [Hget _]].
    rewrite Hget. simpl. f_equal.
    unfold cache_value. rewrite Hon.
    unfold saveToCache. rewrite Hon. simpl.
    unfold try_catch, bind, lift. rewrite Hjson.
    unfold fs_writeFile in Hwrite |- *.
    destruct (files w !! getCacheKey cfg url) as [[old|]|] eqn:Hold;
      simpl in Hwrite |- *; try discriminate;
      destruct (write_refused w (getCacheKey cfg url)); simpl in Hwrite |- *;
      try discriminate;
      unfold log_debug, call, ret; destruct (DEV_MODE cfg); simpl;
      rewrite lookup_insert_eq; reflexivity.
  - intros w' data v Hfile Hparse.
    destruct (getFromCache_spec cfg url w') as [added [Hget _]].
    rewrite Hget. simpl. unfold cache_value. rewrite Hon, Hfile, Hparse. reflexivity.
Qed.

Lemma extractContent_hit_run (cfg : Config) (page : Page) (url title : string)
    (w : World) (cached : JsValue) :
  fst (getFromCache cfg url w) = Ok cached ->
  truthy cached = true ->
  is_ok (toStr (get_prop cached "title")) = true ->
  exists added,
    extractContent cfg page url title w
    = (Ok cached,
       {| files := files w; write_refused := write_refused w;
          mkdir_refused := mkdir_refused w; rm_refused := rm_refused w;
          trace := trace w ++ added |})
    /\ Forall (fun e => is_browser_call e = false) added
    /\ List.filter is_section_log added = [extraction_started title]
    /\ forall f, List.filter (is_write_to f) added = [].
Proof.
  intros Hhit Htruthy Htitle.
  destruct (getFromCache_spec cfg url w) as [added0 [Hget0 _]].
  rewrite Hget0 in Hhit. simpl in Hhit. injection Hhit as Hcached.
  unfold extractContent, bind.
  unfold log_section at 1, call at 1.
  destruct (getFromCache_spec cfg url
              (record (EvConsoleLog (nl +:+ "=== " +:+ ("Extracting Content: " +:+ title) +:+ " ===") []) w))
    as [added [Hget Hadded]].
  rewrite Hget. simpl. rewrite Hcached, Htruthy.
  unfold lift. destruct (toStr (get_prop cached "title")) as [t|e]; [| discriminate].
  unfold log_info, call, ret, record. simpl.
  rewrite <- !app_assoc. simpl.
  eexists. split; [reflexivity |]. split; [| split].
  - constructor; [reflexivity |]. apply Forall_app. split.
    + eapply List.Forall_impl; [| exact Hadded]. simpl. tauto.
    + repeat constructor.
  - simpl. rewrite List.filter_app. simpl. rewrite app_nil_r.
    rewrite (filter_Forall_false is_section_log added); [reflexivity |].
    eapply List.Forall_impl; [| exact Hadded]. simpl. tauto.
  - intros f. simpl. rewrite List.filter_app. simpl. rewrite app_nil_r.
    apply filter_Forall_false.
    eapply List.Forall_impl; [| exact Hadded]. simpl. intros e He. apply He.
Qed.

(** C3. When the cache lookup for [url] yields a stored record (a truthy
    value whose [title] converts to a string), [extractContent] returns
    that record and makes no call on the browser session: no navigation, no
    wait for a selector, no evaluation. *)
Theorem extractContent_cache_hit (cfg : Config) (page : Page) (url title : string)
    (w : World) (cached : JsValue) :
  fst (getFromCache cfg url w) = Ok cached ->
  truthy cached = true ->
  is_ok (toStr (get_prop cached "title")) = true ->
  fst (extractContent cfg page url title w) = Ok cached
  /\ List.filter is_browser_call (trace (snd (extractContent cfg page url title w)))
     = List.filter is_browser_call (trace w).
Proof.
  intros Hhit Htruthy Htitle.
  destruct (extractContent_hit_run cfg page url title w cached Hhit Htruthy Htitle)
    as [added [Hrun [Hadded _]]].
  rewrite Hrun. simpl. split; [reflexivity |].
  rewrite List.filter_app, (filter_Forall_false _ _ Hadded). apply app_nil_r.
Qed.

End CacheFacts.

(** ** Link discovery *)

Section LinkFacts.

(** One turn of the [while] loop of [extractLinks]. *)
Lemma extractLinks_loop_turn (cfg : Config) (page : Page) (attempts : nat) (w : World) :
  extractLinks_loop cfg page attempts w
  = if lt_dec attempts maxRetries then
      match discover cfg page w with
      | (Ok links, w1) => (Ok (Some links), attempts, w1)
      | (Throw error, w1) =>
          if includes (message error) "429" then
            (Throw (Error "Rate limit exceeded"), attempts,
             snd (log_error "Rate limit exceeded" [] w1))
          else if Nat.eq_dec (S attempts) maxRetries then
            (Throw error, S attempts,
             snd (log_error "Failed to extract links:" [ArgError error] w1))
          else
            extractLinks_loop cfg page (S attempts)
              (snd (call (EvSetTimeout 1000) (fun _ => Ok tt) w1))
      end
    else (Ok None, attempts, w).
Proof.
  simp extractLinks_loop.
  destruct (lt_dec attempts maxRetries); simp extractLinks_loop; [| reflexivity].
  destruct (discover cfg page w) as [[links|error] w1]; simp extractLinks_loop;
    [reflexivity |].
  destruct (includes (message error) "429"); simp extractLinks_loop; [reflexivity |].
  destruct (Nat.eq_dec (S attempts) maxRetries); simp extractLinks_loop; reflexivity.
Qed.

(** An attempt starts with one navigation and makes no other. *)
Lemma discover_trace (cfg : Config) (page : Page) (w : World) :
  exists added,
    trace (snd (discover cfg page w)) = trace w ++ EvGoto (DOCS_URL cfg) :: added
    /\ Forall (fun e => is_goto e = false) added.
Proof.
  unfold discover, bind, call, log_info, ret, record. simpl.
  destruct (goto page (trace w) (DOCS_URL cfg)); simpl.
  2:{ exists []. split; [reflexivity | constructor]. }
  destruct (waitForSelector page _ _); simpl.
  2:{ eexists. rewrite <- app_assoc. simpl. split; [reflexivity | repeat constructor]. }
  destruct (evaluate page _); simpl;
    eexists; rewrite <- !app_assoc; simpl; (split; [reflexivity | repeat constructor]).
Qed.

Lemma discover_navigations (cfg : Config) (page : Page) (w : World) :
  navigations (snd (discover cfg page w)) = S (navigations w).
Proof.
  destruct (discover_trace cfg page w) as [added [Htr Hadd]].
  unfold navigations. rewrite Htr, List.filter_app. simpl.
  rewrite (filter_Forall_false _ _ Hadd), length_app. simpl. lia.
Qed.

(** C4, as the code has it.  In any turn of the loop, an attempt that fails
    with a message containing [429] makes [extractLinks] fail at once with
    the error [Rate limit exceeded]: nothing follows the failed attempt but
    one line on the console, and the retry counter keeps the value it had
    when the attempt began (its initial value 0 when the rate-limited
    attempt is the first).  An attempt that fails otherwise advances the
    counter; the second such failure is final and surfaces its own error;
    the first is followed by a delay of 1000 ms and a second attempt.  In
    all, [extractLinks] makes at most two attempts. *)
Theorem extractLinks_retry_policy (cfg : Config) (page : Page) (attempts : nat)
    (w w1 : World) (error : JsError) :
  attempts < maxRetries ->
  discover cfg page w = (Throw error, w1) ->
  (includes (message error) "429" = true ->
   extractLinks_loop cfg page attempts w
   = (Throw (Error "Rate limit exceeded"), attempts,
      record (EvConsoleError "[ERROR] Rate limit exceeded" []) w1))
  /\ (includes (message error) "429" = false ->
      (S attempts = maxRetries ->
       extractLinks_loop cfg page attempts w
       = (Throw error, maxRetries,
          record (EvConsoleError "[ERROR] Failed to extract links:" [ArgError error]) w1))
      /\ (S attempts < maxRetries ->
          extractLinks_loop cfg page attempts w
          = extractLinks_loop cfg page (S attempts) (record (EvSetTimeout 1000) w1)))
  /\ (attempts = 0 ->
      navigations (snd (extractLinks cfg page w)) <= navigations w + 2).
Proof.
  intros Hlt Hfail. split; [| split].
  - intros H429. rewrite extractLinks_loop_turn, Hfail, H429.
    destruct (lt_dec attempts maxRetries); [reflexivity | contradiction].
  - intros H429. split; intros Hn.
    + rewrite extractLinks_loop_turn, Hfail, H429.
      destruct (lt_dec attempts maxRetries); [| contradiction].
      destruct (Nat.eq_dec (S attempts) maxRetries); [| contradiction].
      rewrite <- Hn. reflexivity.
    + rewrite extractLinks_loop_turn, Hfail, H429.
      destruct (lt_dec attempts maxRetries); [| contradiction].
      destruct (Nat.eq_dec (S attempts) maxRetries); [lia | reflexivity].
  - intros ->. unfold extractLinks.
    assert (Hw1 : navigations w1 = S (navigations w)).
    { rewrite <- (discover_navigations cfg page w), Hfail. reflexivity. }
    rewrite extractLinks_loop_turn, Hfail.
    destruct (lt_dec 0 maxRetries); [| contradiction].
    destruct (includes (message error) "429").
    { simpl. unfold navigations in *. simpl. rewrite List.filter_app, length_app. simpl. lia. }
    destruct (Nat.eq_dec 1 maxRetries) as [Heq | _]; [discriminate Heq |].
    rewrite extractLinks_loop_turn.
    destruct (lt_dec 1 maxRetries) as [_ | Hn]; [| exfalso; apply Hn; unfold maxRetries; lia].
    pose proof (discover_navigations cfg page
                  (snd (call (EvSetTimeout 1000) (fun _ => Ok tt) w1))) as Hd.
    destruct (discover cfg page (snd (call (EvSetTimeout 1000) (fun _ => Ok tt) w1)))
      as [[links | e2] w2]; simpl in Hd.
    + simpl. rewrite Hd. unfold navigations in *. simpl.
      rewrite List.filter_app, length_app. simpl. lia.
    + destruct (includes (message e2) "429").
      * simpl. unfold navigations in *. simpl in *.
        rewrite !List.filter_app, !length_app in *. simpl in *. lia.
      * destruct (Nat.eq_dec 2 maxRetries) as [_ | Hn]; [| exfalso; apply Hn; reflexivity].
        simpl. unfold navigations in *. simpl in *.
        rewrite !List.filter_app, !length_app in *. simpl in *. lia.
Qed.

Lemma extractLinks_retry_policy_witness :
  extractLinks_loop (config false true) dead_page 1
    (record (EvSetTimeout 1000)
       (record (EvGoto (DOCS_URL (config false true))) empty_world))
  = (Throw (Error "Navigation timeout of 30000 ms exceeded"), 2,
     record (EvConsoleError "[ERROR] Failed to extract links:"
               [ArgError (Error "Navigation timeout of 30000 ms exceeded")])
       (record (EvGoto (DOCS_URL (config false true)))
          (record (EvSetTimeout 1000)
             (record (EvGoto (DOCS_URL (config false true))) empty_world)))).
Proof.
  refine (proj1 (proj1 (proj2 (extractLinks_retry_policy (config false true) dead_page 1
            _ _ (Error "Navigation timeout of 30000 ms exceeded") _ _)) _) _).
  - unfold maxRetries. lia.
  - reflexivity.
  - reflexivity.
  - reflexivity.
Defined.

(** C4, as stated, fails: on a session whose first navigation times out and
    whose second is answered with HTTP 429, [extractLinks] ends with the
    rate-limit error while the retry counter is 1, not its initial value
    0. *)
Lemma rate_limit_after_retry_counter_advanced :
  ~ (forall (page : Page) (w : World),
       fst (fst (extractLinks_loop (config false true) page 0 w))
       = Throw (Error "Rate limit exceeded") ->
       snd (fst (extractLinks_loop (config false true) page 0 w)) = 0).
Proof.
  intros Hclaim.
  specialize (Hclaim flaky_page empty_world).
  assert (Hrun : extractLinks_loop (config false true) flaky_page 0 empty_world
                 = (Throw (Error "Rate limit exceeded"), 1,
                    snd (fst (extractLinks_loop (config false true) flaky_page 0 empty_world),
                         snd (extractLinks_loop (config false true) flaky_page 0 empty_world)))).
  { vm_compute. reflexivity. }
  rewrite Hrun in Hclaim. simpl in Hclaim. specialize (Hclaim eq_refl). discriminate.
Qed.

End LinkFacts.


(** ** What a run appends to the trace *)

Section Frames.

Context {P : Event -> Prop}.

Lemma adds_ret {A} (a : A) : adds P (ret a).
Proof. intros w. exists []. simpl. rewrite app_nil_r. split; [reflexivity | constructor]. Qed.

Lemma adds_throw {A} (e : JsError) : adds P (@throw A e).
Proof. intros w. exists []. simpl. rewrite app_nil_r. split; [reflexivity | constructor]. Qed.

Lemma adds_lift {A} (r : Result A) : adds P (lift r).
Proof. intros w. exists []. simpl. rewrite app_nil_r. split; [reflexivity | constructor]. Qed.

Lemma adds_call {A} (e : Event) (answer : list Event -> Result A) :
  P e -> adds P (call e answer).
Proof. intros He w. exists [e]. split; [reflexivity | repeat constructor; exact He]. Qed.

Lemma adds_bind {A B} (m : M A) (k : A -> M B) :
  adds P m -> (forall a, adds P (k a)) -> adds P (bind m k).
Proof.
  intros Hm Hk w. unfold bind. destruct (Hm w) as [added1 [Ht1 Hp1]].
  destruct (m w) as [[a|e] w1]; simpl in *.
  - destruct (Hk a w1) as [added2 [Ht2 Hp2]].
    exists (added1 ++ added2). rewrite Ht2, Ht1, app_assoc.
    split; [reflexivity | apply Forall_app; auto].
  - exists added1. auto.
Qed.

Lemma adds_try_catch {A} (m : M A) (h : JsError -> M A) :
  adds P m -> (forall e, adds P (h e)) -> adds P (try_catch m h).
Proof.
  intros Hm Hh w. unfold try_catch. destruct (Hm w) as [added1 [Ht1 Hp1]].
  destruct (m w) as [[a|e] w1]; simpl in *.
  - exists added1. auto.
  - destruct (Hh e w1) as [added2 [Ht2 Hp2]].
    exists (added1 ++ added2). rewrite Ht2, Ht1, app_assoc.
    split; [reflexivity | apply Forall_app; auto].
Qed.

Lemma adds_try_finally {A} (m : M A) (c : M unit) :
  adds P m -> adds P c -> adds P (try_finally m c).
Proof.
  intros Hm Hc w. unfold try_finally. destruct (Hm w) as [added1 [Ht1 Hp1]].
  destruct (m w) as [r w1]; simpl in *.
  destruct (Hc w1) as [added2 [Ht2 Hp2]].
  exists (added1 ++ added2).
  destruct (c w1) as [[u|e] w2]; simpl in *; rewrite Ht2, Ht1, app_assoc;
    (split; [reflexivity | apply Forall_app; auto]).
Qed.

Lemma adds_if {A} (b : bool) (m1 m2 : M A) :
  adds P m1 -> adds P m2 -> adds P (if b then m1 else m2).
Proof. destruct b; auto. Qed.

Lemma adds_fs_readFile (file : string) :
  P (EvReadFile file) -> adds P (fs_readFile file).
Proof. intros He w. exists [EvReadFile file]. split; [reflexivity | repeat constructor; exact He]. Qed.

Lemma adds_fs_writeFile (file : string) (data : option string) :
  P (EvWriteFile file data) -> adds P (fs_writeFile file data).
Proof.
  intros He w. exists [EvWriteFile file data]. split; [| repeat constructor; exact He].
  unfold fs_writeFile. destruct data; [| reflexivity].
  destruct (files w !! file) as [[old|]|]; try reflexivity;
    destruct (write_refused w file); reflexivity.
Qed.

Lemma adds_fs_mkdir (dir : string) : P (EvMkdir dir) -> adds P (fs_mkdir dir).
Proof. intros He w. exists [EvMkdir dir]. split; [reflexivity | repeat constructor; exact He]. Qed.

Lemma adds_fs_rm (dir : string) : P (EvRm dir) -> adds P (fs_rm dir).
Proof.
  intros He w. exists [EvRm dir]. split; [| repeat constructor; exact He].
  unfold fs_rm. destruct (rm_refused w dir); reflexivity.
Qed.

Lemma adds_log_info (msg : string) (args : list LogArg) :
  P (EvConsoleLog ("[INFO] " +:+ msg) args) -> adds P (log_info msg args).
Proof. apply adds_call. Qed.

Lemma adds_log_error (msg : string) (args : list LogArg) :
  P (EvConsoleError ("[ERROR] " +:+ msg) args) -> adds P (log_error msg args).
Proof. apply adds_call. Qed.

Lemma adds_log_debug (cfg : Config) (msg : string) :
  P (EvConsoleLog ("[DEBUG] " +:+ msg) []) -> adds P (log_debug cfg msg).
Proof.
  intros He. unfold log_debug. destruct (DEV_MODE cfg); [apply adds_call; exact He | apply adds_ret].
Qed.

End Frames.

(** A cache key names a file of the cache directory. *)
Lemma cache_key_under (cfg : Config) (url : string) :
  under (CACHE_DIR cfg) (getCacheKey cfg url) = true.
Proof.
  unfold under, getCacheKey, path_join. apply orb_true_iff. right.
  apply startsWith_spec. eexists. rewrite append_assoc. reflexivity.
Qed.

Ltac quiet_event :=
  unfold quiet; simpl; split;
  first [ reflexivity | rewrite cache_key_under; reflexivity ].

Ltac frame :=
  repeat first
    [ apply adds_ret | apply adds_throw | apply adds_lift
    | apply adds_bind; [| intros ?]
    | apply adds_try_catch; [| intros ?]
    | apply adds_log_info | apply adds_log_error | apply adds_log_debug
    | apply adds_fs_readFile | apply adds_fs_writeFile
    | apply adds_fs_mkdir | apply adds_fs_rm
    | apply adds_call
    | apply adds_if
    | match goal with
      | |- adds _ (match ?x with _ => _ end) => destruct x
      end
    | quiet_event ].

Section PipelineFrames.

Context `{Json}.

Lemma getFromCache_quiet (cfg : Config) (url : string) :
  adds (quiet cfg) (getFromCache cfg url).
Proof. unfold getFromCache. frame. Qed.

Lemma saveToCache_quiet (cfg : Config) (url : string) (data : JsValue) :
  adds (quiet cfg) (saveToCache cfg url data).
Proof. unfold saveToCache. frame. Qed.

Lemma initializeCache_quiet (cfg : Config) (CLEAR_CACHE : bool) :
  adds (quiet cfg) (initializeCache cfg CLEAR_CACHE).
Proof. unfold initializeCache. frame. Qed.

Lemma discover_quiet (cfg : Config) (page : Page) :
  adds (quiet cfg) (discover cfg page).
Proof. unfold discover. frame. Qed.


Lemma extractLinks_loop_quiet (cfg : Config) (page : Page) (n attempts : nat) (w : World) :
  maxRetries - attempts = n ->
  exists added,
    trace (snd (extractLinks_loop cfg page attempts w)) = trace w ++ added
    /\ Forall (quiet cfg) added.
Proof.
  revert attempts w. induction n as [|n IH]; intros attempts w Hn;
    rewrite extractLinks_loop_turn;
    destruct (lt_dec attempts maxRetries) as [Hlt | Hge]; try lia;
    try (exists []; simpl; rewrite app_nil_r; split; [reflexivity | constructor]).
  destruct (discover_quiet cfg page w) as [added1 [Ht1 Hq1]].
  destruct (discover cfg page w) as [[links | error] w1]; simpl in Ht1.
  { exists added1. auto. }
  destruct (includes (message error) "429").
  { exists (added1 ++ [EvConsoleError "[ERROR] Rate limit exceeded" []]).
    simpl. rewrite Ht1, app_assoc. split; [reflexivity |].
    apply Forall_app. split; [exact Hq1 | repeat constructor]. }
  destruct (Nat.eq_dec (S attempts) maxRetries) as [Heq | Hne].
  { eexists (added1 ++ [_]). simpl. rewrite Ht1, app_assoc. split; [reflexivity |].
    apply Forall_app. split; [exact Hq1 | repeat constructor]. }
  destruct (IH (S attempts) (record (EvSetTimeout 1000) w1) ltac:(lia))
    as [added2 [Ht2 Hq2]].
  exists (added1 ++ EvSetTimeout 1000 :: added2).
  change (snd (call (EvSetTimeout 1000) (fun _ => Ok tt) w1))
    with (record (EvSetTimeout 1000) w1).
  rewrite Ht2. simpl. rewrite Ht1, <- !app_assoc. simpl.
  split; [reflexivity |].
  apply Forall_app. split; [exact Hq1 |]. constructor; [split; reflexivity | exact Hq2].
Qed.

Lemma extractLinks_quiet (cfg : Config) (page : Page) :
  adds (quiet cfg) (extractLinks cfg page).
Proof.
  intros w. unfold extractLinks.
  destruct (extractLinks_loop_quiet cfg page _ 0 w eq_refl) as [added [Ht Hq]].
  destruct (extractLinks_loop cfg page 0 w) as [[r n] w']. simpl in *. eauto.
Qed.

(** A call of [extractContent] writes its line of [log.section] first, and
    then neither such a line nor a file outside the cache. *)
Lemma extractContent_trace (cfg : Config) (page : Page) (url title : string) (w : World) :
  exists added,
    trace (snd (extractContent cfg page url title w))
    = trace w ++ extraction_started title :: added
    /\ Forall (quiet cfg) added.
Proof.
  unfold extractContent.
  set (rest := bind (getFromCache cfg url) _).
  assert (Hrest : adds (quiet cfg) rest).
  { subst rest. apply adds_bind; [apply getFromCache_quiet | intros cached].
    apply adds_if; [frame |].
    apply adds_try_catch; [| intros e; frame].
    apply adds_bind; [frame | intros _].
    apply adds_bind; [frame | intros _].
    apply adds_bind; [frame | intros frameHandle].
    destruct frameHandle as [handle |]; [| frame].
    apply adds_bind; [frame | intros frame].
    destruct frame as [frame |]; [| frame].
    apply adds_bind; [frame | intros _].
    apply adds_bind; [unfold extractFrameContent; frame | intros content].
    apply adds_if; [frame |].
    apply adds_bind; [apply saveToCache_quiet | intros _; frame]. }
  unfold bind at 1, log_section, call.
  destruct (Hrest (record (EvConsoleLog (nl +:+ "=== " +:+ ("Extracting Content: " +:+ title) +:+ " ===") []) w))
    as [added [Ht Hq]].
  exists added. rewrite Ht. simpl. rewrite <- app_assoc. split; [reflexivity | exact Hq].
Qed.

Lemma quiet_observations (cfg : Config) (w w' : World) (added : list Event) :
  trace w' = trace w ++ added -> Forall (quiet cfg) added ->
  section_logs w' = section_logs w /\ output_writes cfg w' = output_writes cfg w.
Proof.
  intros Ht Hq. unfold section_logs, output_writes. rewrite Ht, !List.filter_app.
  rewrite (filter_Forall_false is_section_log added),
          (filter_Forall_false (is_output_write cfg) added).
  - rewrite !app_nil_r. split; reflexivity.
  - eapply List.Forall_impl; [| exact Hq]. intros e He. apply He.
  - eapply List.Forall_impl; [| exact Hq]. intros e He. apply He.
Qed.

Lemma extract_pages_trace (cfg : Config) (page : Page) (links : list LinkRecord)
    (documentation : list DocRecord) (w : World) :
  is_ok (fst (extract_pages cfg page links documentation w)) = true ->
  section_logs (snd (extract_pages cfg page links documentation w))
  = section_logs w ++ map (fun link => extraction_started (text link)) links
  /\ output_writes cfg (snd (extract_pages cfg page links documentation w))
     = output_writes cfg w.
Proof.
  revert documentation w.
  induction links as [|link rest IH]; intros documentation w Hok; simpl.
  - rewrite app_nil_r. split; reflexivity.
  - simpl in Hok. unfold bind in Hok |- *.
    destruct (extractContent_trace cfg page (url link) (text link) w)
      as [added [Ht Hq]].
    destruct (extractContent cfg page (url link) (text link) w) as [[content | e] w1];
      simpl in *; [| discriminate].
    destruct (IH _ w1 Hok) as [IHs IHw]. rewrite IHs, IHw.
    unfold section_logs, output_writes. rewrite Ht, !List.filter_app. simpl.
    rewrite (filter_Forall_false is_section_log added),
            (filter_Forall_false (is_output_write cfg) added).
    + rewrite app_nil_r, <- app_assoc. split; reflexivity.
    + eapply List.Forall_impl; [| exact Hq]. intros e He. apply He.
    + eapply List.Forall_impl; [| exact Hq]. intros e He. apply He.
Qed.

End PipelineFrames.

(** ** The orchestrator *)

Section Orchestrator.

Context `{Json}.

Lemma startup_observations (cfg : Config) (w : World) :
  section_logs (snd (startup cfg false w)) = section_logs w ++ [run_started]
  /\ output_writes cfg (snd (startup cfg false w)) = output_writes cfg w.
Proof.
  unfold startup, initializeCache, bind, log_section, log_info, ret, call, fs_mkdir,
    section_logs, output_writes.
  simpl. destruct (mkdir_refused w (CACHE_DIR cfg)); simpl;
    rewrite !List.filter_app; simpl; rewrite !app_nil_r; split; reflexivity.
Qed.

Lemma acquire_page_quiet (cfg : Config) (puppeteer : Puppeteer) (testPage : option Page) :
  adds (quiet cfg) (acquire_page cfg puppeteer testPage).
Proof. unfold acquire_page, createBrowser. frame. Qed.

(** What the body of the [try] block leaves on the trace when it completes. *)
Lemma scrape_with_observations (cfg : Config) (page : Page) (w w1 : World)
    (links : list LinkRecord) :
  under (CACHE_DIR cfg) (outputPath cfg) = false ->
  extractLinks cfg page w = (Ok (Some links), w1) ->
  fst (scrape_with cfg page w) = Ok tt ->
  let pagesToProcess :=
    if DEV_MODE cfg then firstn (DEV_PAGE_LIMIT cfg) links else links in
  section_logs (snd (scrape_with cfg page w))
  = section_logs w ++ map (fun link => extraction_started (text link)) pagesToProcess
  /\ exists html,
       output_writes cfg (snd (scrape_with cfg page w))
       = output_writes cfg w ++ [EvWriteFile (outputPath cfg) (Some html)].
Proof.
  intros Hout Hlinks Hok pagesToProcess.
  destruct (extractLinks_quiet cfg page w) as [added1 [Ht1 Hq1]].
  rewrite Hlinks in Ht1. simpl in Ht1.
  destruct (quiet_observations cfg w w1 added1 Ht1 Hq1) as [Hs1 Hw1].
  destruct (scrape_with cfg page w) as [r wf] eqn:Hrun. simpl in Hok |- *. subst r.
  unfold scrape_with, bind in Hrun. rewrite Hlinks in Hrun.
  fold pagesToProcess in Hrun.
  unfold log_info at 1, call at 1 in Hrun.
  set (w2 := record _ w1) in Hrun.
  assert (Hs2 : section_logs w2 = section_logs w /\ output_writes cfg w2 = output_writes cfg w).
  { rewrite <- Hs1, <- Hw1. subst w2. unfold section_logs, output_writes. simpl.
    rewrite !List.filter_app. simpl. rewrite !app_nil_r. split; reflexivity. }
  destruct Hs2 as [Hs2 Hw2].
  pose proof (extract_pages_trace cfg page pagesToProcess [] w2) as Hpages.
  destruct (extract_pages cfg page pagesToProcess [] w2) as [[documentation | e] w3];
    simpl in Hpages; [| discriminate].
  destruct (Hpages eq_refl) as [Hs3 Hw3]. clear Hpages.
  unfold log_info at 1, call at 1, lift in Hrun.
  destruct (generateHTML cfg documentation) as [html | e]; [| discriminate].
  unfold fs_mkdir in Hrun. simpl in Hrun.
  destruct (mkdir_refused _ _); [discriminate |].
  unfold fs_writeFile, log_info, call in Hrun. simpl in Hrun.
  destruct (_ !! outputPath cfg) as [[old |] |]; try discriminate;
  destruct (write_refused _ (outputPath cfg)); try discriminate;
  injection Hrun as <-;
  unfold section_logs, output_writes in *; simpl;
  rewrite !List.filter_app; simpl; rewrite Hout; simpl; rewrite !app_nil_r;
  rewrite Hs3, Hw3, Hs2, Hw2; (split; [reflexivity | eexists; reflexivity]).
Qed.


End Orchestrator.

(** ** The normalisation of code blocks *)

Lemma descendants_children (t c w : string) (cs : list Element) :
  descendants (Elem t c w cs) = descendants_from 0 cs.
Proof. reflexivity. Qed.



Lemma descendants_from_head (l : list Element) (i : nat) (p : path) :
  In p (descendants_from i l) -> exists k q, p = k :: q /\ i <= k.
Proof.
  revert i. induction l as [|x l IH]; intros i Hin; [contradiction |].
  simpl in Hin. destruct Hin as [<- | Hin]; [exists i, []; split; [reflexivity | lia] |].
  apply in_app_or in Hin. destruct Hin as [Hin | Hin].
  - apply in_map_iff in Hin. destruct Hin as [q [<- _]]. exists i, q. split; [reflexivity | lia].
  - destruct (IH _ Hin) as [k [q [-> Hk]]]. exists k, q. split; [reflexivity | lia].
Qed.

Lemma descendants_nonempty (e : Element) (p : path) :
  In p (descendants e) -> p <> [].
Proof.
  destruct e as [t c w cs]. rewrite descendants_children. intros Hin.
  destruct (descendants_from_head _ _ _ Hin) as [k [q [-> _]]]. discriminate.
Qed.



(** Induction on an element, with the property known of its children. *)
Lemma Element_ind' (P : Element -> Prop)
    (step : forall t c w cs, Forall P cs -> P (Elem t c w cs)) (e : Element) : P e.
Proof.
  revert e. fix IH 1. intros [t c w cs]. apply step.
  induction cs as [|x cs IHcs]; constructor; [apply IH | exact IHcs].
Qed.


(** *** What a rewriting leaves unchanged *)

Lemma lookup_map {A B} (f : A -> B) (l : list A) (k : nat) :
  map f l !! k = option_map f (l !! k).
Proof.
  revert k. induction l as [|x l IH]; intros [|k]; simpl; try reflexivity. apply IH.
Qed.

Lemma map_alter_same {A B} (h : A -> B) (g : A -> A) (i : nat) (l : list A) :
  (forall x, h (g x) = h x) -> map h (alter g i l) = map h l.
Proof.
  intros Hg. revert i. induction l as [|x l IH]; intros [|i]; simpl; try reflexivity.
  - rewrite Hg. reflexivity.
  - f_equal. apply IH.
Qed.

Lemma skeleton_update_at (p : path) (f : Element -> Element) (e : Element) :
  (forall x, skeleton (f x) = skeleton x) ->
  skeleton (update_at p f e) = skeleton e.
Proof.
  intros Hf. revert e. induction p as [|i p IH]; intros e; simpl; [apply Hf |].
  destruct e as [t c w cs]. simpl. f_equal. apply map_alter_same. exact IH.
Qed.

Lemma skeleton_rewrite_block (x : Element) : skeleton (rewrite_block x) = skeleton x.
Proof. destruct x; reflexivity. Qed.

Lemma skeleton_rewrite_inline (x : Element) : skeleton (rewrite_inline x) = skeleton x.
Proof. destruct x; reflexivity. Qed.

Lemma skeleton_apply_write (write : option (path * bool)) (c : Element) :
  skeleton (apply_write write c) = skeleton c.
Proof.
  destruct write as [[t [|]] |]; simpl; [| | reflexivity];
    apply skeleton_update_at; [apply skeleton_rewrite_block | apply skeleton_rewrite_inline].
Qed.

Lemma element_at_skeleton (p : path) (e : Element) :
  element_at p (skeleton e) = option_map skeleton (element_at p e).
Proof.
  revert e. induction p as [|k p IH]; intros e; [reflexivity |].
  destruct e as [t c w cs]. simpl. rewrite lookup_map.
  destruct (cs !! k) as [child |]; simpl; [apply IH | reflexivity].
Qed.

Lemma tag_at_is_skeleton (t : string) (e : Element) (p : path) :
  tag_at_is t (skeleton e) p = tag_at_is t e p.
Proof.
  unfold tag_at_is. rewrite element_at_skeleton.
  destruct (element_at p e) as [[t' c w cs] |]; reflexivity.
Qed.

Lemma descendants_from_skeleton (l : list Element) (i : nat) :
  Forall (fun c => descendants (skeleton c) = descendants c) l ->
  descendants_from i (map skeleton l) = descendants_from i l.
Proof.
  intros HF. revert i. induction HF as [|x l Hx _ IH]; intros i; simpl; [reflexivity |].
  rewrite Hx, IH. reflexivity.
Qed.

Lemma descendants_skeleton (e : Element) : descendants (skeleton e) = descendants e.
Proof.
  induction e as [t c w cs IH] using Element_ind'. simpl skeleton.
  rewrite !descendants_children. apply descendants_from_skeleton. exact IH.
Qed.

Lemma filter_ext_all {A} (f g : A -> bool) (l : list A) :
  (forall x, f x = g x) -> List.filter f l = List.filter g l.
Proof. intros Hfg. apply List.filter_ext. exact Hfg. Qed.

Lemma querySelector_code_skeleton (e : Element) :
  querySelector_code (skeleton e) = querySelector_code e.
Proof.
  unfold querySelector_code. rewrite descendants_skeleton. f_equal.
  apply filter_ext_all. intros p. apply tag_at_is_skeleton.
Qed.

Section SameShape.

Variables a b : Element.
Hypothesis Hshape : skeleton a = skeleton b.

Lemma same_shape_tag_at (t : string) (p : path) : tag_at_is t a p = tag_at_is t b p.
Proof. rewrite <- (tag_at_is_skeleton t a), <- (tag_at_is_skeleton t b), Hshape. reflexivity. Qed.

Lemma same_shape_element_at (p : path) :
  option_map skeleton (element_at p a) = option_map skeleton (element_at p b).
Proof. rewrite <- !element_at_skeleton, Hshape. reflexivity. Qed.

Lemma same_shape_write_of (p : path) : write_of a p = write_of b p.
Proof.
  unfold write_of, inner_code, parent_matches_pre.
  pose proof (same_shape_element_at p) as Hel.
  rewrite (same_shape_tag_at "PRE" (removelast p)).
  destruct (element_at p a) as [x |], (element_at p b) as [y |]; simpl in Hel;
    try discriminate; [| reflexivity].
  injection Hel as Hxy.
  assert (Htag : forall t, has_tag t x = has_tag t y).
  { intros t. unfold has_tag. destruct x, y. simpl in *. congruence. }
  rewrite <- (querySelector_code_skeleton x), <- (querySelector_code_skeleton y), Hxy.
  rewrite !Htag. reflexivity.
Qed.

End SameShape.

Lemma process_element_write (c : Element) (p : path) :
  process_element c p = apply_write (write_of c p) c.
Proof.
  unfold process_element, write_of, inner_code, apply_write.
  destruct (element_at p c) as [el |]; [| reflexivity].
  destruct (has_tag "PRE" el); [reflexivity |].
  destruct (has_tag "CODE" el && negb (parent_matches_pre c p)); reflexivity.
Qed.

(** *** What a rewriting changes *)

Lemma element_at_update_at (p : path) (f : Element -> Element) (e : Element) :
  element_at p (update_at p f e) = option_map f (element_at p e).
Proof.
  revert e. induction p as [|i p IH]; intros e; [reflexivity |].
  destruct e as [t c w cs]. simpl. rewrite list_lookup_alter_eq.
  destruct (cs !! i) as [child |]; simpl; [apply IH | reflexivity].
Qed.

Lemma attrs_at_update_at_ne (p q : path) (f : Element -> Element) (e : Element) :
  (forall x, children (f x) = children x) ->
  p <> q -> attrs_at q (update_at p f e) = attrs_at q e.
Proof.
  intros Hf. unfold attrs_at. revert q e.
  induction p as [|i p IH]; intros q e Hne.
  - destruct q as [|j q]; [contradiction |]. simpl. rewrite Hf. reflexivity.
  - destruct e as [t c w cs]. destruct q as [|j q]; [reflexivity |]. simpl.
    destruct (Nat.eq_dec i j) as [<- | Hij].
    + rewrite list_lookup_alter_eq. destruct (cs !! i) as [child |]; simpl; [| reflexivity].
      apply IH. congruence.
    + rewrite list_lookup_alter_ne by exact Hij. reflexivity.
Qed.

Lemma children_rewrite_block (x : Element) : children (rewrite_block x) = children x.
Proof. destruct x; reflexivity. Qed.

Lemma children_rewrite_inline (x : Element) : children (rewrite_inline x) = children x.
Proof. destruct x; reflexivity. Qed.

Lemma attrs_at_apply_write_other (t target : path) (k : bool) (c : Element) :
  target <> t -> attrs_at t (apply_write (Some (target, k)) c) = attrs_at t c.
Proof.
  intros Hne. destruct k; simpl; apply attrs_at_update_at_ne; try exact Hne;
    [apply children_rewrite_block | apply children_rewrite_inline].
Qed.

Lemma attrs_at_apply_write_target (t : path) (k : bool) (c : Element) :
  attrs_at t (apply_write (Some (t, k)) c)
  = option_map (fun a => rewritten k (fst a)) (attrs_at t c).
Proof.
  unfold attrs_at. destruct k; simpl; rewrite element_at_update_at;
    destruct (element_at t c) as [[tg cls ws cs] |]; reflexivity.
Qed.

(** *** The whole pass *)

Section Pass.

Variable content : Element.

Lemma pass_untouched (ps : list path) (c : Element) (t : path) :
  skeleton c = skeleton content ->
  (forall p k, In p ps -> write_of content p <> Some (t, k)) ->
  attrs_at t (fold_left process_element ps c) = attrs_at t c
  /\ skeleton (fold_left process_element ps c) = skeleton content.
Proof.
  revert c. induction ps as [|p ps IH]; intros c Hc Hno; simpl; [split; [reflexivity | exact Hc] |].
  rewrite process_element_write, (same_shape_write_of _ _ Hc).
  destruct (IH (apply_write (write_of content p) c)) as [IHa IHs].
  - rewrite skeleton_apply_write. exact Hc.
  - intros p' k Hp'. apply Hno. right. exact Hp'.
  - rewrite IHa. split; [| exact IHs].
    destruct (write_of content p) as [[target k] |] eqn:Hw; [| reflexivity].
    apply attrs_at_apply_write_other. intros ->.
    exact (Hno p k (or_introl eq_refl) Hw).
Qed.


End Pass.

Lemma element_at_app (p q : path) (e : Element) :
  element_at (p ++ q) e
  = match element_at p e with
    | Some x => element_at q x
    | None => None
    end.
Proof.
  revert e. induction p as [|i p IH]; intros e; [reflexivity |]. simpl.
  destruct (children e !! i) as [child |]; [apply IH | reflexivity].
Qed.

Lemma head_filter_Some {A} (f : A -> bool) (l : list A) (x : A) :
  head (List.filter f l) = Some x -> In x l /\ f x = true.
Proof.
  induction l as [|y l IH]; simpl; [discriminate |].
  destruct (f y) eqn:Hy; simpl.
  - intros [= ->]. split; [left; reflexivity | exact Hy].
  - intros Hx. destruct (IH Hx) as [Hin Hfx]. split; [right; exact Hin | exact Hfx].
Qed.

Lemma querySelector_code_Some (el : Element) (q : path) :
  querySelector_code el = Some q ->
  q <> [] /\ exists code, element_at q el = Some code /\ has_tag "CODE" code = true.
Proof.
  intros Hq. apply head_filter_Some in Hq. destruct Hq as [Hin Htag].
  split; [exact (descendants_nonempty _ _ Hin) |].
  unfold tag_at_is in Htag. destruct (element_at q el) as [code |]; [eauto | discriminate].
Qed.



Lemma in_querySelectorAll_inv (content : Element) (p : path) :
  In p (querySelectorAll_pre_code content) -> In p (descendants content).
Proof. unfold querySelectorAll_pre_code. intros Hin. apply List.filter_In in Hin. tauto. Qed.










(** ** Runs on the sample environments *)

Lemma extractContent_cache_hit_witness :
  fst (@extractContent sample_json (config false true) dead_page sample_url "Test Page"
         world_with_cache) = Ok cached_page
  /\ List.filter is_browser_call
       (trace (snd (@extractContent sample_json (config false true) dead_page sample_url
                      "Test Page" world_with_cache)))
     = List.filter is_browser_call (trace world_with_cache).
Proof.
  apply (@extractContent_cache_hit sample_json).
  - vm_compute. reflexivity.
  - reflexivity.
  - reflexivity.
Defined.

Lemma getFromCache_absent_witness :
  fst (@getFromCache sample_json (config false true) sample_url world_with_broken_cache)
  = Ok JsNull.
Proof.
  refine (proj1 (proj2 (proj2 (proj2
            (@getFromCache_absent sample_json (config false true) sample_url
               world_with_broken_cache)))) "{ " (SyntaxError "Unexpected token in JSON") _ _).
  - vm_compute. reflexivity.
  - vm_compute. reflexivity.
Defined.

Lemma getFromCache_after_saveToCache_witness :
  fst (@getFromCache sample_json (config false true) sample_url
         (snd (@saveToCache sample_json (config false true) sample_url cached_page
                 empty_world)))
  = Ok (match @JSON_parse sample_json cached_text with Ok v => v | Throw _ => JsNull end).
Proof.
  refine (proj1 (@getFromCache_after_saveToCache sample_json (config false true) sample_url
                   cached_page empty_world cached_text _ _ _)).
  - reflexivity.
  - vm_compute. reflexivity.
  - vm_compute. reflexivity.
Defined.


(** The sample run extracts the pages 1 to 10 of the twenty it discovers. *)
Example sample_run_extracts_ten :
  section_logs (snd sample_run)
  = run_started :: map (fun i => extraction_started ("Page " +:+ pretty i)) (seq 1 10).
Proof. vm_compute. reflexivity. Qed.

(** The record read back is the record saved. *)
Example sample_round_trip :
  @JSON_parse sample_json cached_text = Ok cached_page.
Proof. vm_compute. reflexivity. Qed.

Example cache_key_of_test_url :
  getCacheKey (config false true) "https://test.url"
  = ".cache/339c9297d9504d481b04c0f702f0989d_v1.json".
Proof. vm_compute. reflexivity. Qed.

Example md5_of_abc : md5_hex "abc" = "900150983cd24fb0d6963f7d28e17f72".
Proof. vm_compute. reflexivity. Qed.

Example encodeURIComponent_title :
  encodeURIComponent "Creating a scene (part 1)?" = "Creating%20a%20scene%20(part%201)%3F".
Proof. reflexivity. Qed.

(** * Further properties *)

(** ** The names of the cache files *)

Lemma length_app_string (a b : string) :
  String.length (a +:+ b) = String.length a + String.length b.
Proof.
  induction a as [|c a IH]; [reflexivity |].
  rewrite append_cons. simpl. rewrite IH. reflexivity.
Qed.

Lemma append_inj_length (a b x y : string) :
  String.length a = String.length b -> a +:+ x = b +:+ y -> a = b /\ x = y.
Proof.
  revert b. induction a as [|c a IH]; intros [|d b] Hlen Heq; try discriminate.
  - rewrite !append_nil_l in Heq. auto.
  - rewrite !append_cons in Heq. injection Heq as -> Heq.
    simpl in Hlen. destruct (IH b ltac:(lia) Heq) as [-> ->]. auto.
Qed.

Lemma append_inj_r (x y a : string) : x +:+ a = y +:+ a -> x = y.
Proof.
  intros Heq.
  assert (Hlen : String.length x = String.length y).
  { apply (f_equal String.length) in Heq. rewrite !length_app_string in Heq. lia. }
  apply (append_inj_length x y a a Hlen Heq).
Qed.

Lemma length_le_bytes (n : nat) (x : Z) : length (le_bytes n x) = n.
Proof. revert x. induction n as [|n IH]; intros x; simpl; [| rewrite IH]; reflexivity. Qed.

Lemma length_hex_of_bytes (bytes : list Z) :
  String.length (hex_of_bytes bytes) = 2 * length bytes.
Proof. induction bytes as [|b rest IH]; simpl; [| rewrite IH]; lia. Qed.

Lemma le_bytes_range (n : nat) (x : Z) :
  Forall (fun b => 0 <= b < 256)%Z (le_bytes n x).
Proof.
  revert x. induction n as [|n IH]; intros x; simpl; constructor; [| apply IH].
  change 255%Z with (Z.ones 8). rewrite Z.land_ones by lia.
  apply Z.mod_pos_bound. lia.
Qed.

Lemma hex_lower_is_hex (n : Z) : (0 <= n < 16)%Z -> is_hex_lower (hex_lower n) = true.
Proof.
  intros Hn.
  assert (Hcases : In n [0; 1; 2; 3; 4; 5; 6; 7; 8; 9; 10; 11; 12; 13; 14; 15]%Z).
  { simpl. lia. }
  simpl in Hcases.
  repeat (destruct Hcases as [<- | Hcases]; [reflexivity |]). contradiction.
Qed.

Lemma hex_of_bytes_is_hex (bytes : list Z) :
  Forall (fun b => 0 <= b < 256)%Z bytes ->
  every_char is_hex_lower (hex_of_bytes bytes) = true.
Proof.
  induction 1 as [|b rest Hb _ IH]; [reflexivity |].
  simpl. rewrite IH, !hex_lower_is_hex; [reflexivity | |].
  - change 15%Z with (Z.ones 4). rewrite Z.land_ones by lia.
    apply Z.mod_pos_bound. lia.
  - rewrite Z.shiftr_div_pow2 by lia. change (2 ^ 4)%Z with 16%Z.
    split; [apply Z.div_pos; lia | apply Z.div_lt_upper_bound; lia].
Qed.

(** The digest is always 32 characters of [0-9a-f]. *)
Lemma md5_hex_shape (s : string) :
  String.length (md5_hex s) = 32 /\ every_char is_hex_lower (md5_hex s) = true.
Proof.
  unfold md5_hex.
  destruct (md5_blocks _ _ _) as [[[a b] c] d]. split.
  - rewrite length_hex_of_bytes, !length_app, !length_le_bytes. reflexivity.
  - apply hex_of_bytes_is_hex. repeat (apply Forall_app; split); apply le_bytes_range.
Qed.


(** The cache files of two versions are disjoint. *)
Lemma getCacheKey_versions (cfg1 cfg2 : Config) (url1 url2 : string) :
  CACHE_DIR cfg1 = CACHE_DIR cfg2 ->
  CACHE_VERSION cfg1 <> CACHE_VERSION cfg2 ->
  getCacheKey cfg1 url1 <> getCacheKey cfg2 url2.
Proof.
  intros Hdir Hver Heq. apply Hver.
  unfold getCacheKey, path_join in Heq. rewrite Hdir in Heq.
  apply append_inj_length in Heq; [| reflexivity]. destruct Heq as [_ Heq].
  apply append_inj_length in Heq; [| reflexivity]. destruct Heq as [_ Heq].
  apply append_inj_length in Heq.
  2:{ rewrite (proj1 (md5_hex_shape url1)), (proj1 (md5_hex_shape url2)). reflexivity. }
  destruct Heq as [_ Heq].
  apply append_inj_length in Heq; [| reflexivity]. destruct Heq as [_ Heq].
  apply append_inj_r in Heq. exact Heq.
Qed.

(** ** What a run does to the files *)

Section Touches.

Context {Q : string -> bool}.

Lemma touches_ret {A} (a : A) : touches_only Q (ret a).
Proof. intros w. simpl. auto. Qed.

Lemma touches_throw {A} (e : JsError) : touches_only Q (@throw A e).
Proof. intros w. simpl. auto. Qed.

Lemma touches_lift {A} (r : Result A) : touches_only Q (lift r).
Proof. intros w. simpl. auto. Qed.

Lemma touches_call {A} (e : Event) (answer : list Event -> Result A) :
  touches_only Q (call e answer).
Proof. intros w. simpl. auto. Qed.

Lemma touches_bind {A B} (m : M A) (k : A -> M B) :
  touches_only Q m -> (forall a, touches_only Q (k a)) -> touches_only Q (bind m k).
Proof.
  intros Hm Hk w. unfold bind. destruct (Hm w) as (Hw & Hd & Hr & Hf).
  destruct (m w) as [[a|e] w1]; simpl in *; [| auto].
  destruct (Hk a w1) as (Hw' & Hd' & Hr' & Hf').
  rewrite Hw', Hd', Hr'. repeat split; auto.
  intros f HQ. rewrite Hf', Hf; auto.
Qed.

Lemma touches_try_catch {A} (m : M A) (h : JsError -> M A) :
  touches_only Q m -> (forall e, touches_only Q (h e)) -> touches_only Q (try_catch m h).
Proof.
  intros Hm Hh w. unfold try_catch. destruct (Hm w) as (Hw & Hd & Hr & Hf).
  destruct (m w) as [[a|e] w1]; simpl in *; [auto |].
  destruct (Hh e w1) as (Hw' & Hd' & Hr' & Hf').
  rewrite Hw', Hd', Hr'. repeat split; auto.
  intros f HQ. rewrite Hf', Hf; auto.
Qed.

Lemma touches_try_finally {A} (m : M A) (c : M unit) :
  touches_only Q m -> touches_only Q c -> touches_only Q (try_finally m c).
Proof.
  intros Hm Hc w. unfold try_finally. destruct (Hm w) as (Hw & Hd & Hr & Hf).
  destruct (m w) as [r w1]; simpl in *.
  destruct (Hc w1) as (Hw' & Hd' & Hr' & Hf').
  destruct (c w1) as [[u|e] w2]; simpl in *; rewrite Hw', Hd', Hr';
    repeat split; auto; intros f HQ; rewrite Hf', Hf; auto.
Qed.

Lemma touches_if {A} (b : bool) (m1 m2 : M A) :
  touches_only Q m1 -> touches_only Q m2 -> touches_only Q (if b then m1 else m2).
Proof. destruct b; auto. Qed.

Lemma touches_fs_readFile (file : string) : touches_only Q (fs_readFile file).
Proof. intros w. simpl. auto. Qed.

Lemma touches_fs_writeFile (file : string) (data : option string) :
  Q file = true -> touches_only Q (fs_writeFile file data).
Proof.
  intros HQ w. unfold fs_writeFile. destruct data as [text |]; [| simpl; auto].
  destruct (files w !! file) as [[old|]|]; simpl; auto;
    destruct (write_refused w file); simpl; auto;
    repeat split; intros f Hf; apply lookup_insert_ne; intros ->; congruence.
Qed.

Lemma touches_fs_mkdir (dir : string) : touches_only Q (fs_mkdir dir).
Proof. intros w. simpl. auto. Qed.

Lemma touches_fs_rm (dir : string) :
  (forall f, under dir f = true -> Q f = true) -> touches_only Q (fs_rm dir).
Proof.
  intros HQ w. unfold fs_rm. destruct (rm_refused w dir); simpl; auto.
  repeat split. intros f Hf.
  destruct (files w !! f) as [x |] eqn:Hx.
  - apply map_lookup_filter_Some. split; [exact Hx |]. simpl.
    destruct (under dir f) eqn:Hu; [| reflexivity].
    rewrite (HQ f Hu) in Hf. discriminate.
  - apply map_lookup_filter_None. left. exact Hx.
Qed.

Lemma touches_log_info (msg : string) (args : list LogArg) : touches_only Q (log_info msg args).
Proof. apply touches_call. Qed.

Lemma touches_log_error (msg : string) (args : list LogArg) : touches_only Q (log_error msg args).
Proof. apply touches_call. Qed.

Lemma touches_log_debug (cfg : Config) (msg : string) : touches_only Q (log_debug cfg msg).
Proof. unfold log_debug. destruct (DEV_MODE cfg); [apply touches_call | apply touches_ret]. Qed.

Lemma touches_log_section (msg : string) : touches_only Q (log_section msg).
Proof. apply touches_call. Qed.

End Touches.

Lemma touches_only_weaken {A} (Q Q' : string -> bool) (m : M A) :
  (forall f, Q f = true -> Q' f = true) -> touches_only Q m -> touches_only Q' m.
Proof.
  intros Hsub Hm w. destruct (Hm w) as (Hw & Hd & Hr & Hf). repeat split; auto.
  intros f HQ'. apply Hf. destruct (Q f) eqn:HQ; [| reflexivity].
  rewrite (Hsub f HQ) in HQ'. discriminate.
Qed.

Ltac untouched :=
  repeat first
    [ apply touches_ret | apply touches_throw | apply touches_lift
    | apply touches_bind; [| intros ?]
    | apply touches_try_catch; [| intros ?]
    | apply touches_log_info | apply touches_log_error | apply touches_log_debug
    | apply touches_log_section
    | apply touches_fs_readFile | apply touches_fs_mkdir
    | apply touches_fs_writeFile; [apply cache_key_under]
    | apply touches_fs_rm; [intros ? ?; assumption]
    | apply touches_call
    | apply touches_if
    | match goal with
      | |- touches_only _ (match ?x with _ => _ end) => destruct x
      end ].

(** ** The cache store, continued *)

Section CacheStore.

Context `{Json}.

Lemma saveToCache_spec (cfg : Config) (url : string) (data : JsValue) (w : World) :
  exists added,
    saveToCache cfg url data w
    = (Ok tt,
       {| files := cache_after cfg url data w; write_refused := write_refused w;
          mkdir_refused := mkdir_refused w; rm_refused := rm_refused w;
          trace := trace w ++ added |})
    /\ Forall (fun e => is_browser_call e = false /\ is_section_log e = false
                        /\ is_lifecycle e = false /\ is_delay e = false) added.
Proof.
  unfold saveToCache, cache_after.
  destruct (USE_CACHE cfg); simpl.
  2:{ exists []. destruct w; simpl. rewrite app_nil_r. repeat split; auto. }
  unfold try_catch, bind, lift.
  destruct (JSON_stringify data) as [[text |] | e]; simpl.
  - unfold fs_writeFile.
    destruct (files w !! getCacheKey cfg url) as [[old |] |];
      try destruct (write_refused w (getCacheKey cfg url)); simpl;
      unfold log_debug, log_error, call, ret, record; destruct (DEV_MODE cfg); simpl;
      rewrite <- ?app_assoc; simpl;
      eexists; (split; [reflexivity | repeat constructor]).
  - unfold log_error, call, record. simpl. rewrite <- app_assoc. simpl.
    eexists; (split; [reflexivity | repeat constructor]).
  - unfold log_error, call, record. simpl.
    eexists; (split; [reflexivity | repeat constructor]).
Qed.

Lemma cache_after_other (cfg : Config) (url : string) (data : JsValue) (w : World)
    (f : string) :
  f <> getCacheKey cfg url -> cache_after cfg url data w !! f = files w !! f.
Proof.
  intros Hf. unfold cache_after.
  destruct (USE_CACHE cfg); [| reflexivity].
  destruct (JSON_stringify data) as [[text |] | e]; try reflexivity.
  destruct (files w !! getCacheKey cfg url) as [[old |] |]; try reflexivity;
    destruct (write_refused w (getCacheKey cfg url)); try reflexivity;
    apply lookup_insert_ne; congruence.
Qed.

(** X2. [saveToCache] never raises: a value that cannot be serialised and a
    write that fails are both swallowed.  It changes no file but the cache
    file of its URL, and with caching disabled it does nothing at all. *)
Theorem saveToCache_never_raises (cfg : Config) (url : string) (data : JsValue)
    (w : World) :
  fst (saveToCache cfg url data w) = Ok tt
  /\ (forall f, f <> getCacheKey cfg url ->
      files (snd (saveToCache cfg url data w)) !! f = files w !! f)
  /\ (USE_CACHE cfg = false -> saveToCache cfg url data w = (Ok tt, w)).
Proof.
  destruct (saveToCache_spec cfg url data w) as [added [Hrun _]].
  rewrite Hrun. simpl. split; [reflexivity | split].
  - intros f Hf. apply cache_after_other. exact Hf.
  - intros Hoff. rewrite <- Hrun. unfold saveToCache. rewrite Hoff. reflexivity.
Qed.

(** X3. When the serialisation or the write of [saveToCache] fails, the
    file system is left as it was and the failure is reported on
    [console.error] with the error that occurred, as the last thing the
    function does. *)
Theorem saveToCache_failure_reported (cfg : Config) (url : string) (data : JsValue)
    (w : World) (error : JsError) :
  USE_CACHE cfg = true ->
  fst (bind (lift (JSON_stringify data)) (fs_writeFile (getCacheKey cfg url)) w)
  = Throw error ->
  files (snd (saveToCache cfg url data w)) = files w
  /\ List.last (trace (snd (saveToCache cfg url data w))) EvClose
     = EvConsoleError "[ERROR] Failed to write cache:" [ArgError error].
Proof.
  intros Hon Hfail. unfold saveToCache. rewrite Hon. simpl.
  unfold try_catch, bind, lift in Hfail |- *.
  destruct (JSON_stringify data) as [[text |] | e]; simpl in Hfail |- *.
  - unfold fs_writeFile in Hfail |- *.
    destruct (files w !! getCacheKey cfg url) as [[old |] |];
      try destruct (write_refused w (getCacheKey cfg url)); simpl in Hfail |- *;
      try discriminate; injection Hfail as <-;
      (split; [reflexivity | apply last_last]).
  - injection Hfail as <-. split; [reflexivity | apply last_last].
  - injection Hfail as <-. split; [reflexivity | apply last_last].
Qed.

(** X4. [getFromCache] only reads: it leaves the file system and what it
    refuses as they were, and all it adds to the trace is one read of the
    cache file of its URL (none with caching disabled) and lines on the
    console. *)
Theorem getFromCache_read_only (cfg : Config) (url : string) (w : World) :
  exists added,
    snd (getFromCache cfg url w)
    = {| files := files w; write_refused := write_refused w;
         mkdir_refused := mkdir_refused w; rm_refused := rm_refused w;
         trace := trace w ++ added |}
    /\ List.filter is_fs_call added
       = (if USE_CACHE cfg then [EvReadFile (getCacheKey cfg url)] else [])
    /\ Forall (fun e => is_fs_call e = true \/ exists text, e = EvConsoleLog text []) added.
Proof.
  unfold getFromCache.
  destruct (USE_CACHE cfg); simpl.
  - unfold try_catch, bind, fs_readFile, log_debug, lift, call, ret, record; simpl.
    destruct (files w !! getCacheKey cfg url) as [[data|]|];
      destruct (DEV_MODE cfg); simpl;
      try destruct (JSON_parse data); simpl;
      rewrite <- ?app_assoc; simpl;
      eexists; (split; [reflexivity |]); (split; [reflexivity |]);
      repeat first
        [ apply List.Forall_nil
        | apply List.Forall_cons;
          [first [left; reflexivity | right; eexists; reflexivity] |] ].
  - exists []. unfold ret. destruct w; simpl. rewrite app_nil_r.
    split; [reflexivity | split; [reflexivity | constructor]].
Qed.

(** X5. Records stored under one cache version are never read under
    another: with the same cache directory and different versions, storing
    a page under the first version leaves every lookup under the second as
    it was. *)
Theorem cache_version_isolates (cfg1 cfg2 : Config) (url1 url2 : string)
    (data : JsValue) (w : World) :
  CACHE_DIR cfg1 = CACHE_DIR cfg2 ->
  CACHE_VERSION cfg1 <> CACHE_VERSION cfg2 ->
  fst (getFromCache cfg2 url2 (snd (saveToCache cfg1 url1 data w)))
  = fst (getFromCache cfg2 url2 w).
Proof.
  intros Hdir Hver.
  destruct (saveToCache_spec cfg1 url1 data w) as [added [Hrun _]].
  rewrite Hrun. cbn [snd].
  destruct (getFromCache_spec cfg2 url2 w) as [added1 [-> _]].
  match goal with
  | |- fst (getFromCache cfg2 url2 ?w') = _ =>
      destruct (getFromCache_spec cfg2 url2 w') as [added2 [-> _]]
  end.
  cbn [fst files]. f_equal. unfold cache_value.
  rewrite cache_after_other; [reflexivity |].
  intros Heq. symmetry in Heq. revert Heq. apply getCacheKey_versions; assumption.
Qed.

Lemma initializeCache_touches (cfg : Config) (CLEAR_CACHE : bool) :
  touches_only (under (CACHE_DIR cfg)) (initializeCache cfg CLEAR_CACHE).
Proof. unfold initializeCache. untouched. Qed.

Lemma getFromCache_touches (cfg : Config) (url : string) :
  touches_only (under (CACHE_DIR cfg)) (getFromCache cfg url).
Proof. unfold getFromCache. untouched. Qed.

Lemma saveToCache_touches (cfg : Config) (url : string) (data : JsValue) :
  touches_only (under (CACHE_DIR cfg)) (saveToCache cfg url data).
Proof. unfold saveToCache. untouched. Qed.

(** X6. With [--clear-cache], when the removal succeeds, no file of the
    cache directory is left, so that every lookup yields [null]; the files
    outside the cache directory are kept. *)
Theorem initializeCache_clears (cfg : Config) (w : World) :
  rm_refused w (CACHE_DIR cfg) = false ->
  (forall f, under (CACHE_DIR cfg) f = true ->
             files (snd (initializeCache cfg true w)) !! f = None)
  /\ (forall f, under (CACHE_DIR cfg) f = false ->
                files (snd (initializeCache cfg true w)) !! f = files w !! f)
  /\ (forall url,
        fst (getFromCache cfg url (snd (initializeCache cfg true w))) = Ok JsNull).
Proof.
  intros Hrm.
  assert (Hgone : forall f, under (CACHE_DIR cfg) f = true ->
                            files (snd (initializeCache cfg true w)) !! f = None).
  { intros f Hf. unfold initializeCache, bind, try_catch, fs_rm. rewrite Hrm.
    unfold log_info, call, fs_mkdir. simpl.
    apply map_lookup_filter_None. right. intros x _. simpl. rewrite Hf. discriminate. }
  split; [exact Hgone | split].
  - intros f Hf. apply (initializeCache_touches cfg true w). exact Hf.
  - intros url.
    destruct (getFromCache_spec cfg url (snd (initializeCache cfg true w)))
      as [added [-> _]].
    cbn [fst]. f_equal. unfold cache_value.
    rewrite (Hgone _ (cache_key_under cfg url)).
    destruct (USE_CACHE cfg); reflexivity.
Qed.

(** X7. A failure to clear the cache is not fatal: [initializeCache]
    succeeds exactly when the cache directory can be created, whether or
    not the cache was to be cleared and whether or not the removal
    succeeded; without [--clear-cache], or when the removal is refused, it
    changes no file. *)
Theorem initializeCache_outcome (cfg : Config) (CLEAR_CACHE : bool) (w : World) :
  is_ok (fst (initializeCache cfg CLEAR_CACHE w)) = negb (mkdir_refused w (CACHE_DIR cfg))
  /\ (CLEAR_CACHE = false \/ rm_refused w (CACHE_DIR cfg) = true ->
      files (snd (initializeCache cfg CLEAR_CACHE w)) = files w).
Proof.
  unfold initializeCache, bind, try_catch, fs_rm, log_info, log_error, call, ret, fs_mkdir.
  destruct CLEAR_CACHE; simpl.
  - destruct (rm_refused w (CACHE_DIR cfg)) eqn:Hrm; simpl.
    + destruct (mkdir_refused w (CACHE_DIR cfg)); simpl; auto.
    + destruct (mkdir_refused w (CACHE_DIR cfg)); simpl;
        (split; [reflexivity | intros [Hc | Hc]; discriminate]).
  - destruct (mkdir_refused w (CACHE_DIR cfg)); simpl; auto.
Qed.

End CacheStore.

(** ** What a run appends, continued *)

Lemma added_by_app {A} (m : M A) (w : World) (added : list Event) :
  trace (snd (m w)) = trace w ++ added -> added_by m w = added.
Proof.
  intros Ht. unfold added_by. rewrite Ht. apply drop_app_length.
Qed.

Lemma added_by_run {A} (m : M A) (w wf : World) (r : Result A) (added : list Event) :
  m w = (r, wf) -> trace wf = trace w ++ added -> added_by m w = added.
Proof. intros Hrun Ht. apply added_by_app. rewrite Hrun. exact Ht. Qed.

Lemma adds_added_by {A} (P : Event -> Prop) (m : M A) (w : World) :
  adds P m -> trace (snd (m w)) = trace w ++ added_by m w /\ Forall P (added_by m w).
Proof.
  intros Hm. destruct (Hm w) as [added [Ht HP]].
  rewrite (added_by_app m w added Ht). auto.
Qed.

Lemma adds_log_section {P : Event -> Prop} (msg : string) :
  P (EvConsoleLog (nl +:+ "=== " +:+ msg +:+ " ===") []) -> adds P (log_section msg).
Proof. apply adds_call. Qed.

(** The frame of a computation for an arbitrary property of events, the
    events themselves being settled by [leaf]. *)
Ltac frame_with leaf :=
  repeat first
    [ apply adds_ret | apply adds_throw | apply adds_lift
    | apply adds_bind; [| intros ?]
    | apply adds_try_catch; [| intros ?]
    | apply adds_log_info | apply adds_log_error | apply adds_log_debug
    | apply adds_log_section
    | apply adds_fs_readFile | apply adds_fs_writeFile
    | apply adds_fs_mkdir | apply adds_fs_rm
    | apply adds_call
    | apply adds_if
    | match goal with
      | |- adds _ (match ?x with _ => _ end) => destruct x
      end
    | leaf ].

(** ** Link discovery, continued *)

Section LinkSchedule.

Lemma discover_shape (cfg : Config) (page : Page) (w : World) :
  exists added,
    trace (snd (discover cfg page w)) = trace w ++ EvGoto (DOCS_URL cfg) :: added
    /\ Forall (fun e => is_schedule e = false) added.
Proof.
  unfold discover, bind, call, log_info, ret, record. simpl.
  destruct (goto page (trace w) (DOCS_URL cfg)); simpl.
  2:{ exists []. split; [reflexivity | constructor]. }
  destruct (waitForSelector page _ _); simpl.
  2:{ eexists. rewrite <- app_assoc. simpl. split; [reflexivity | repeat constructor]. }
  destruct (evaluate page _); simpl;
    eexists; rewrite <- !app_assoc; simpl; (split; [reflexivity | repeat constructor]).
Qed.

(** X8. [extractLinks] never falls out of its loop: it returns the links of
    a successful attempt, or fails, with the error [Rate limit exceeded]
    when an attempt failed with a message containing [429], and otherwise
    with the very error of a failed attempt. *)
Theorem extractLinks_outcomes (cfg : Config) (page : Page) (w : World) :
  match fst (extractLinks cfg page w) with
  | Ok (Some links) => exists w0, fst (discover cfg page w0) = Ok links
  | Ok None => False
  | Throw error =>
      (error = Error "Rate limit exceeded"
       /\ exists w0 e, fst (discover cfg page w0) = Throw e
                       /\ includes (message e) "429" = true)
      \/ (includes (message error) "429" = false
          /\ exists w0, fst (discover cfg page w0) = Throw error)
  end.
Proof.
  unfold extractLinks. rewrite extractLinks_loop_turn.
  destruct (lt_dec 0 maxRetries) as [_ | Hn]; [| exfalso; apply Hn; unfold maxRetries; lia].
  destruct (discover cfg page w) as [[links | e1] w1] eqn:H1.
  { simpl. exists w. rewrite H1. reflexivity. }
  destruct (includes (message e1) "429") eqn:H429.
  { simpl. left. split; [reflexivity |]. exists w, e1. rewrite H1. auto. }
  destruct (Nat.eq_dec 1 maxRetries) as [Heq | _]; [discriminate Heq |].
  rewrite extractLinks_loop_turn.
  destruct (lt_dec 1 maxRetries) as [_ | Hn]; [| exfalso; apply Hn; unfold maxRetries; lia].
  set (w' := snd (call (EvSetTimeout 1000) (fun _ => Ok tt) w1)).
  destruct (discover cfg page w') as [[links | e2] w2] eqn:H2.
  { simpl. exists w'. rewrite H2. reflexivity. }
  destruct (includes (message e2) "429") eqn:H429'.
  { simpl. left. split; [reflexivity |]. exists w', e2. rewrite H2. auto. }
  destruct (Nat.eq_dec 2 maxRetries) as [_ | Hn]; [| exfalso; apply Hn; reflexivity].
  simpl. right. split; [exact H429' |]. exists w'. rewrite H2. reflexivity.
Qed.

(** X9. A first attempt that fails with an error other than a rate limit is
    followed, after a pause of 1000 ms, by a second attempt, and when that
    one succeeds [extractLinks] returns its links: the first failure is
    neither reported nor surfaced. *)
Theorem extractLinks_recovers (cfg : Config) (page : Page) (w w1 w2 : World)
    (error : JsError) (links : list LinkRecord) :
  discover cfg page w = (Throw error, w1) ->
  includes (message error) "429" = false ->
  discover cfg page (record (EvSetTimeout 1000) w1) = (Ok links, w2) ->
  extractLinks cfg page w = (Ok (Some links), w2).
Proof.
  intros H1 H429 H2. unfold extractLinks. rewrite extractLinks_loop_turn, H1, H429.
  destruct (lt_dec 0 maxRetries) as [_ | Hn]; [| exfalso; apply Hn; unfold maxRetries; lia].
  destruct (Nat.eq_dec 1 maxRetries) as [Heq | _]; [discriminate Heq |].
  rewrite extractLinks_loop_turn.
  destruct (lt_dec 1 maxRetries) as [_ | Hn]; [| exfalso; apply Hn; unfold maxRetries; lia].
  change (snd (call (EvSetTimeout 1000) (fun _ => Ok tt) w1))
    with (record (EvSetTimeout 1000) w1).
  rewrite H2. reflexivity.
Qed.

(** X10. The schedule of [extractLinks]: one navigation to the
    documentation index when the first attempt succeeds or is rate-limited,
    and otherwise a navigation, one pause of 1000 ms and a second
    navigation; never anything more, whatever the second attempt gives. *)
Theorem extractLinks_schedule (cfg : Config) (page : Page) (w : World) :
  List.filter is_schedule (added_by (extractLinks cfg page) w)
  = match fst (discover cfg page w) with
    | Ok _ => [EvGoto (DOCS_URL cfg)]
    | Throw error =>
        if includes (message error) "429" then [EvGoto (DOCS_URL cfg)]
        else [EvGoto (DOCS_URL cfg); EvSetTimeout 1000; EvGoto (DOCS_URL cfg)]
    end.
Proof.
  assert (Hone : forall added, Forall (fun e => is_schedule e = false) added ->
                   List.filter is_schedule added = []).
  { intros added Ha. apply filter_Forall_false. exact Ha. }
  assert (Hgoto : forall u l, List.filter is_schedule (EvGoto u :: l)
                              = EvGoto u :: List.filter is_schedule l) by reflexivity.
  assert (Hdelay : forall ms l, List.filter is_schedule (EvSetTimeout ms :: l)
                                = EvSetTimeout ms :: List.filter is_schedule l) by reflexivity.
  destruct (discover_shape cfg page w) as [added1 [Ht1 Hs1]].
  pose proof (Hone _ Hs1) as Hf1.
  destruct (extractLinks cfg page w) as [r wf] eqn:Hrun.
  assert (Htr : exists added, trace wf = trace w ++ added
                  /\ List.filter is_schedule added
                     = match fst (discover cfg page w) with
                       | Ok _ => [EvGoto (DOCS_URL cfg)]
                       | Throw error =>
                           if includes (message error) "429" then [EvGoto (DOCS_URL cfg)]
                           else [EvGoto (DOCS_URL cfg); EvSetTimeout 1000;
                                 EvGoto (DOCS_URL cfg)]
                       end).
  { unfold extractLinks in Hrun. rewrite extractLinks_loop_turn in Hrun.
    destruct (lt_dec 0 maxRetries) as [_ | Hn]; [| exfalso; apply Hn; unfold maxRetries; lia].
    destruct (discover cfg page w) as [[links | e1] w1]; cbn [fst snd] in *.
    { injection Hrun as _ <-. eexists. split; [exact Ht1 |].
      rewrite Hgoto, Hf1. reflexivity. }
    destruct (includes (message e1) "429").
    { injection Hrun as _ <-. cbn [snd log_error call record trace]. rewrite Ht1, <- app_assoc.
      eexists. split; [reflexivity |].
      rewrite <- app_comm_cons, Hgoto, List.filter_app, Hf1. reflexivity. }
    destruct (Nat.eq_dec 1 maxRetries) as [Heq | _]; [discriminate Heq |].
    rewrite extractLinks_loop_turn in Hrun.
    destruct (lt_dec 1 maxRetries) as [_ | Hn]; [| exfalso; apply Hn; unfold maxRetries; lia].
    change (snd (call (EvSetTimeout 1000) (fun _ => Ok tt) w1))
      with (record (EvSetTimeout 1000) w1) in Hrun.
    destruct (discover_shape cfg page (record (EvSetTimeout 1000) w1)) as [added2 [Ht2 Hs2]].
    pose proof (Hone _ Hs2) as Hf2.
    cbn [record trace] in Ht2. rewrite Ht1, <- !app_assoc, <- !app_comm_cons in Ht2.
    assert (Hboth : forall tail, Forall (fun e => is_schedule e = false) tail ->
              List.filter is_schedule
                (EvGoto (DOCS_URL cfg)
                 :: added1 ++ [EvSetTimeout 1000] ++ EvGoto (DOCS_URL cfg) :: added2 ++ tail)
              = [EvGoto (DOCS_URL cfg); EvSetTimeout 1000; EvGoto (DOCS_URL cfg)]).
    { intros tail Htail. rewrite Hgoto, List.filter_app, Hf1.
      change ([EvSetTimeout 1000] ++ EvGoto (DOCS_URL cfg) :: added2 ++ tail)
        with (EvSetTimeout 1000 :: EvGoto (DOCS_URL cfg) :: added2 ++ tail).
      rewrite Hdelay, Hgoto, List.filter_app, Hf2, (Hone _ Htail). reflexivity. }
    destruct (discover cfg page (record (EvSetTimeout 1000) w1)) as [[links | e2] w2];
      cbn [fst snd] in *.
    { injection Hrun as _ <-. eexists. split; [exact Ht2 |].
      rewrite <- (app_nil_r added2). apply Hboth. constructor. }
    destruct (includes (message e2) "429").
    { injection Hrun as _ <-. cbn [snd log_error call record trace].
      rewrite Ht2, <- !app_assoc, <- !app_comm_cons, <- !app_assoc, <- !app_comm_cons.
      eexists. split; [reflexivity |]. apply Hboth. repeat constructor. }
    destruct (Nat.eq_dec 2 maxRetries) as [_ | Hn]; [| exfalso; apply Hn; reflexivity].
    injection Hrun as _ <-. cbn [snd log_error call record trace].
    rewrite Ht2, <- !app_assoc, <- !app_comm_cons, <- !app_assoc, <- !app_comm_cons.
    eexists. split; [reflexivity |]. apply Hboth. repeat constructor. }
  destruct Htr as [added [Ht Hf]].
  rewrite <- Hf. f_equal. apply added_by_app. rewrite Hrun. exact Ht.
Qed.

End LinkSchedule.

(** ** Content extraction, continued *)

Section ContentFacts.

Context `{Json}.

Lemma extractContent_unfold (cfg : Config) (page : Page) (url title : string) :
  extractContent cfg page url title
  = (log_section ("Extracting Content: " +:+ title) >>>
     cached <~ getFromCache cfg url ;;
     if truthy cached then
       cached_title <~ lift (toStr (get_prop cached "title")) ;;
       log_info ("Using cached content for: " +:+ cached_title) [] >>>
       ret cached
     else fetch_content cfg page url title).
Proof. reflexivity. Qed.

Ltac trace_done :=
  cbn [snd fst trace record files]; rewrite <- ?app_assoc; cbn [app]; reflexivity.

(** A run of the [try] statement: the calls made on the session are an
    initial part of [extraction_calls]; a success has made them all and
    stored the record as [saveToCache] can; a failure has written nothing
    and ends with its report on [console.error]. *)
Lemma fetch_content_run (cfg : Config) (page : Page) (url title : string) (w : World) :
  exists added n,
    trace (snd (fetch_content cfg page url title w)) = trace w ++ added
    /\ List.filter is_browser_call added = firstn n (extraction_calls cfg url)
    /\ 1 <= n
    /\ match fst (fetch_content cfg page url title w) with
       | Ok result =>
           n = 6
           /\ files (snd (fetch_content cfg page url title w))
              = cache_after cfg url result w
           /\ exists content,
                result = page_record title content
                /\ truthy content = true
                /\ truthy (get_prop content "error") = false
       | Throw e =>
           files (snd (fetch_content cfg page url title w)) = files w
           /\ Forall (fun ev => is_write ev = false) added
           /\ List.last added EvClose
              = EvConsoleError
                  ("[ERROR] " +:+ ("Failed to extract content from " +:+ url +:+ ":"))
                  [ArgError e]
       end.
Proof.
  unfold fetch_content, try_catch, bind, extractFrameContent, log_error, call, throw,
    lift, ret.
  cbn [fst snd].
  destruct (goto page (trace w) url) as [[] | e].
  2:{ eexists [_; _], 1. cbn [fst snd]. split; [trace_done |].
      split; [reflexivity |]. split; [lia |]. split; [reflexivity |].
      split; [repeat constructor | reflexivity]. }
  destruct (waitForSelector page _ _) as [[] | e].
  2:{ eexists [_; _; _], 2. cbn [fst snd]. split; [trace_done |].
      split; [reflexivity |]. split; [lia |]. split; [reflexivity |].
      split; [repeat constructor | reflexivity]. }
  destruct (query page _ _) as [[handle |] | e].
  2:{ eexists [_; _; _; _], 3. cbn [fst snd]. split; [trace_done |].
      split; [reflexivity |]. split; [lia |]. split; [reflexivity |].
      split; [repeat constructor | reflexivity]. }
  2:{ eexists [_; _; _; _], 3. cbn [fst snd]. split; [trace_done |].
      split; [reflexivity |]. split; [lia |]. split; [reflexivity |].
      split; [repeat constructor | reflexivity]. }
  destruct (contentFrame handle _) as [[frame |] | e].
  2:{ eexists [_; _; _; _; _], 4. cbn [fst snd]. split; [trace_done |].
      split; [reflexivity |]. split; [lia |]. split; [reflexivity |].
      split; [repeat constructor | reflexivity]. }
  2:{ eexists [_; _; _; _; _], 4. cbn [fst snd]. split; [trace_done |].
      split; [reflexivity |]. split; [lia |]. split; [reflexivity |].
      split; [repeat constructor | reflexivity]. }
  destruct (frame_waitForSelector frame _ _) as [[] | e].
  2:{ eexists [_; _; _; _; _; _], 5. cbn [fst snd]. split; [trace_done |].
      split; [reflexivity |]. split; [lia |]. split; [reflexivity |].
      split; [repeat constructor | reflexivity]. }
  destruct (frame_evaluate frame _) as [content | e].
  2:{ eexists [_; _; _; _; _; _; _], 6. cbn [fst snd]. split; [trace_done |].
      split; [reflexivity |]. split; [lia |]. split; [reflexivity |].
      split; [repeat constructor | reflexivity]. }
  destruct (truthy content) eqn:Hcontent; cbn [negb orb].
  - destruct (truthy (get_prop content "error")) eqn:Herror.
    + destruct (toStr (get_prop content "error")) as [msg | e];
        eexists [_; _; _; _; _; _; _], 6; cbn [fst snd]; (split; [trace_done |]);
        (split; [reflexivity |]); (split; [lia |]); (split; [reflexivity |]);
        (split; [repeat constructor | reflexivity]).
    + match goal with
      | |- context [saveToCache cfg url ?r ?w5] =>
          destruct (saveToCache_spec cfg url r w5) as [saved [Hsave Hsaved]]
      end.
      rewrite Hsave. cbn [fst snd trace record files].
      exists ([EvGoto url;
               EvWaitForSelector (sel_iframe (SELECTORS cfg)) (Some (TIMEOUT cfg));
               EvQuery (sel_iframe (SELECTORS cfg)); EvContentFrame;
               EvFrameWaitForSelector "body"; EvFrameEvaluate] ++ saved), 6.
      split; [rewrite <- !app_assoc; reflexivity |].
      split.
      { rewrite List.filter_app. cbn [List.filter is_browser_call].
        rewrite (filter_Forall_false is_browser_call saved); [reflexivity |].
        eapply List.Forall_impl; [| exact Hsaved]. intros ev Hev. apply Hev. }
      split; [lia |]. split; [reflexivity |]. split; [reflexivity |].
      exists content. auto.
  - destruct (truthy (get_prop content "error")); [destruct (toStr _) |];
      eexists [_; _; _; _; _; _; _], 6; cbn [fst snd];
      (split; [trace_done |]);
      (split; [reflexivity |]); (split; [lia |]); (split; [reflexivity |]);
      (split; [repeat constructor | reflexivity]).
Qed.

Lemma write_to_is_write (e : Event) : (forall f, is_write_to f e = false) -> is_write e = false.
Proof.
  destruct e; try reflexivity. intros Hf. specialize (Hf file). simpl in Hf.
  rewrite String.eqb_refl in Hf. discriminate.
Qed.

(** When the cache has no record for the page, [extractContent] runs the
    [try] statement after its line of [log.section] and the lookup, which
    make no call on the session and write no file. *)
Lemma extractContent_miss (cfg : Config) (page : Page) (url title : string) (w : World) :
  truthy (cache_value cfg url (files w)) = false ->
  exists added0,
    extractContent cfg page url title w
    = fetch_content cfg page url title
        {| files := files w; write_refused := write_refused w;
           mkdir_refused := mkdir_refused w; rm_refused := rm_refused w;
           trace := trace w ++ extraction_started title :: added0 |}
    /\ Forall (fun e => is_browser_call e = false /\ is_write e = false) added0.
Proof.
  intros Hmiss. rewrite extractContent_unfold. unfold bind at 1, log_section, call.
  unfold bind at 1.
  match goal with
  | |- context [getFromCache cfg url ?w0] =>
      destruct (getFromCache_spec cfg url w0) as [added0 [Hget Hadded]]
  end.
  rewrite Hget. cbn [files record write_refused mkdir_refused rm_refused trace].
  rewrite Hmiss. exists added0. rewrite <- app_assoc. split; [reflexivity |].
  eapply List.Forall_impl; [| exact Hadded]. intros e (Hb & _ & Hw).
  split; [exact Hb | apply write_to_is_write; exact Hw].
Qed.

(** X11. An extraction that fails has stored nothing: the file system is
    as it was and no write was attempted.  When the page was not cached, the
    calls made on the session are an initial part, never empty, of the fixed
    sequence [extraction_calls], and the last thing the function did is to
    report the error it raises on [console.error]. *)
Theorem extractContent_failure_stores_nothing (cfg : Config) (page : Page)
    (url title : string) (w : World) (error : JsError) :
  fst (extractContent cfg page url title w) = Throw error ->
  files (snd (extractContent cfg page url title w)) = files w
  /\ List.filter is_write (added_by (extractContent cfg page url title) w) = []
  /\ (truthy (cache_value cfg url (files w)) = false ->
      (exists n, 1 <= n
         /\ List.filter is_browser_call (added_by (extractContent cfg page url title) w)
            = firstn n (extraction_calls cfg url))
      /\ List.last (trace (snd (extractContent cfg page url title w))) EvClose
         = EvConsoleError
             ("[ERROR] " +:+ ("Failed to extract content from " +:+ url +:+ ":"))
             [ArgError error]).
Proof.
  intros Hfail.
  destruct (truthy (cache_value cfg url (files w))) eqn:Hmiss.
  - (* a record was found: only the conversion of its title can fail *)
    destruct (getFromCache_spec cfg url
                (record (EvConsoleLog (nl +:+ "=== " +:+ ("Extracting Content: " +:+ title)
                                       +:+ " ===") []) w))
      as [added0 [Hget Hadded]].
    assert (Hrun : extractContent cfg page url title w
                   = (Throw error,
                      {| files := files w; write_refused := write_refused w;
                         mkdir_refused := mkdir_refused w; rm_refused := rm_refused w;
                         trace := trace w ++ extraction_started title :: added0 |})).
    { destruct (extractContent cfg page url title w) as [r wf] eqn:Hrun.
      cbn [fst] in Hfail. subst r.
      rewrite extractContent_unfold in Hrun. unfold bind at 1, log_section, call in Hrun.
      unfold bind at 1 in Hrun. rewrite Hget in Hrun.
      cbn [files record write_refused mkdir_refused rm_refused trace] in Hrun.
      rewrite Hmiss in Hrun. unfold bind, lift, log_info, call, ret in Hrun.
      destruct (toStr (get_prop (cache_value cfg url (files w)) "title")) as [t | e];
        [discriminate |].
      injection Hrun as <- <-. rewrite <- app_assoc. reflexivity. }
    split; [rewrite Hrun; reflexivity |].
    split; [| discriminate].
    rewrite (added_by_app _ w (extraction_started title :: added0)); [| rewrite Hrun; reflexivity].
    cbn [List.filter extraction_started is_write]. apply filter_Forall_false.
    eapply List.Forall_impl; [| exact Hadded]. intros e He.
    apply write_to_is_write. apply He.
  - destruct (extractContent_miss cfg page url title w Hmiss) as [added0 [Hrun Hadded]].
    rewrite Hrun in Hfail |- *.
    match type of Hfail with
    | fst (fetch_content _ _ _ _ ?w0) = _ =>
        destruct (fetch_content_run cfg page url title w0)
          as (added & n & Ht & Hcalls & Hn & Hout)
    end.
    rewrite Hfail in Hout. destruct Hout as (Hfiles & Hwrites & Hlast).
    cbn [trace files] in Ht, Hfiles. rewrite <- app_assoc in Ht.
    assert (Hadd : added_by (extractContent cfg page url title) w
                   = (extraction_started title :: added0) ++ added).
    { apply added_by_app. rewrite Hrun. exact Ht. }
    split; [exact Hfiles |]. rewrite Hadd, !List.filter_app.
    split; [| intros _; split].
    + rewrite (filter_Forall_false is_write added Hwrites), app_nil_r.
      cbn [List.filter extraction_started is_write]. apply filter_Forall_false.
      eapply List.Forall_impl; [| exact Hadded]. intros e He. apply He.
    + exists n. split; [exact Hn |]. rewrite Hcalls.
      cbn [List.filter extraction_started is_browser_call].
      rewrite (filter_Forall_false is_browser_call added0); [reflexivity |].
      eapply List.Forall_impl; [| exact Hadded]. intros e He. apply He.
    + rewrite Ht. destruct added as [| ev added'] using rev_ind; [discriminate Hlast |].
      rewrite last_last in Hlast. rewrite !app_assoc, last_last. exact Hlast.
Qed.


Lemma get_prop_falsy (v : JsValue) (key : string) :
  truthy v = false -> get_prop v key = JsUndefined.
Proof. destruct v; try reflexivity; discriminate. Qed.

(** X13. Each missing piece has its own error.  On a page that is not
    cached and whose navigation succeeds: when the wait for the [iframe]
    fails, the extraction fails with [Timeout waiting for iframe: ] followed
    by the message of that failure, the session having been asked to
    navigate and to wait and nothing more; when the wait succeeds, without
    an [iframe] handle it fails with [No iframe found]; with a handle but no
    frame, with [Failed to get iframe content]; when the value evaluated in
    the frame has a truthy [error], with that error as message; and when
    that value is falsy, with [No content found]. *)
Theorem extractContent_named_failures (cfg : Config) (page : Page) (url title : string)
    (w : World) :
  truthy (cache_value cfg url (files w)) = false ->
  (forall h, goto page h url = Ok tt) ->
  (forall error,
     (forall h, waitForSelector page h (sel_iframe (SELECTORS cfg)) = Throw error) ->
     fst (extractContent cfg page url title w)
     = Throw (Error ("Timeout waiting for iframe: " +:+ message error))
     /\ List.filter is_browser_call (added_by (extractContent cfg page url title) w)
        = [ EvGoto url;
            EvWaitForSelector (sel_iframe (SELECTORS cfg)) (Some (TIMEOUT cfg)) ])
  /\ ((forall h, waitForSelector page h (sel_iframe (SELECTORS cfg)) = Ok tt) ->
      ((forall h, query page h (sel_iframe (SELECTORS cfg)) = Ok None) ->
       fst (extractContent cfg page url title w) = Throw (Error "No iframe found"))
      /\ (forall handle,
            (forall h, query page h (sel_iframe (SELECTORS cfg)) = Ok (Some handle)) ->
            (forall h, contentFrame handle h = Ok None) ->
            fst (extractContent cfg page url title w)
            = Throw (Error "Failed to get iframe content"))
      /\ (forall handle frame content,
            (forall h, query page h (sel_iframe (SELECTORS cfg)) = Ok (Some handle)) ->
            (forall h, contentFrame handle h = Ok (Some frame)) ->
            (forall h, frame_waitForSelector frame h "body" = Ok tt) ->
            (forall h, frame_evaluate frame h = Ok content) ->
            (forall msg,
               truthy (get_prop content "error") = true ->
               toStr (get_prop content "error") = Ok msg ->
               fst (extractContent cfg page url title w) = Throw (Error msg))
            /\ (truthy content = false ->
                fst (extractContent cfg page url title w)
                = Throw (Error "No content found")))).
Proof.
  intros Hmiss Hgoto.
  destruct (extractContent_miss cfg page url title w Hmiss) as [added0 [Hrun Hadded]].
  split.
  - intros error Hwait.
    destruct (extractContent cfg page url title w) as [r wf] eqn:Hext.
    symmetry in Hrun.
    unfold fetch_content, try_catch, bind, extractFrameContent, log_error, call, throw,
      lift, ret in Hrun.
    rewrite Hgoto, Hwait in Hrun. cbn [fst snd trace record] in Hrun.
    injection Hrun as <- Hwf. split; [reflexivity |].
    rewrite (added_by_app _ w
               ((extraction_started title :: added0)
                ++ [ EvGoto url;
                     EvWaitForSelector (sel_iframe (SELECTORS cfg)) (Some (TIMEOUT cfg));
                     EvConsoleError
                       ("[ERROR] " +:+ ("Failed to extract content from " +:+ url +:+ ":"))
                       [ArgError (Error ("Timeout waiting for iframe: "
                                         +:+ message error))] ])).
    + rewrite List.filter_app. cbn [List.filter extraction_started is_browser_call].
      rewrite (filter_Forall_false is_browser_call added0); [reflexivity |].
      eapply List.Forall_impl; [| exact Hadded]. intros e He. apply He.
    + rewrite Hext. cbn [snd]. rewrite <- Hwf. cbn [trace record].
      rewrite <- !app_assoc. reflexivity.
  - intros Hwait. rewrite Hrun. clear Hrun.
    unfold fetch_content, try_catch, bind, extractFrameContent, log_error, call, throw,
      lift, ret.
    rewrite Hgoto, Hwait. cbn [fst snd trace record].
    split; [| split].
    + intros Hquery. rewrite Hquery. reflexivity.
    + intros handle Hquery Hframe. rewrite Hquery, Hframe. reflexivity.
    + intros handle frame content Hquery Hframe Hbody Hcontent.
      rewrite Hquery, Hframe, Hbody, Hcontent. cbn [fst snd trace record]. split.
      * intros msg Herror Hmsg. rewrite Herror, Hmsg, orb_true_r. reflexivity.
      * intros Hfalsy. rewrite Hfalsy, (get_prop_falsy content "error" Hfalsy). reflexivity.
Qed.

(** X14. A page extracted once is served from the cache afterwards: with
    caching enabled, when a page that was not cached is extracted with
    success, its cache file can be written and the runtime reads back the
    record it serialised, a second extraction of the same URL, on any
    session and under any title, returns the same record and makes no call
    on the session. *)
Theorem extractContent_then_cached (cfg : Config) (page page' : Page)
    (url title title' : string) (w : World) (result : JsValue) (text : string) :
  USE_CACHE cfg = true ->
  truthy (cache_value cfg url (files w)) = false ->
  fst (extractContent cfg page url title w) = Ok result ->
  JSON_stringify result = Ok (Some text) ->
  JSON_parse text = Ok result ->
  files w !! getCacheKey cfg url <> Some Unreadable ->
  write_refused w (getCacheKey cfg url) = false ->
  fst (extractContent cfg page' url title' (snd (extractContent cfg page url title w)))
  = Ok result
  /\ List.filter is_browser_call
       (added_by (extractContent cfg page' url title')
          (snd (extractContent cfg page url title w)))
     = [].
Proof.
  intros Hon Hmiss Hok Hjson Hparse Hreadable Hwritable.
  destruct (extractContent_miss cfg page url title w Hmiss) as [added0 [Hrun _]].
  assert (Hstored : exists content,
            result = page_record title content
            /\ files (snd (extractContent cfg page url title w))
               = <[getCacheKey cfg url := FileData text]> (files w)).
  { rewrite Hrun in Hok |- *.
    match type of Hok with
    | fst (fetch_content _ _ _ _ ?w0) = _ =>
        destruct (fetch_content_run cfg page url title w0)
          as (added & n & _ & _ & _ & Hout)
    end.
    rewrite Hok in Hout. destruct Hout as (_ & Hfiles & content & Hresult & _).
    exists content. split; [exact Hresult |]. rewrite Hfiles.
    unfold cache_after. cbn [files write_refused]. rewrite Hon, Hjson, Hwritable.
    destruct (files w !! getCacheKey cfg url) as [[old |] |]; try reflexivity.
    contradiction Hreadable. reflexivity. }
  destruct Hstored as [content [Hresult Hfiles]].
  set (w1 := snd (extractContent cfg page url title w)) in *.
  assert (Hhit : fst (getFromCache cfg url w1) = Ok result).
  { destruct (getFromCache_spec cfg url w1) as [added1 [-> _]]. cbn [fst]. f_equal.
    unfold cache_value. rewrite Hon, Hfiles, lookup_insert_eq, Hparse. reflexivity. }
  assert (Htruthy : truthy result = true) by (rewrite Hresult; reflexivity).
  assert (Htitle : is_ok (toStr (get_prop result "title")) = true)
    by (rewrite Hresult; reflexivity).
  destruct (extractContent_hit_run cfg page' url title' w1 result Hhit Htruthy Htitle)
    as [added1 [Hrun1 [Hcalls _]]].
  rewrite Hrun1. split; [reflexivity |].
  rewrite (added_by_app _ w1 added1); [| rewrite Hrun1; reflexivity].
  apply filter_Forall_false. exact Hcalls.
Qed.

(** X15. With caching disabled, [extractContent] makes no call to the file
    system, neither to look the page up nor to store it, and leaves every
    file as it was. *)
Theorem extractContent_without_cache (cfg : Config) (page : Page) (url title : string)
    (w : World) :
  USE_CACHE cfg = false ->
  List.filter is_fs_call (added_by (extractContent cfg page url title) w) = []
  /\ files (snd (extractContent cfg page url title w)) = files w.
Proof.
  intros Hoff.
  assert (Hadds : adds (fun e => is_fs_call e = false) (extractContent cfg page url title)).
  { unfold extractContent, getFromCache, saveToCache. rewrite Hoff. cbn [negb].
    unfold extractFrameContent. frame_with ltac:(reflexivity). }
  assert (Htouch : touches_only (fun _ => false) (extractContent cfg page url title)).
  { unfold extractContent, getFromCache, saveToCache. rewrite Hoff. cbn [negb].
    unfold extractFrameContent. untouched. }
  split.
  - apply filter_Forall_false. apply (adds_added_by _ _ w Hadds).
  - apply map_eq. intros f. apply (Htouch w). reflexivity.
Qed.

End ContentFacts.

(** ** The orchestrator, continued *)

Section RunFrames.

Context `{Json}.

Lemma discover_touches (Q : string -> bool) (cfg : Config) (page : Page) :
  touches_only Q (discover cfg page).
Proof. unfold discover. untouched. Qed.

Lemma extractLinks_loop_touches (Q : string -> bool) (cfg : Config) (page : Page)
    (n attempts : nat) (w : World) :
  maxRetries - attempts = n ->
  write_refused (snd (extractLinks_loop cfg page attempts w)) = write_refused w
  /\ mkdir_refused (snd (extractLinks_loop cfg page attempts w)) = mkdir_refused w
  /\ rm_refused (snd (extractLinks_loop cfg page attempts w)) = rm_refused w
  /\ forall f, Q f = false ->
       files (snd (extractLinks_loop cfg page attempts w)) !! f = files w !! f.
Proof.
  revert attempts w. induction n as [|n IH]; intros attempts w Hn;
    rewrite extractLinks_loop_turn;
    destruct (lt_dec attempts maxRetries) as [Hlt | Hge]; try lia;
    try (simpl; auto; fail).
  destruct (discover_touches Q cfg page w) as (Hw & Hd & Hr & Hf).
  destruct (discover cfg page w) as [[links | error] w1]; cbn [snd] in *.
  { auto. }
  destruct (includes (message error) "429"); [simpl; auto |].
  destruct (Nat.eq_dec (S attempts) maxRetries) as [Heq | Hne]; [simpl; auto |].
  change (snd (call (EvSetTimeout 1000) (fun _ => Ok tt) w1))
    with (record (EvSetTimeout 1000) w1).
  destruct (IH (S attempts) (record (EvSetTimeout 1000) w1) ltac:(lia))
    as (Hw' & Hd' & Hr' & Hf').
  rewrite Hw', Hd', Hr'. repeat split; auto.
  intros f HQ. rewrite (Hf' f HQ). apply Hf. exact HQ.
Qed.

Lemma extractLinks_touches (Q : string -> bool) (cfg : Config) (page : Page) :
  touches_only Q (extractLinks cfg page).
Proof.
  intros w. unfold extractLinks.
  pose proof (extractLinks_loop_touches Q cfg page _ 0 w eq_refl) as Hloop.
  destruct (extractLinks_loop cfg page 0 w) as [[r n] w']. exact Hloop.
Qed.

Lemma extractContent_touches (cfg : Config) (page : Page) (url title : string) :
  touches_only (under (CACHE_DIR cfg)) (extractContent cfg page url title).
Proof.
  unfold extractContent, getFromCache, saveToCache, extractFrameContent. untouched.
Qed.

Lemma extract_pages_touches (cfg : Config) (page : Page) (links : list LinkRecord)
    (documentation : list DocRecord) :
  touches_only (under (CACHE_DIR cfg)) (extract_pages cfg page links documentation).
Proof.
  revert documentation. induction links as [|link rest IH]; intros documentation; simpl.
  - apply touches_ret.
  - apply touches_bind; [apply extractContent_touches | intros content; apply IH].
Qed.

Lemma cache_in_cache_or_output (cfg : Config) (f : string) :
  under (CACHE_DIR cfg) f = true -> cache_or_output cfg f = true.
Proof. intros Hf. unfold cache_or_output. rewrite Hf. reflexivity. Qed.

Lemma scrape_with_touches (cfg : Config) (page : Page) :
  touches_only (cache_or_output cfg) (scrape_with cfg page).
Proof.
  unfold scrape_with.
  apply touches_bind; [apply extractLinks_touches | intros [links |]; [| apply touches_throw]].
  apply touches_bind; [apply touches_log_info | intros _].
  apply touches_bind.
  { eapply touches_only_weaken; [apply cache_in_cache_or_output | apply extract_pages_touches]. }
  intros documentation.
  apply touches_bind; [apply touches_log_info | intros _].
  apply touches_bind; [apply touches_lift | intros html].
  apply touches_bind; [apply touches_fs_mkdir | intros _].
  apply touches_bind; [| intros _; apply touches_log_info].
  apply touches_fs_writeFile. unfold cache_or_output.
  rewrite String.eqb_refl. apply orb_true_r.
Qed.

Lemma startup_touches (cfg : Config) (CLEAR_CACHE : bool) :
  touches_only (under (CACHE_DIR cfg)) (startup cfg CLEAR_CACHE).
Proof.
  unfold startup.
  apply touches_bind; [apply touches_log_section | intros _].
  apply touches_bind; [apply touches_log_info | intros _].
  apply touches_bind; [destruct CLEAR_CACHE; [apply touches_log_info | apply touches_ret] |].
  intros _. apply initializeCache_touches.
Qed.

Lemma acquire_page_touches (Q : string -> bool) (cfg : Config) (puppeteer : Puppeteer)
    (testPage : option Page) :
  touches_only Q (acquire_page cfg puppeteer testPage).
Proof. unfold acquire_page, createBrowser. untouched. Qed.

Lemma scrapeDocumentation_touches (cfg : Config) (CLEAR_CACHE : bool)
    (puppeteer : Puppeteer) (testPage : option Page) :
  touches_only (cache_or_output cfg) (scrapeDocumentation cfg CLEAR_CACHE puppeteer testPage).
Proof.
  unfold scrapeDocumentation.
  apply touches_bind.
  { eapply touches_only_weaken; [apply cache_in_cache_or_output | apply startup_touches]. }
  intros _. destruct CLEAR_CACHE; [apply touches_log_info |].
  apply touches_bind.
  { apply touches_try_catch; [apply acquire_page_touches |].
    intros e. unfold scraping_failed. untouched. }
  intros [browser page]. apply touches_try_finally.
  - apply touches_try_catch; [apply scrape_with_touches |].
    intros e. unfold scraping_failed. untouched.
  - destruct browser; [apply touches_call | apply touches_ret].
Qed.

(** X16. A run changes no file other than those of the cache directory and
    the output file, whatever its flags, the session and the outcome: any
    other path holds afterwards what it held before. *)
Theorem run_changes_only_cache_and_output (cfg : Config) (CLEAR_CACHE : bool)
    (puppeteer : Puppeteer) (testPage : option Page) (w : World) (f : string) :
  under (CACHE_DIR cfg) f = false ->
  f <> outputPath cfg ->
  files (snd (scrapeDocumentation cfg CLEAR_CACHE puppeteer testPage w)) !! f
  = files w !! f.
Proof.
  intros Hcache Hout.
  apply (scrapeDocumentation_touches cfg CLEAR_CACHE puppeteer testPage w).
  unfold cache_or_output. rewrite Hcache. simpl.
  apply String.eqb_neq. exact Hout.
Qed.

Lemma extractLinks_adds (P : Event -> Prop) (cfg : Config) (page : Page) :
  adds P (discover cfg page) ->
  P (EvConsoleError "[ERROR] Rate limit exceeded" []) ->
  (forall error, P (EvConsoleError "[ERROR] Failed to extract links:" [ArgError error])) ->
  P (EvSetTimeout 1000) ->
  adds P (extractLinks cfg page).
Proof.
  intros Hdiscover Hrate Hfailed Hdelay.
  assert (Hloop : forall n attempts w, maxRetries - attempts = n ->
            exists added,
              trace (snd (extractLinks_loop cfg page attempts w)) = trace w ++ added
              /\ Forall P added).
  { induction n as [|n IH]; intros attempts w Hn;
      rewrite extractLinks_loop_turn;
      destruct (lt_dec attempts maxRetries) as [Hlt | Hge]; try lia;
      try (exists []; simpl; rewrite app_nil_r; split; [reflexivity | constructor]).
    destruct (Hdiscover w) as [added1 [Ht1 Hq1]].
    destruct (discover cfg page w) as [[links | error] w1]; simpl in Ht1.
    { exists added1. auto. }
    destruct (includes (message error) "429").
    { exists (added1 ++ [EvConsoleError "[ERROR] Rate limit exceeded" []]).
      simpl. rewrite Ht1, app_assoc. split; [reflexivity |].
      apply Forall_app. split; [exact Hq1 | repeat constructor; exact Hrate]. }
    destruct (Nat.eq_dec (S attempts) maxRetries) as [Heq | Hne].
    { eexists (added1 ++ [_]). simpl. rewrite Ht1, app_assoc. split; [reflexivity |].
      apply Forall_app. split; [exact Hq1 | repeat constructor; apply Hfailed]. }
    destruct (IH (S attempts) (record (EvSetTimeout 1000) w1) ltac:(lia))
      as [added2 [Ht2 Hq2]].
    exists (added1 ++ EvSetTimeout 1000 :: added2).
    change (snd (call (EvSetTimeout 1000) (fun _ => Ok tt) w1))
      with (record (EvSetTimeout 1000) w1).
    rewrite Ht2. simpl. rewrite Ht1, <- !app_assoc. simpl.
    split; [reflexivity |].
    apply Forall_app. split; [exact Hq1 |]. constructor; [exact Hdelay | exact Hq2]. }
  intros w. unfold extractLinks.
  destruct (Hloop _ 0 w eq_refl) as [added [Ht Hq]].
  destruct (extractLinks_loop cfg page 0 w) as [[r n] w']. simpl in *. eauto.
Qed.

Lemma extract_pages_adds (P : Event -> Prop) (cfg : Config) (page : Page)
    (links : list LinkRecord) (documentation : list DocRecord) :
  (forall url title, adds P (extractContent cfg page url title)) ->
  adds P (extract_pages cfg page links documentation).
Proof.
  intros Hcontent. revert documentation.
  induction links as [|link rest IH]; intros documentation; simpl.
  - apply adds_ret.
  - apply adds_bind; [apply Hcontent | intros content; apply IH].
Qed.

(** Neither the discovery nor the extraction of the pages nor the assembly
    starts or stops a browser. *)
Lemma scrape_with_no_lifecycle (cfg : Config) (page : Page) :
  adds (fun e => is_lifecycle e = false) (scrape_with cfg page).
Proof.
  unfold scrape_with.
  apply adds_bind.
  { apply extractLinks_adds; try reflexivity.
    unfold discover. frame_with ltac:(reflexivity). }
  intros [links |]; [| apply adds_throw].
  apply adds_bind; [frame_with ltac:(reflexivity) | intros _].
  apply adds_bind.
  { apply extract_pages_adds. intros url title.
    unfold extractContent, getFromCache, saveToCache, extractFrameContent.
    frame_with ltac:(reflexivity). }
  intros documentation. frame_with ltac:(reflexivity).
Qed.

Lemma startup_no_lifecycle (cfg : Config) (CLEAR_CACHE : bool) :
  adds (fun e => is_lifecycle e = false) (startup cfg CLEAR_CACHE).
Proof. unfold startup, initializeCache. frame_with ltac:(reflexivity). Qed.

(** X17. With [--clear-cache] a run does nothing but clear the cache:
    besides the lines it writes on the console, it removes the cache
    directory and creates it again, and stops, without starting a browser,
    without any call on a session and without writing a file; it succeeds
    exactly when the directory can be created. *)
Theorem clear_cache_run (cfg : Config) (puppeteer : Puppeteer) (testPage : option Page)
    (w : World) :
  List.filter (fun e => negb (is_console e))
    (added_by (scrapeDocumentation cfg true puppeteer testPage) w)
  = [EvRm (CACHE_DIR cfg); EvMkdir (CACHE_DIR cfg)]
  /\ is_ok (fst (scrapeDocumentation cfg true puppeteer testPage w))
     = negb (mkdir_refused w (CACHE_DIR cfg)).
Proof.
  assert (Hrun : exists added,
            trace (snd (scrapeDocumentation cfg true puppeteer testPage w))
            = trace w ++ added
            /\ List.filter (fun e => negb (is_console e)) added
               = [EvRm (CACHE_DIR cfg); EvMkdir (CACHE_DIR cfg)]
            /\ is_ok (fst (scrapeDocumentation cfg true puppeteer testPage w))
               = negb (mkdir_refused w (CACHE_DIR cfg))).
  { unfold scrapeDocumentation, startup, initializeCache, bind, try_catch, fs_rm,
      fs_mkdir, log_section, log_info, log_error, call, ret.
    cbn [fst snd record rm_refused mkdir_refused trace].
    destruct (rm_refused w (CACHE_DIR cfg));
      cbn [fst snd record with_files rm_refused mkdir_refused trace];
      destruct (mkdir_refused w (CACHE_DIR cfg));
      cbn [fst snd record with_files rm_refused mkdir_refused trace];
      rewrite <- ?app_assoc; cbn [app];
      eexists; (split; [reflexivity |]); split; reflexivity. }
  destruct Hrun as [added [Ht [Hf Hok]]].
  rewrite (added_by_app _ w added Ht). auto.
Qed.

Lemma createBrowser_lifecycle (cfg : Config) (puppeteer : Puppeteer) (w : World) :
  exists added,
    trace (snd (createBrowser cfg puppeteer w)) = trace w ++ added
    /\ match fst (createBrowser cfg puppeteer w) with
       | Ok _ =>
           List.filter is_lifecycle added
           = [EvLaunch; EvNewPage; EvSetDefaultTimeout (TIMEOUT cfg)]
       | Throw _ =>
           exists n, 1 <= n <= 3
             /\ List.filter is_lifecycle added
                = firstn n [EvLaunch; EvNewPage; EvSetDefaultTimeout (TIMEOUT cfg)]
       end.
Proof.
  unfold createBrowser, try_catch, bind, log_info, log_error, call, throw, ret.
  cbn [fst snd trace record].
  destruct (launch puppeteer (trace w)) as [browser | e]; cbn [fst snd trace record].
  2:{ eexists. rewrite <- ?app_assoc. cbn [app]. split; [reflexivity |].
      exists 1. split; [lia | reflexivity]. }
  destruct (newPage browser _) as [page | e]; cbn [fst snd trace record].
  2:{ eexists. rewrite <- ?app_assoc. cbn [app]. split; [reflexivity |].
      exists 2. split; [lia | reflexivity]. }
  destruct (setDefaultTimeout page _ _) as [[] | e]; cbn [fst snd trace record].
  2:{ eexists. rewrite <- ?app_assoc. cbn [app]. split; [reflexivity |].
      exists 3. split; [lia | reflexivity]. }
  eexists. rewrite <- ?app_assoc. cbn [app]. split; reflexivity.
Qed.

(** X18. The life of the browser.  A run on a supplied page starts and
    stops no browser.  A run that owns its browser launches it, opens a
    page, sets the default timeout and, once that has succeeded, closes the
    browser exactly once, as its last call on it, whether the scraping
    succeeded or failed; but when the set-up fails after the launch (the
    page cannot be opened, or the timeout cannot be set), the browser that
    was launched is never closed. *)
Theorem browser_lifecycle (cfg : Config) (puppeteer : Puppeteer) (w : World) :
  (forall page CLEAR_CACHE,
     List.filter is_lifecycle
       (added_by (scrapeDocumentation cfg CLEAR_CACHE puppeteer (Some page)) w) = [])
  /\ match fst (startup cfg false w) with
     | Throw _ =>
         List.filter is_lifecycle
           (added_by (scrapeDocumentation cfg false puppeteer None) w) = []
     | Ok _ =>
         match fst (createBrowser cfg puppeteer (snd (startup cfg false w))) with
         | Ok _ =>
             List.filter is_lifecycle
               (added_by (scrapeDocumentation cfg false puppeteer None) w)
             = [EvLaunch; EvNewPage; EvSetDefaultTimeout (TIMEOUT cfg); EvClose]
         | Throw _ =>
             exists n, 1 <= n <= 3
               /\ List.filter is_lifecycle
                    (added_by (scrapeDocumentation cfg false puppeteer None) w)
                  = firstn n [EvLaunch; EvNewPage; EvSetDefaultTimeout (TIMEOUT cfg)]
         end
     end.
Proof.
  assert (Hbody : forall page,
            adds (fun e => is_lifecycle e = false)
              (try_catch (scrape_with cfg page) (@scraping_failed unit))).
  { intros page. apply adds_try_catch; [apply scrape_with_no_lifecycle |].
    intros e. unfold scraping_failed. frame_with ltac:(reflexivity). }
  split.
  - intros page CLEAR_CACHE. apply filter_Forall_false.
    assert (Hrun : adds (fun e => is_lifecycle e = false)
              (startup cfg CLEAR_CACHE >>>
               if CLEAR_CACHE then log_info "Cache cleared. Exiting..." []
               else try_finally (try_catch (scrape_with cfg page) scraping_failed)
                      (ret tt))).
    { apply adds_bind; [apply startup_no_lifecycle | intros _].
      destruct CLEAR_CACHE; [frame_with ltac:(reflexivity) |].
      apply adds_try_finally; [apply Hbody | apply adds_ret]. }
    destruct (adds_added_by _ _ w Hrun) as [_ Hadded].
    replace (added_by (scrapeDocumentation cfg CLEAR_CACHE puppeteer (Some page)) w)
      with (added_by (startup cfg CLEAR_CACHE >>>
                      if CLEAR_CACHE then log_info "Cache cleared. Exiting..." []
                      else try_finally (try_catch (scrape_with cfg page) scraping_failed)
                             (ret tt)) w); [exact Hadded |].
    unfold added_by, scrapeDocumentation, bind.
    destruct (startup cfg CLEAR_CACHE w) as [[u | e] ws]; [| reflexivity].
    destruct CLEAR_CACHE; reflexivity.
  - destruct (startup_no_lifecycle cfg false w) as [added_s [Hts Hqs]].
    pose proof (filter_Forall_false _ _ Hqs) as Hfs.
    destruct (scrapeDocumentation cfg false puppeteer None w) as [r wf] eqn:Hrun.
    pose proof Hrun as Hrun0.
    unfold scrapeDocumentation, bind in Hrun.
    destruct (startup cfg false w) as [[u | e] ws]; cbn [fst snd] in *.
    2:{ injection Hrun as _ <-.
        rewrite (added_by_run _ _ _ _ _ Hrun0 Hts). exact Hfs. }
    destruct (createBrowser_lifecycle cfg puppeteer ws) as [added_c [Htc Hc]].
    unfold try_catch at 1, acquire_page, bind in Hrun.
    destruct (createBrowser cfg puppeteer ws) as [[[b page] | e] wc];
      cbn [fst snd ret] in *.
    + destruct (Hbody page wc) as [added_b [Htb Hqb]].
      pose proof (filter_Forall_false _ _ Hqb) as Hfb.
      unfold try_finally in Hrun.
      destruct (try_catch (scrape_with cfg page) scraping_failed wc) as [rb wb].
      cbn [snd] in Htb.
      assert (Ht : trace wf = trace w ++ added_s ++ added_c ++ added_b ++ [EvClose]).
      { unfold call in Hrun.
        destruct (close b (trace wb)); injection Hrun as _ <-;
          cbn [record trace]; rewrite Htb, Htc, Hts, <- !app_assoc; reflexivity. }
      rewrite (added_by_run _ _ _ _ _ Hrun0 Ht).
      rewrite !List.filter_app, Hfs, Hc, Hfb. reflexivity.
    + destruct Hc as [n [Hn Hc]]. exists n. split; [exact Hn |].
      unfold scraping_failed, bind, log_error, call, throw in Hrun.
      injection Hrun as _ <-.
      rewrite (added_by_run _ _ _ _ (added_s ++ added_c
                 ++ [EvConsoleError "[ERROR] Scraping failed:" [ArgError e]]) Hrun0).
      * rewrite !List.filter_app, Hfs, Hc. cbn [List.filter is_lifecycle app].
        apply app_nil_r.
      * cbn [record trace]. rewrite Htc, Hts, <- !app_assoc. reflexivity.
Qed.



(** The records pushed by the loop over the pages carry the texts and the
    sections of the links, in order. *)
Lemma extract_pages_documentation (cfg : Config) (page : Page) (links : list LinkRecord)
    (documentation result : list DocRecord) (w : World) :
  fst (extract_pages cfg page links documentation w) = Ok result ->
  map title result = map title documentation ++ map text links
  /\ map section result
     = map section documentation
       ++ map (fun link => section_or_default (link_section link)) links.
Proof.
  revert documentation w. induction links as [|link rest IH]; intros documentation w Hok.
  - simpl in Hok. injection Hok as <-. rewrite !app_nil_r. split; reflexivity.
  - simpl in Hok. unfold bind in Hok.
    destruct (extractContent cfg page (url link) (text link) w) as [[content | e] w1];
      [| discriminate].
    destruct (IH _ _ Hok) as [Ht Hs]. rewrite Ht, Hs, !map_app, <- !app_assoc.
    split; reflexivity.
Qed.

(** A scraping that completes has discovered links, and the output file
    holds the document assembled from the records of the pages to
    process. *)
Lemma scrape_with_document (cfg : Config) (page : Page) (w : World) :
  fst (scrape_with cfg page w) = Ok tt ->
  exists (w1 : World) (links : list LinkRecord) (documentation : list DocRecord)
         (html : string),
    extractLinks cfg page w = (Ok (Some links), w1)
    /\ (let pagesToProcess :=
          if DEV_MODE cfg then firstn (DEV_PAGE_LIMIT cfg) links else links in
        map title documentation = map text pagesToProcess
        /\ map section documentation
           = map (fun link => section_or_default (link_section link)) pagesToProcess)
    /\ generateHTML cfg documentation = Ok html
    /\ files (snd (scrape_with cfg page w)) !! outputPath cfg = Some (FileData html).
Proof.
  intros Hok.
  destruct (scrape_with cfg page w) as [r wf] eqn:Hrun. cbn [fst snd] in *. subst r.
  unfold scrape_with, bind in Hrun.
  destruct (extractLinks cfg page w) as [[[links |] | e1] w1] eqn:Hlinks; try discriminate.
  unfold log_info at 1, call at 1 in Hrun.
  match type of Hrun with
  | context [extract_pages cfg page ?ps [] ?w2] =>
      pose proof (extract_pages_documentation cfg page ps []) as Hdocs;
      specialize (fun result => Hdocs result w2);
      destruct (extract_pages cfg page ps [] w2) as [[documentation | e2] w3]
  end; [| discriminate].
  specialize (Hdocs documentation eq_refl). cbn [map app] in Hdocs.
  unfold log_info at 1, call at 1, lift in Hrun.
  destruct (generateHTML cfg documentation) as [html | e3] eqn:Hhtml; [| discriminate].
  exists w1, links, documentation, html.
  split; [reflexivity | split; [exact Hdocs | split; [exact Hhtml |]]].
  unfold fs_mkdir in Hrun. cbn [record mkdir_refused] in Hrun.
  destruct (mkdir_refused w3 (OUTPUT_DIR cfg)); [discriminate |].
  unfold fs_writeFile, log_info, call in Hrun. cbn [record files write_refused] in Hrun.
  destruct (files w3 !! outputPath cfg) as [[old |] |];
    try destruct (write_refused w3 (outputPath cfg)); try discriminate;
    injection Hrun as <-; cbn [record with_files files]; apply lookup_insert_eq.
Qed.

(** The parts of a run that completes. *)
Lemma completed_run_parts (cfg : Config) (puppeteer : Puppeteer)
    (testPage : option Page) (w : World) :
  fst (scrapeDocumentation cfg false puppeteer testPage w) = Ok tt ->
  exists (browser : option Browser) (page : Page) (wa : World),
    acquire_page cfg puppeteer testPage (snd (startup cfg false w))
    = (Ok (browser, page), wa)
    /\ fst (scrape_with cfg page wa) = Ok tt
    /\ section_logs wa = section_logs w ++ [run_started]
    /\ output_writes cfg wa = output_writes cfg w
    /\ files (snd (scrapeDocumentation cfg false puppeteer testPage w))
       = files (snd (scrape_with cfg page wa))
    /\ section_logs (snd (scrapeDocumentation cfg false puppeteer testPage w))
       = section_logs (snd (scrape_with cfg page wa))
    /\ output_writes cfg (snd (scrapeDocumentation cfg false puppeteer testPage w))
       = output_writes cfg (snd (scrape_with cfg page wa)).
Proof.
  intros Hok.
  destruct (startup_observations cfg w) as [Hs0 Hw0].
  destruct (acquire_page_quiet cfg puppeteer testPage (snd (startup cfg false w)))
    as [added [Hta Hqa]].
  destruct (scrapeDocumentation cfg false puppeteer testPage w) as [r wf] eqn:Hrun.
  cbn [fst snd] in Hok |- *. subst r.
  unfold scrapeDocumentation, bind in Hrun.
  destruct (startup cfg false w) as [[u | e] ws]; cbn [snd] in *; [| discriminate].
  unfold try_catch at 1 in Hrun.
  destruct (acquire_page cfg puppeteer testPage ws) as [[[browser page] | e] wa];
    cbn [snd fst] in *.
  2:{ unfold scraping_failed, bind, log_error, call, throw in Hrun. discriminate. }
  destruct (quiet_observations cfg ws wa added Hta Hqa) as [Hsa Hwa].
  exists browser, page, wa. split; [reflexivity |].
  unfold try_finally, try_catch in Hrun.
  destruct (scrape_with cfg page wa) as [[[] | e] wb]; cbn [fst snd].
  - split; [reflexivity |]. rewrite Hsa, Hwa, Hs0, Hw0.
    split; [reflexivity | split; [reflexivity |]].
    destruct browser as [b |]; unfold call, ret in Hrun.
    + destruct (close b (trace wb)); [| discriminate]. injection Hrun as <-.
      unfold section_logs, output_writes. cbn [record trace files].
      rewrite !List.filter_app. cbn [List.filter is_section_log is_output_write].
      rewrite !app_nil_r. auto.
    + injection Hrun as <-. auto.
  - exfalso. unfold scraping_failed, bind, log_error, call, throw in Hrun.
    cbn [fst snd] in Hrun.
    destruct browser as [b |]; unfold call, ret in Hrun;
      [destruct (close b _) |]; discriminate.
Qed.

(** X20. In production mode (no ceiling on the number of pages), a run that
    completes has discovered a list of links, has started the extraction of
    every one of them, in discovery order, and has written one file outside
    the cache directory, the output file. *)
Theorem production_run_extracts_all (cfg : Config) (puppeteer : Puppeteer)
    (testPage : option Page) (w : World) :
  DEV_MODE cfg = false ->
  under (CACHE_DIR cfg) (outputPath cfg) = false ->
  fst (scrapeDocumentation cfg false puppeteer testPage w) = Ok tt ->
  exists (browser : option Browser) (page : Page) (wa w1 : World)
         (links : list LinkRecord),
    acquire_page cfg puppeteer testPage (snd (startup cfg false w))
    = (Ok (browser, page), wa)
    /\ extractLinks cfg page wa = (Ok (Some links), w1)
    /\ section_logs (snd (scrapeDocumentation cfg false puppeteer testPage w))
       = section_logs w
         ++ run_started :: map (fun link => extraction_started (text link)) links
    /\ exists html,
         output_writes cfg (snd (scrapeDocumentation cfg false puppeteer testPage w))
         = output_writes cfg w ++ [EvWriteFile (outputPath cfg) (Some html)].
Proof.
  intros Hprod Hout Hok.
  destruct (completed_run_parts cfg puppeteer testPage w Hok)
    as (browser & page & wa & Hacq & Hbody & Hsa & Hwa & _ & Hsf & Hwf).
  destruct (scrape_with_document cfg page wa Hbody) as (w1 & links & _ & _ & Hlinks & _).
  destruct (scrape_with_observations cfg page wa w1 links Hout Hlinks Hbody)
    as [Hs [html Hw]].
  rewrite Hprod in Hs.
  exists browser, page, wa, w1, links.
  split; [exact Hacq | split; [exact Hlinks |]].
  rewrite Hsf, Hwf, Hs, Hw, Hsa, Hwa, <- app_assoc. split; [reflexivity | eauto].
Qed.

(** X21. The document follows the links: after a run that completes, the
    output file holds the document [generateHTML] assembles from one record
    per page to process, in discovery order, whose title is the text of the
    link and whose section is the section of the link, [Reference] when the
    link has none. *)
Theorem output_document_follows_links (cfg : Config) (puppeteer : Puppeteer)
    (testPage : option Page) (w : World) :
  fst (scrapeDocumentation cfg false puppeteer testPage w) = Ok tt ->
  exists (browser : option Browser) (page : Page) (wa w1 : World)
         (links : list LinkRecord) (documentation : list DocRecord) (html : string),
    acquire_page cfg puppeteer testPage (snd (startup cfg false w))
    = (Ok (browser, page), wa)
    /\ extractLinks cfg page wa = (Ok (Some links), w1)
    /\ (let pagesToProcess :=
          if DEV_MODE cfg then firstn (DEV_PAGE_LIMIT cfg) links else links in
        map title documentation = map text pagesToProcess
        /\ map section documentation
           = map (fun link => section_or_default (link_section link)) pagesToProcess)
    /\ generateHTML cfg documentation = Ok html
    /\ files (snd (scrapeDocumentation cfg false puppeteer testPage w)) !! outputPath cfg
       = Some (FileData html).
Proof.
  intros Hok.
  destruct (completed_run_parts cfg puppeteer testPage w Hok)
    as (browser & page & wa & Hacq & Hbody & _ & _ & Hfiles & _).
  destruct (scrape_with_document cfg page wa Hbody)
    as (w1 & links & documentation & html & Hlinks & Hdocs & Hhtml & Hfile).
  exists browser, page, wa, w1, links, documentation, html.
  rewrite Hfiles. auto.
Qed.

End RunFrames.

(** ** The document assembler, continued *)

Lemma nat_of_ascii_hex_digit (n : nat) :
  n < 16 -> nat_of_ascii (hex_digit n) = if (n <? 10)%nat then 48 + n else 55 + n.
Proof.
  intros Hn. unfold hex_digit. apply nat_ascii_embedding.
  destruct (n <? 10)%nat; lia.
Qed.

Lemma hex_digit_unreserved (n : nat) : n < 16 -> uri_unreserved (hex_digit n) = true.
Proof.
  intros Hn. do 16 (destruct n as [|n]; [reflexivity |]). lia.
Qed.

Lemma hex_digit_inj (n m : nat) : n < 16 -> m < 16 -> hex_digit n = hex_digit m -> n = m.
Proof.
  intros Hn Hm Heq. apply (f_equal nat_of_ascii) in Heq.
  rewrite !nat_of_ascii_hex_digit in Heq by assumption.
  destruct (Nat.ltb_spec n 10), (Nat.ltb_spec m 10); lia.
Qed.

Lemma nat_of_ascii_parts (c : ascii) :
  nat_of_ascii c / 16 < 16 /\ nat_of_ascii c mod 16 < 16.
Proof.
  pose proof (nat_ascii_bounded c) as Hc. split.
  - apply Nat.Div0.div_lt_upper_bound. lia.
  - apply Nat.mod_upper_bound. lia.
Qed.

Lemma percent_encode_inj (c1 c2 : ascii) :
  percent_encode c1 = percent_encode c2 -> c1 = c2.
Proof.
  unfold percent_encode. intros [= Hhi Hlo].
  destruct (nat_of_ascii_parts c1) as [Hh1 Hl1], (nat_of_ascii_parts c2) as [Hh2 Hl2].
  assert (Hhi' : nat_of_ascii c1 / 16 = nat_of_ascii c2 / 16)
    by exact (hex_digit_inj _ _ Hh1 Hh2 Hhi).
  assert (Hlo' : nat_of_ascii c1 mod 16 = nat_of_ascii c2 mod 16)
    by exact (hex_digit_inj _ _ Hl1 Hl2 Hlo).
  rewrite <- (ascii_nat_embedding c1), <- (ascii_nat_embedding c2). f_equal.
  rewrite (Nat.div_mod_eq (nat_of_ascii c1) 16), (Nat.div_mod_eq (nat_of_ascii c2) 16).
  rewrite Hhi', Hlo'. reflexivity.
Qed.

Lemma encodeURIComponent_cons (c : ascii) (s : string) :
  encodeURIComponent (String c s)
  = if uri_unreserved c then String c (encodeURIComponent s)
    else String "%"%char
           (String (hex_digit (nat_of_ascii c / 16))
              (String (hex_digit (nat_of_ascii c mod 16)) (encodeURIComponent s))).
Proof. cbn [encodeURIComponent]. destruct (uri_unreserved c); reflexivity. Qed.

(** Distinct strings have distinct encodings. *)
Lemma encodeURIComponent_inj (s1 s2 : string) :
  encodeURIComponent s1 = encodeURIComponent s2 -> s1 = s2.
Proof.
  revert s2. induction s1 as [|c1 s1 IH]; intros [|c2 s2] Heq.
  - reflexivity.
  - rewrite encodeURIComponent_cons in Heq. cbn [encodeURIComponent] in Heq.
    destruct (uri_unreserved c2); discriminate.
  - rewrite encodeURIComponent_cons in Heq. cbn [encodeURIComponent] in Heq.
    destruct (uri_unreserved c1); discriminate.
  - rewrite !encodeURIComponent_cons in Heq.
    destruct (uri_unreserved c1) eqn:H1, (uri_unreserved c2) eqn:H2.
    + injection Heq as -> Heq. f_equal. apply IH. exact Heq.
    + injection Heq as -> _. discriminate H1.
    + injection Heq as <- _. discriminate H2.
    + injection Heq as Hhi Hlo Heq. f_equal; [| apply IH; exact Heq].
      apply percent_encode_inj.
      exact (f_equal2 (fun a b => String "%"%char (String a (String b EmptyString)))
               Hhi Hlo).
Qed.

Lemma NoDup_map_inj {A B} (f : A -> B) (l : list A) :
  (forall x y, f x = f y -> x = y) -> (List.NoDup (map f l) <-> List.NoDup l).
Proof.
  intros Hinj. induction l as [|x l IH]; simpl.
  - split; constructor.
  - split; intros Hnd; inversion Hnd as [| ? ? Hnotin Hrest]; subst; constructor.
    + intros Hin. apply Hnotin. apply in_map. exact Hin.
    + apply IH. exact Hrest.
    + intros Hin. apply in_map_iff in Hin. destruct Hin as [y [Hy Hin]].
      apply Hinj in Hy. subst y. contradiction.
    + apply IH. exact Hrest.
Qed.

(** X22. Two pages share an anchor only when they share a title: the ids of
    the viewer's wrappers are pairwise distinct exactly when the titles
    are, [encodeURIComponent] being one-to-one. *)
Theorem viewer_ids_distinct (documentation : list DocRecord) :
  List.NoDup (viewer_ids documentation) <-> List.NoDup (map title documentation).
Proof.
  unfold viewer_ids, viewer_wrappers. rewrite map_map.
  change (map (fun x => wrapper_id (wrapper_of x)) documentation)
    with (map (fun x => encodeURIComponent (title x)) documentation).
  rewrite <- (map_map title encodeURIComponent).
  apply NoDup_map_inj. apply encodeURIComponent_inj.
Qed.

Lemma every_char_excludes (p : ascii -> bool) (s : string) (c : ascii) :
  every_char p s = true -> p c = false -> includes s (String c EmptyString) = false.
Proof.
  intros Hs Hc. induction s as [|d s IH]; [reflexivity |].
  simpl in Hs. apply andb_true_iff in Hs. destruct Hs as [Hd Hs].
  cbn [includes startsWith]. rewrite (IH Hs), orb_false_r.
  destruct (Ascii.eqb_spec c d) as [-> | _]; [congruence | reflexivity].
Qed.

(** X23. An anchor cannot break out of its attribute: the encoding of a
    title consists of the characters [A-Z a-z 0-9 - _ . ! ~ * ' ( )] and
    [%] only, so that it contains no double quote, which would end the
    [href] or [id] attribute it is written in, and no [<], [>], [&], [#] or
    space. *)
Theorem encodeURIComponent_alphabet (s : string) :
  every_char (fun c => uri_unreserved c || Ascii.eqb c "%") (encodeURIComponent s) = true
  /\ Forall (fun c => includes (encodeURIComponent s) (String c EmptyString) = false)
       [ "034"; "<"; ">"; "&"; "#"; " " ]%char.
Proof.
  assert (Halpha : every_char (fun c => uri_unreserved c || Ascii.eqb c "%")
                     (encodeURIComponent s) = true).
  { induction s as [|c s IH]; [reflexivity |].
    rewrite encodeURIComponent_cons.
    destruct (nat_of_ascii_parts c) as [Hhi Hlo].
    destruct (uri_unreserved c) eqn:Hc; cbn [every_char].
    - rewrite Hc, IH. reflexivity.
    - rewrite (hex_digit_unreserved _ Hhi), (hex_digit_unreserved _ Hlo), IH. reflexivity. }
  split; [exact Halpha |].
  repeat constructor; apply (every_char_excludes _ _ _ Halpha); reflexivity.
Qed.

(** ** When the assembly succeeds *)




(** X25. Whenever a table of contents is produced, every page has its entry
    there: the anchor targets of the table are the ids of the viewer's
    wrappers, each as many times. *)
Theorem toc_anchor_for_every_page (documentation : list DocRecord)
    (sections : list (string * list TocItem)) :
  toc_sections documentation = Ok sections ->
  Permutation (toc_anchors sections) (viewer_ids documentation)
  /\ length (toc_anchors sections) = length documentation.
Proof.
  intros Hsections.
  pose proof (toc_anchors_match_viewer_ids documentation sections Hsections) as Hperm.
  split; [exact Hperm |].
  rewrite (Permutation_length Hperm). unfold viewer_ids, viewer_wrappers.
  rewrite !length_map. reflexivity.
Qed.

(** X26. For section labels that are neither array indices nor names of
    properties of [Object.prototype], the table of contents lists the
    sections in the order in which they first occur among the pages, and
    within a section the pages in their input order. *)
Theorem toc_keeps_first_seen_order (documentation : list DocRecord) :
  Forall (fun doc => inherited (label_of doc) = false
                     /\ array_index (label_of doc) = None) documentation ->
  rbind (toc_sections documentation) (fun sections => Ok (toc_headings sections))
  = Ok (first_seen (map label_of documentation))
  /\ toc_sections documentation
     = Ok (map (fun s =>
                  (s, map toc_item
                        (List.filter (fun doc => String.eqb (label_of doc) s)
                           documentation)))
             (first_seen (map label_of documentation))).
Proof.
  intros HF. rewrite (toc_sections_first_seen documentation HF).
  unfold grouped_first_seen, toc_headings. cbn [rbind].
  rewrite !map_map. cbn [fst snd]. split; [| reflexivity].
  f_equal. apply map_id.
Qed.

(** ** What the document contains *)

Lemma append_nil_r (s : string) : s +:+ EmptyString = s.
Proof. induction s as [|c s IH]; [reflexivity |]. rewrite append_cons, IH. reflexivity. Qed.

Lemma cat_app (a b : list string) : cat (a ++ b) = cat a +:+ cat b.
Proof.
  unfold cat. induction a as [|x a IH]; simpl; [reflexivity |].
  rewrite IH, append_assoc. reflexivity.
Qed.

Lemma occurs_in_refl (s : string) : occurs_in s s.
Proof. exists EmptyString, EmptyString. rewrite append_nil_l, append_nil_r. reflexivity. Qed.

Lemma occurs_in_trans (a b c : string) : occurs_in a b -> occurs_in b c -> occurs_in a c.
Proof.
  intros (p1 & q1 & ->) (p2 & q2 & ->).
  exists (p2 +:+ p1), (q1 +:+ q2). rewrite !append_assoc. reflexivity.
Qed.

Lemma occurs_in_cat_mid (pre mid post : list string) :
  occurs_in (cat mid) (cat (pre ++ mid ++ post)).
Proof. exists (cat pre), (cat post). rewrite !cat_app. reflexivity. Qed.

Lemma occurs_in_cat (x : string) (l : list string) : In x l -> occurs_in x (cat l).
Proof.
  intros Hin. apply in_split in Hin. destruct Hin as (pre & post & ->).
  apply (occurs_in_trans _ (cat [x])).
  - unfold cat. simpl. rewrite append_nil_r. apply occurs_in_refl.
  - apply (occurs_in_cat_mid pre [x] post).
Qed.

Lemma assoc_set_Forall {V} (P : string * V -> Prop) (k : string) (v : V)
    (acc : list (string * V)) :
  Forall P acc -> P (k, v) -> Forall P (assoc_set k v acc).
Proof.
  intros Hacc Hkv. induction Hacc as [|[k' v'] acc Hp Htail IH]; simpl; [constructor |].
  destruct (String.eqb_spec k k') as [-> | _]; constructor; auto.
Qed.

Lemma group_step_labels acc doc acc' :
  group_step acc doc = Ok acc' -> grouped_by_label acc -> grouped_by_label acc'.
Proof.
  unfold group_step, grouped_by_label. fold (label_of doc).
  destruct (assoc (label_of doc) acc) as [docs |] eqn:Hk.
  - intros [= <-] Hacc. apply assoc_set_Forall; [exact Hacc |]. cbn [fst snd].
    apply Forall_app. split; [| repeat constructor].
    apply assoc_Some_In in Hk. rewrite List.Forall_forall in Hacc.
    exact (Hacc _ Hk).
  - destruct (inherited (label_of doc)); [discriminate |].
    intros [= <-] Hacc. apply Forall_app. split; [exact Hacc |]. repeat constructor.
Qed.

Lemma reduce_group_labels docs acc acc' :
  reduce group_step docs acc = Ok acc' -> grouped_by_label acc -> grouped_by_label acc'.
Proof.
  revert acc. induction docs as [|d docs IH]; intros acc; simpl.
  - intros [= <-]. auto.
  - destruct (group_step acc d) as [acc1 | e] eqn:Hs; simpl; [| discriminate].
    intros Hr Hacc. apply (IH _ Hr). exact (group_step_labels _ _ _ Hs Hacc).
Qed.

Lemma generateTableOfContents_contains (documentation : list DocRecord) (toc : string)
    (doc : DocRecord) :
  generateTableOfContents documentation = Ok toc ->
  In doc documentation ->
  occurs_in (cat [ "      <h2>"; label_of doc; "</h2>" ]) toc
  /\ occurs_in (cat [ "              <a href="; dq; "#"; encodeURIComponent (title doc); dq;
                     ">"; title doc; "</a>" ]) toc.
Proof.
  unfold generateTableOfContents, toc_sections, group_by_section.
  destruct (reduce group_step documentation []) as [acc | e] eqn:Hr; simpl; [| discriminate].
  intros [= <-] Hdoc.
  pose proof (reduce_group_labels _ _ _ Hr (List.Forall_nil _)) as Hlabels.
  pose proof (reduce_group_docs _ _ _ Hr) as Hdocs. simpl in Hdocs.
  assert (Hentry : exists e, In e (Object_entries acc) /\ In doc (snd e)).
  { apply (Permutation_in doc (Permutation_sym Hdocs)) in Hdoc.
    apply in_flat_map in Hdoc. destruct Hdoc as [e [He Hd]].
    exists e. split; [| exact Hd].
    apply (Permutation_in e (Permutation_sym (Object_entries_perm acc))). exact He. }
  destruct Hentry as [e [He Hd]].
  assert (Hlabel : label_of doc = fst e).
  { unfold grouped_by_label in Hlabels. rewrite List.Forall_forall in Hlabels.
    apply (Permutation_in e (Object_entries_perm acc)) in He.
    specialize (Hlabels e He). rewrite List.Forall_forall in Hlabels. auto. }
  rewrite map_map.
  assert (Hsection : occurs_in (render_toc_section (fst e, map toc_item (snd e)))
                       (cat (map (fun x => render_toc_section (fst x, map toc_item (snd x)))
                               (Object_entries acc)))).
  { apply occurs_in_cat.
    apply (in_map (fun x => render_toc_section (fst x, map toc_item (snd x)))). exact He. }
  split; (eapply occurs_in_trans; [| exact Hsection]); unfold render_toc_section;
    cbn [fst snd].
  - rewrite Hlabel.
    apply (occurs_in_cat_mid [nl] [ "      <h2>"; fst e; "</h2>" ]
             [ nl; "      <div class="; dq; "subsection"; dq; ">"; nl;
               "        <ul>"; nl;
               "          "; cat (map render_toc_item (map toc_item (snd e))); nl;
               "        </ul>"; nl;
               "      </div>"; nl;
               "    " ]).
  - apply (occurs_in_trans _ (cat (map render_toc_item (map toc_item (snd e)))));
      [| apply occurs_in_cat; cbn [In]; repeat (first [left; reflexivity | right]) ].
    apply (occurs_in_trans _ (render_toc_item (toc_item doc)));
      [| apply occurs_in_cat; apply in_map, in_map; exact Hd ].
    unfold render_toc_item, toc_item. cbn [href label].
    apply (occurs_in_cat_mid [nl; "            <li>"; nl]
             [ "              <a href="; dq; "#"; encodeURIComponent (title doc); dq;
               ">"; title doc; "</a>" ]
             [ nl; "            </li>"; nl; "          " ]).
Qed.

Lemma generateContent_contains (documentation : list DocRecord) (viewer : string)
    (doc : DocRecord) :
  generateContent documentation = Ok viewer ->
  In doc documentation ->
  exists body,
    toStr (content doc) = Ok body
    /\ occurs_in (cat [ "      <div class="; dq; "manual"; dq; " id="; dq;
                       encodeURIComponent (title doc); dq; ">"; nl; "        "; body ])
         viewer.
Proof.
  unfold generateContent, viewer_wrappers.
  revert viewer. induction documentation as [|d docs IH]; intros viewer Hok Hdoc;
    [contradiction |].
  cbn [map map_join] in Hok. unfold render_wrapper at 1 in Hok.
  cbn [wrapper_of wrapper_content wrapper_id] in Hok.
  destruct (toStr (content d)) as [body | e] eqn:Hbody; cbn [rbind] in Hok;
    [| discriminate].
  destruct (map_join render_wrapper (map wrapper_of docs)) as [rest | e] eqn:Hrest;
    cbn [rbind] in Hok; [| discriminate].
  injection Hok as <-.
  destruct Hdoc as [<- | Hdoc].
  - exists body. split; [exact Hbody |].
    eapply occurs_in_trans; [| exists EmptyString, rest; rewrite append_nil_l; reflexivity].
    apply (occurs_in_cat_mid [nl]
             [ "      <div class="; dq; "manual"; dq; " id="; dq;
               encodeURIComponent (title d); dq; ">"; nl; "        "; body ]
             [ nl; "      </div>"; nl; "    " ]).
  - destruct (IH rest eq_refl Hdoc) as [body' [Hb Ho]].
    exists body'. split; [exact Hb |].
    eapply occurs_in_trans; [exact Ho |].
    match goal with
    | |- occurs_in _ (?pre +:+ _) => exists pre, EmptyString
    end.
    rewrite (append_nil_r rest). reflexivity.
Qed.

(** X27. Every page is in the document three times over: whenever the
    assembly succeeds, the document starts a [DOCTYPE], and for each page
    it holds a heading with the label of its section, a link whose target
    is [#] followed by the encoded title and whose text is the title as it
    is, and a wrapper whose [id] is the encoded title and which opens with
    the content converted to a string, as it is. *)
Theorem generateHTML_contains_pages (cfg : Config) (documentation : list DocRecord)
    (html : string) (doc : DocRecord) :
  generateHTML cfg documentation = Ok html ->
  In doc documentation ->
  occurs_in "<!DOCTYPE html>" html
  /\ occurs_in (cat [ "      <h2>"; label_of doc; "</h2>" ]) html
  /\ occurs_in (cat [ "              <a href="; dq; "#"; encodeURIComponent (title doc); dq;
                     ">"; title doc; "</a>" ]) html
  /\ exists body,
       toStr (content doc) = Ok body
       /\ occurs_in (cat [ "      <div class="; dq; "manual"; dq; " id="; dq;
                          encodeURIComponent (title doc); dq; ">"; nl; "        "; body ])
            html.
Proof.
  intros Hhtml Hdoc. unfold generateHTML, generateBody in Hhtml.
  destruct (generateTableOfContents documentation) as [toc | e] eqn:Htoc;
    cbn [rbind] in Hhtml; [| discriminate].
  destruct (generateContent documentation) as [viewer | e] eqn:Hviewer;
    cbn [rbind] in Hhtml; [| discriminate].
  match type of Hhtml with
  | Ok (cat ?l) = _ => remember l as pieces eqn:Hpieces
  end.
  injection Hhtml as <-.
  destruct (generateTableOfContents_contains documentation toc doc Htoc Hdoc)
    as [Hheading Hlink].
  destruct (generateContent_contains documentation viewer doc Hviewer Hdoc)
    as [body [Hbody Hwrapper]].
  assert (Hinner : forall part, In part [toc; viewer] -> occurs_in part (cat pieces)).
  { intros part Hpart. apply (occurs_in_trans _ (nth 19 pieces EmptyString)).
    - rewrite Hpieces. cbn [nth]. apply occurs_in_cat.
      cbn [In] in Hpart |- *.
      destruct Hpart as [<- | [<- | []]]; repeat (first [left; reflexivity | right]).
    - apply occurs_in_cat. rewrite Hpieces. cbn [nth In]. do 19 right. left. reflexivity. }
  pose proof (Hinner toc (or_introl eq_refl)) as Htoc_in.
  pose proof (Hinner viewer (or_intror (or_introl eq_refl))) as Hviewer_in.
  split; [| split; [| split]].
  - apply (occurs_in_trans _ "    <!DOCTYPE html>").
    + exists "    ", EmptyString. reflexivity.
    + apply occurs_in_cat. rewrite Hpieces. right. left. reflexivity.
  - exact (occurs_in_trans _ _ _ Hheading Htoc_in).
  - exact (occurs_in_trans _ _ _ Hlink Htoc_in).
  - exists body. split; [exact Hbody |].
    exact (occurs_in_trans _ _ _ Hwrapper Hviewer_in).
Qed.

(** ** The functions evaluated in the page, continued *)

Lemma all_word_take_word (s : string) : all_word (take_word s) = true.
Proof.
  induction s as [|c s IH]; [reflexivity |]. simpl.
  destruct (is_word c) eqn:Hc; [| reflexivity]. simpl. rewrite Hc, IH. reflexivity.
Qed.

(** The language captured is a non-empty word. *)
Lemma match_language_word (s w : string) :
  match_language s = Some w -> w <> EmptyString /\ all_word w = true.
Proof.
  induction s as [|c s IH].
  - discriminate.
  - change (match_language (String c s))
      with (match language_here (String c s) with
            | Some w => Some w
            | None => match_language s
            end).
    destruct (language_here (String c s)) as [w' |] eqn:Hhere; [| exact IH].
    intros [= <-]. unfold language_here in Hhere.
    destruct (startsWith (String c s) "language-"); [| discriminate].
    pose proof (all_word_take_word (drop_chars 9 (String c s))) as Hw.
    destruct (take_word (drop_chars 9 (String c s))) as [| d rest]; [discriminate |].
    injection Hhere as <-. split; [discriminate | exact Hw].
Qed.

Lemma rewritten_normal (k : bool) (cls : string) :
  normal_class (fst (rewritten k cls)) /\ snd (rewritten k cls) = "pre".
Proof.
  split; [| reflexivity]. destruct k; [right | left; reflexivity]. cbn [rewritten fst].
  destruct (match_language cls) as [w |] eqn:Hw.
  - exists w. split; [reflexivity | exact (match_language_word _ _ Hw)].
  - exists "javascript". split; [reflexivity | split; [discriminate | reflexivity]].
Qed.

Section PassForm.

Variable content : Element.

Lemma pass_form (ps : list path) (c : Element) (t : path) :
  (attrs_at t c = attrs_at t content
   \/ exists cls, attrs_at t c = Some (cls, "pre") /\ normal_class cls) ->
  attrs_at t (fold_left process_element ps c) = attrs_at t content
  \/ exists cls,
       attrs_at t (fold_left process_element ps c) = Some (cls, "pre")
       /\ normal_class cls.
Proof.
  revert c. induction ps as [|p ps IH]; intros c Hc; simpl; [exact Hc |].
  apply IH. rewrite process_element_write.
  destruct (write_of c p) as [[target k] |]; [| exact Hc].
  destruct (decide (target = t)) as [-> | Hne].
  - rewrite attrs_at_apply_write_target.
    destruct (attrs_at t c) as [[cls ws] |] eqn:Hat.
    + right. cbn [option_map fst].
      destruct (rewritten_normal k cls) as [Hn Hs].
      exists (fst (rewritten k cls)). split; [| exact Hn].
      rewrite <- Hs. destruct (rewritten k cls); reflexivity.
    + cbn [option_map]. destruct Hc as [Hc | [cls [Hc _]]]; [left; exact Hc | discriminate].
  - rewrite (attrs_at_apply_write_other t target k c Hne). exact Hc.
Qed.

End PassForm.

(** X28. [processCodeBlocks] changes classes and styles only, and only
    those of [pre] and [code] elements below the content region: the tree
    of elements and their tags are kept, the content region itself and
    every element that is neither a [pre] nor a [code] keep their class and
    style, and an element whose class or style has changed has the style
    [white-space: pre] and the class [inline] or [prettyprint lang-] followed
    by a non-empty word. *)
Theorem processCodeBlocks_changes (content : Element) :
  skeleton (processCodeBlocks content) = skeleton content
  /\ attrs_at [] (processCodeBlocks content) = attrs_at [] content
  /\ (forall t el,
        element_at t content = Some el ->
        has_tag "PRE" el = false -> has_tag "CODE" el = false ->
        attrs_at t (processCodeBlocks content) = attrs_at t content)
  /\ (forall t,
        attrs_at t (processCodeBlocks content) = attrs_at t content
        \/ exists cls,
             attrs_at t (processCodeBlocks content) = Some (cls, "pre")
             /\ normal_class cls).
Proof.
  assert (Htarget : forall p t k,
            In p (querySelectorAll_pre_code content) ->
            write_of content p = Some (t, k) ->
            t <> []
            /\ exists el, element_at t content = Some el
                          /\ has_tag "PRE" el || has_tag "CODE" el = true).
  { intros p t k Hp Hw.
    pose proof (descendants_nonempty _ _ (in_querySelectorAll_inv _ _ Hp)) as Hne.
    unfold write_of in Hw.
    destruct (element_at p content) as [el |] eqn:Hel; [| discriminate].
    destruct (has_tag "PRE" el) eqn:Hpre.
    - injection Hw as <- <-. unfold inner_code. rewrite Hel.
      destruct (querySelector_code el) as [q |] eqn:Hq.
      + destruct (querySelector_code_Some _ _ Hq) as [_ [code [Hcode Htag]]].
        split; [destruct p; [contradiction | discriminate] |].
        exists code. rewrite element_at_app, Hel, Htag, orb_true_r. auto.
      + split; [exact Hne |]. exists el. rewrite Hpre. auto.
    - destruct (has_tag "CODE" el) eqn:Hcode; [| discriminate].
      destruct (parent_matches_pre content p); [discriminate |].
      injection Hw as <- <-. split; [exact Hne |]. exists el. rewrite Hcode, orb_true_r. auto. }
  unfold processCodeBlocks.
  split; [| split; [| split]].
  - apply (pass_untouched content (querySelectorAll_pre_code content) content [] eq_refl).
    intros p k Hp Hw. destruct (Htarget p [] k Hp Hw) as [Hne _]. contradiction.
  - apply (pass_untouched content (querySelectorAll_pre_code content) content [] eq_refl).
    intros p k Hp Hw. destruct (Htarget p [] k Hp Hw) as [Hne _]. contradiction.
  - intros t el Hel Hpre Hcode.
    apply (pass_untouched content (querySelectorAll_pre_code content) content t eq_refl).
    intros p k Hp Hw. destruct (Htarget p t k Hp Hw) as [_ [el' [Hel' Htag]]].
    rewrite Hel in Hel'. injection Hel' as <-. rewrite Hpre, Hcode in Htag. discriminate.
  - intros t. apply pass_form. left. reflexivity.
Qed.

(** ** Relative paths and link paths *)

(** X29. [fixRelativePaths] puts [BASE_URL] before the [src] and the [href]
    that start with [/] and leaves the others, and the absent ones, as they
    are.  When [BASE_URL] is not empty and does not itself start with [/],
    no [src] or [href] starts with [/] afterwards and a second pass changes
    nothing. *)
Theorem fixRelativePaths_prefixes (cfg : Config) (matched : list UrlElement) :
  length (fixRelativePaths cfg matched) = length matched
  /\ (forall i el, matched !! i = Some el ->
        exists fixed,
          fixRelativePaths cfg matched !! i = Some fixed
          /\ (forall v, el_src el = Some v ->
                el_src fixed
                = Some (if startsWith v "/" then BASE_URL cfg +:+ v else v))
          /\ (forall v, el_href el = Some v ->
                el_href fixed
                = Some (if startsWith v "/" then BASE_URL cfg +:+ v else v))
          /\ (el_src el = None -> el_src fixed = None)
          /\ (el_href el = None -> el_href fixed = None))
  /\ (BASE_URL cfg <> EmptyString -> startsWith (BASE_URL cfg) "/" = false ->
      Forall (fun el => (forall v, el_src el = Some v -> startsWith v "/" = false)
                        /\ (forall v, el_href el = Some v -> startsWith v "/" = false))
        (fixRelativePaths cfg matched)
      /\ fixRelativePaths cfg (fixRelativePaths cfg matched) = fixRelativePaths cfg matched).
Proof.
  unfold fixRelativePaths. split; [apply length_map | split].
  - intros i el Hel. rewrite list_lookup_fmap, Hel. cbn [fmap option_fmap option_map].
    eexists. split; [reflexivity |]. cbn [el_src el_href].
    repeat split; intros; unfold prefix_relative;
      repeat match goal with Hv : _ = _ |- _ => rewrite Hv; clear Hv end;
      try reflexivity; destruct (startsWith _ "/"); reflexivity.
  - intros Hne Hbase.
    assert (Hfixed : forall v s, prefix_relative cfg v = Some s -> startsWith s "/" = false).
    { intros [v |] s; [| discriminate]. unfold prefix_relative.
      destruct (startsWith v "/") eqn:Hv; intros [= <-]; [| exact Hv].
      destruct (BASE_URL cfg) as [|c base]; [contradiction |].
      rewrite append_cons. cbn [startsWith] in Hbase |- *.
      destruct (Ascii.eqb "/" c); [discriminate | reflexivity]. }
    assert (Hstable : forall v, prefix_relative cfg (prefix_relative cfg v)
                                = prefix_relative cfg v).
    { intros v. destruct (prefix_relative cfg v) as [s |] eqn:Hs; [| reflexivity].
      cbn [prefix_relative]. rewrite (Hfixed v s Hs). reflexivity. }
    split.
    + apply List.Forall_forall. intros el Hin. apply in_map_iff in Hin.
      destruct Hin as [el0 [<- _]]. cbn [el_src el_href]. split; intros v; apply Hfixed.
    + rewrite map_map. apply map_ext. intros el. cbn [el_src el_href].
      rewrite !Hstable. reflexivity.
Qed.

Lemma split_no_separator (sep : ascii) (s : string) :
  includes s (String sep EmptyString) = false -> split sep s = [s].
Proof.
  induction s as [|c s IH]; [reflexivity |].
  cbn [includes startsWith]. intros Hinc. apply orb_false_iff in Hinc.
  destruct Hinc as [Hc Hs]. cbn [split].
  rewrite Ascii.eqb_sym. destruct (Ascii.eqb sep c); [discriminate |].
  rewrite (IH Hs). reflexivity.
Qed.

Lemma split_at_separator (sep : ascii) (a rest : string) :
  includes a (String sep EmptyString) = false ->
  split sep (a +:+ String sep rest) = a :: split sep rest.
Proof.
  induction a as [|c a IH]; intros Hinc.
  - rewrite append_nil_l. cbn [split]. rewrite Ascii.eqb_refl. reflexivity.
  - revert Hinc. cbn [includes startsWith]. intros Hinc. apply orb_false_iff in Hinc.
    destruct Hinc as [Hc Ha]. rewrite append_cons. cbn [split].
    rewrite Ascii.eqb_sym. destruct (Ascii.eqb sep c); [discriminate |].
    rewrite (IH Ha). reflexivity.
Qed.

(** X30. The [path] of a link is its [href] attribute when that has no
    [#], or nothing between its first [#] and the next; otherwise it is the
    text between the first [#] and the next one, or the end: what follows
    a second [#] is dropped. *)
Theorem link_path_of_href (a b : string) :
  includes a "#" = false ->
  includes b "#" = false ->
  link_path_of a = a
  /\ link_path_of (a +:+ "#" +:+ b)
     = (if String.eqb b EmptyString then a +:+ "#" +:+ b else b)
  /\ forall rest,
       link_path_of (a +:+ "#" +:+ b +:+ "#" +:+ rest)
       = (if String.eqb b EmptyString then a +:+ "#" +:+ b +:+ "#" +:+ rest else b).
Proof.
  intros Ha Hb. unfold link_path_of. split; [| split].
  - rewrite (split_no_separator _ _ Ha). reflexivity.
  - change (a +:+ "#" +:+ b) with (a +:+ String "#" b).
    rewrite (split_at_separator _ _ _ Ha), (split_no_separator _ _ Hb). reflexivity.
  - intros rest.
    change (a +:+ "#" +:+ b +:+ "#" +:+ rest) with (a +:+ String "#" (b +:+ String "#" rest)).
    rewrite (split_at_separator _ _ _ Ha), (split_at_separator _ _ _ Hb). reflexivity.
Qed.

(** ** Further runs on the sample environments *)

Lemma saveToCache_failure_reported_witness :
  files (snd (@saveToCache sample_json (config false true) sample_url cached_page
                read_only_world))
  = files read_only_world
  /\ List.last
       (trace (snd (@saveToCache sample_json (config false true) sample_url cached_page
                      read_only_world))) EvClose
     = EvConsoleError "[ERROR] Failed to write cache:"
         [ArgError
            (Error ("ENOENT: no such file or directory, open '"
                    +:+ getCacheKey (config false true) sample_url +:+ "'"))].
Proof.
  apply (@saveToCache_failure_reported sample_json (config false true) sample_url
           cached_page read_only_world).
  - reflexivity.
  - vm_compute. reflexivity.
Defined.

Lemma cache_version_isolates_witness :
  fst (@getFromCache sample_json config_v2 sample_url
         (snd (@saveToCache sample_json (config false true) sample_url cached_page
                 empty_world)))
  = fst (@getFromCache sample_json config_v2 sample_url empty_world).
Proof.
  apply (@cache_version_isolates sample_json (config false true) config_v2).
  - reflexivity.
  - vm_compute. discriminate.
Defined.

Lemma initializeCache_clears_witness :
  fst (@getFromCache sample_json (config false true) sample_url
         (snd (initializeCache (config false true) true world_with_cache)))
  = Ok JsNull.
Proof.
  refine (proj2 (proj2 (@initializeCache_clears sample_json (config false true)
                          world_with_cache _)) sample_url).
  reflexivity.
Defined.

Lemma extractLinks_recovers_witness :
  extractLinks (config false true) recovering_page empty_world
  = (Ok (Some [sample_link 1]),
     snd (discover (config false true) recovering_page
            (record (EvSetTimeout 1000)
               (snd (discover (config false true) recovering_page empty_world))))).
Proof.
  apply (extractLinks_recovers (config false true) recovering_page empty_world
           (snd (discover (config false true) recovering_page empty_world))
           _ (Error "Navigation timeout of 30000 ms exceeded")).
  - vm_compute. reflexivity.
  - vm_compute. reflexivity.
  - vm_compute. reflexivity.
Defined.

Lemma extractContent_failure_stores_nothing_witness :
  files (snd (@extractContent sample_json (config false true) timeout_page sample_url
                "Test Page" empty_world))
  = files empty_world.
Proof.
  refine (proj1 (@extractContent_failure_stores_nothing sample_json (config false true)
                   timeout_page sample_url "Test Page" empty_world
                   (Error "Timeout waiting for iframe: timeout") _)).
  vm_compute. reflexivity.
Defined.


Lemma extractContent_named_failures_witness :
  fst (@extractContent sample_json (config false true)
         (no_frame_page (fun _ _ => Ok tt)) sample_url "Test Page" empty_world)
  = Throw (Error "No iframe found").
Proof.
  refine (proj1 (proj2 (@extractContent_named_failures sample_json (config false true)
                          (no_frame_page (fun _ _ => Ok tt)) sample_url "Test Page"
                          empty_world _ _) _) _).
  - vm_compute. reflexivity.
  - reflexivity.
  - reflexivity.
  - reflexivity.
Defined.

Lemma extractContent_then_cached_witness :
  fst (@extractContent sample_json (config false true) dead_page sample_url "Other title"
         (snd (@extractContent sample_json (config false true) sample_page sample_url
                 "Page 1" empty_world)))
  = Ok sample_record.
Proof.
  refine (proj1 (@extractContent_then_cached sample_json (config false true) sample_page
                   dead_page sample_url "Page 1" "Other title" empty_world sample_record
                   (default EmptyString (stringify_at 0 sample_record)) _ _ _ _ _ _ _)).
  - reflexivity.
  - vm_compute. reflexivity.
  - vm_compute. reflexivity.
  - vm_compute. reflexivity.
  - vm_compute. reflexivity.
  - vm_compute. discriminate.
  - reflexivity.
Defined.

Lemma extractContent_without_cache_witness :
  List.filter is_fs_call
    (added_by (@extractContent sample_json (config false false) sample_page sample_url
                 "Page 1") world_with_cache)
  = []
  /\ files (snd (@extractContent sample_json (config false false) sample_page sample_url
                   "Page 1" world_with_cache))
     = files world_with_cache.
Proof.
  apply (@extractContent_without_cache sample_json (config false false)).
  reflexivity.
Defined.

Lemma run_changes_only_cache_and_output_witness :
  files (snd sample_run) !! "README.md" = files empty_world !! "README.md".
Proof.
  apply (@run_changes_only_cache_and_output sample_json (config true true) false
           no_browser (Some sample_page) empty_world "README.md").
  - reflexivity.
  - vm_compute. discriminate.
Defined.


Lemma production_run_extracts_all_witness :
  exists (browser : option Browser) (page : Page) (wa w1 : World)
         (links : list LinkRecord),
    acquire_page (config false true) no_browser (Some sample_page)
      (snd (startup (config false true) false empty_world))
    = (Ok (browser, page), wa)
    /\ extractLinks (config false true) page wa = (Ok (Some links), w1)
    /\ section_logs
         (snd (@scrapeDocumentation sample_json (config false true) false no_browser
                 (Some sample_page) empty_world))
       = section_logs empty_world
         ++ run_started :: map (fun link => extraction_started (text link)) links
    /\ exists html,
         output_writes (config false true)
           (snd (@scrapeDocumentation sample_json (config false true) false no_browser
                   (Some sample_page) empty_world))
         = output_writes (config false true) empty_world
           ++ [EvWriteFile (outputPath (config false true)) (Some html)].
Proof.
  apply (@production_run_extracts_all sample_json (config false true) no_browser
           (Some sample_page) empty_world).
  - reflexivity.
  - reflexivity.
  - vm_compute. reflexivity.
Defined.

Lemma output_document_follows_links_witness :
  exists (browser : option Browser) (page : Page) (wa w1 : World)
         (links : list LinkRecord) (documentation : list DocRecord) (html : string),
    acquire_page (config true true) no_browser (Some sample_page)
      (snd (startup (config true true) false empty_world))
    = (Ok (browser, page), wa)
    /\ extractLinks (config true true) page wa = (Ok (Some links), w1)
    /\ (let pagesToProcess := firstn 10 links in
        map title documentation = map text pagesToProcess
        /\ map section documentation
           = map (fun link => section_or_default (link_section link)) pagesToProcess)
    /\ generateHTML (config true true) documentation = Ok html
    /\ files (snd sample_run) !! outputPath (config true true) = Some (FileData html).
Proof.
  apply (@output_document_follows_links sample_json (config true true) no_browser
           (Some sample_page) empty_world).
  vm_compute. reflexivity.
Defined.

Lemma toc_anchor_for_every_page_witness :
  Permutation
    (toc_anchors
       [ ("Section1", [toc_item {| title := "Doc1"; content := JsString "test";
                                   section := "Section1" |};
                       toc_item {| title := "Doc2"; content := JsString "test";
                                   section := "Section1" |}]);
         ("Section2", [toc_item {| title := "Doc3"; content := JsString "test";
                                   section := "Section2" |}]) ])
    (viewer_ids sample_documentation)
  /\ length
       (toc_anchors
          [ ("Section1", [toc_item {| title := "Doc1"; content := JsString "test";
                                      section := "Section1" |};
                          toc_item {| title := "Doc2"; content := JsString "test";
                                      section := "Section1" |}]);
            ("Section2", [toc_item {| title := "Doc3"; content := JsString "test";
                                      section := "Section2" |}]) ])
     = length sample_documentation.
Proof.
  apply (toc_anchor_for_every_page sample_documentation).
  vm_compute. reflexivity.
Defined.

Lemma toc_keeps_first_seen_order_witness :
  rbind (toc_sections sample_documentation) (fun sections => Ok (toc_headings sections))
  = Ok (first_seen (map label_of sample_documentation)).
Proof.
  refine (proj1 (toc_keeps_first_seen_order sample_documentation _)).
  repeat constructor.
Defined.

Lemma generateHTML_contains_pages_witness :
  occurs_in (cat [ "      <h2>"; "Section1"; "</h2>" ])
    (match generateHTML (config false true) sample_documentation with
     | Ok html => html
     | Throw _ => EmptyString
     end).
Proof.
  refine (proj1 (proj2 (generateHTML_contains_pages (config false true)
                          sample_documentation _
                          {| title := "Doc1"; content := JsString "test";
                             section := "Section1" |} _ _))).
  - vm_compute. reflexivity.
  - left. reflexivity.
Defined.

Lemma link_path_of_href_witness : link_path_of "#api/en/Test" = "api/en/Test".
Proof.
  exact (proj1 (proj2 (link_path_of_href EmptyString "api/en/Test" eq_refl eq_refl))).
Defined.
